(** * aws-transcribe-client: a shallow embedding of the session controller

    The development follows [aws-transcribe-client.ts]: the Safari-safe
    [ReadableStream] queue, the credential cache (class [AWSCredentials]),
    the voice-activity detector, the silence timers and the life cycle of
    [AWSTranscribeClient] ([start], [stop], result consumption).

    Conventions.
    - A JavaScript number is a binary64 float ([PrimFloat]); a quantity the
      code only uses as a whole number of milliseconds or samples is a [Z].
    - The controller is a record of its private fields; what lies outside it
      (clock, [localStorage], pending timers, the stream object shared with
      the SDK, calls made to callbacks and to released objects) is the
      [World].  A method is a function on the pair of both.
    - Time advances by [Tick]s of one millisecond; a timer runs during the
      first tick that reaches its deadline.
    - [start] is taken in one step: nothing runs between its [await]s.
    - Logging ([console.log], [_log]) is left out.

    The file [aws-transcribe-client.ts] and the later revision of the same
    file that has the class [AWSCredentials] differ in the credential loader
    and in one guard of [start]; the later revision is the one embedded, and
    the earlier loader is kept beside it under its own name. *)

From Stdlib Require Import Ascii List String ZArith Floats Uint63 Bool Lia.
Import ListNotations.

Set Implicit Arguments.

(* ================================================================== *)
(** * The custom [ReadableStream] (class ReadableStream)               *)
(* ================================================================== *)

Module ReadableStream.

Section Stream.
Variable chunk : Type.

(** The iterator protocol object [{ value, done }]. *)
Inductive IteratorResult : Type :=
| Value (c : chunk)      (* { value: c, done: false } *)
| Done.                  (* { value: undefined, done: true } *)

(** A listener is the [resolve] function of one pending promise; the
    promise it belongs to is named by a number. *)
Definition Resolver := nat.

(** What [next()] hands back: [Promise.resolve(r)] or a promise still
    pending whose resolver sits in [listeners]. *)
Inductive Promise : Type :=
| Resolved (r : IteratorResult)
| Pending (p : Resolver).

(** The three private fields of the class, and the promise heap they act
    on: [settled] lists, oldest first, every [listener.resolve(...)] call
    made so far, [issued] counts the pending promises created. *)
Record t : Type := mk {
  listeners : list Resolver;
  buffer : list chunk;
  closed : bool;
  settled : list (Resolver * IteratorResult);
  issued : nat
}.

(** constructor() *)
Definition new : t :=
  {| listeners := []; buffer := []; closed := false;
     settled := []; issued := 0 |}.

(** enqueue(chunk) *)
Definition enqueue (c : chunk) (q : t) : t :=
  if closed q then q
  else match listeners q with
       | listener :: rest =>            (* this.listeners.shift() *)
           {| listeners := rest; buffer := buffer q; closed := closed q;
              settled := settled q ++ [(listener, Value c)];
              issued := issued q |}
       | [] =>                          (* this.buffer.push(chunk) *)
           {| listeners := []; buffer := buffer q ++ [c];
              closed := closed q; settled := settled q;
              issued := issued q |}
       end.

(** close() *)
Definition close (q : t) : t :=
  {| listeners := []; buffer := buffer q; closed := true;
     settled := settled q ++ map (fun listener => (listener, Done)) (listeners q);
     issued := issued q |}.

(** [Symbol.asyncIterator]().next() *)
Definition next (q : t) : t * Promise :=
  if closed q && (List.length (buffer q) =? 0)%nat then (q, Resolved Done)
  else match buffer q with
       | c :: rest =>                   (* this.buffer.shift() *)
           ({| listeners := listeners q; buffer := rest; closed := closed q;
               settled := settled q; issued := issued q |},
            Resolved (Value c))
       | [] =>                          (* this.listeners.push({ resolve }) *)
           ({| listeners := listeners q ++ [issued q]; buffer := [];
               closed := closed q; settled := settled q;
               issued := S (issued q) |},
            Pending (issued q))
       end.

(** The calls a producer, the owner and a consumer can make, in any
    interleaving. *)
Inductive call : Type :=
| Enqueue (c : chunk)
| Close
| Next.

Definition step (q : t) (o : call) : t :=
  match o with
  | Enqueue c => enqueue c q
  | Close => close q
  | Next => fst (next q)
  end.

Definition run (ops : list call) (q : t) : t := fold_left step ops q.

(** The promises returned by the [Next] calls of a run, in call order. *)
Fixpoint answers (ops : list call) (q : t) : list Promise :=
  match ops with
  | [] => []
  | Next :: ops' => snd (next q) :: answers ops' (fst (next q))
  | o :: ops' => answers ops' (step q o)
  end.

Fixpoint count_next (ops : list call) : nat :=
  match ops with
  | [] => 0
  | Next :: ops' => S (count_next ops')
  | _ :: ops' => count_next ops'
  end.

(** The queue invariant of the data model: never items and waiters at once;
    a closed queue has no waiters. *)
Definition exclusive (q : t) : Prop :=
  buffer q = [] \/ listeners q = [].

Definition wf (q : t) : Prop :=
  exclusive q /\ (closed q = true -> listeners q = []).

End Stream.

Arguments Done {chunk}.
Arguments new {chunk}.
Arguments Close {chunk}.
Arguments Next {chunk}.

End ReadableStream.

(* ================================================================== *)
(** * JavaScript values                                                *)
(* ================================================================== *)

Open Scope string_scope.

(** Truthiness, as [||], [!] and [if] test it. *)
Definition truthy_number (x : float) : bool :=
  negb (PrimFloat.is_zero x || PrimFloat.is_nan x).

Definition truthy_int (z : Z) : bool := negb (z =? 0)%Z.

Definition truthy_string (s : string) : bool := negb (s =? "").

(** [a || b] where [a] may be [undefined]. *)
Definition or_default {A : Type} (truthy : A -> bool) (a : option A) (b : A) : A :=
  match a with
  | Some v => if truthy v then v else b
  | None => b
  end.

(** An integer-valued number ([Date.now()], [array.length]) as a double. *)
Definition number_of_Z (z : Z) : float := PrimFloat.of_uint63 (Uint63.of_Z z).

(** [Math.floor] of a finite double, as stored into an [Int16Array] ([NaN]
    and the infinities are stored as 0). *)
Definition Math_floor (x : float) : Z :=
  match Prim2SF x with
  | S754_finite s m e => Z.shiftl (if s then Z.neg m else Z.pos m) e
  | _ => 0%Z
  end.

(** [Math.ceil(a / 1000)] for a whole number of milliseconds [a]. *)
Definition ceil_div_1000 (a : Z) : Z := (- ((- a) / 1000))%Z.

(** What a [throw] carries: an [Error] object with its [name] and [message],
    or any other value, kept as [String(error)]. *)
Inductive Thrown : Type :=
| ErrorObject (name message : string)
| OtherValue (text : string).

(** [error instanceof Error ? error.message : String(error)] *)
Definition errorMessage (error : Thrown) : string :=
  match error with
  | ErrorObject _ message => message
  | OtherValue text => text
  end.

Definition new_Error (message : string) : Thrown := ErrorObject "Error" message.

(* ================================================================== *)
(** * Voice activity detection                                         *)
(* ================================================================== *)

Open Scope float_scope.

(** [inputData.reduce((acc, val) => acc + val * val, 0)] *)
Definition sum_squares (inputData : list float) : float :=
  fold_left (fun acc val => acc + val * val) inputData 0.

(** [Math.sqrt(... / inputData.length)] *)
Definition rms (inputData : list float) : float :=
  PrimFloat.sqrt (sum_squares inputData
                  / number_of_Z (Z.of_nat (List.length inputData))).

(** _detectVoiceActivity: [return rms > this.config.vadThreshold] *)
Definition _detectVoiceActivity (vadThreshold : float) (inputData : list float) : bool :=
  vadThreshold <? rms inputData.

(** The specification's energy measure: the root mean square, with the value
    of the empty frame fixed at 0. *)
Definition spec_rms (frame : list float) : float :=
  match frame with
  | [] => 0
  | _ => PrimFloat.sqrt (sum_squares frame
                         / number_of_Z (Z.of_nat (List.length frame)))
  end.

Definition spec_classify (frame : list float) (threshold : float) : bool :=
  threshold <? spec_rms frame.

Close Scope float_scope.

(* ================================================================== *)
(** * Options and configuration                                        *)
(* ================================================================== *)

Record TranscribeCredentials : Type := {
  accessKeyId : string;
  secretAccessKey : string;
  sessionToken : string;
  expiration : float;            (* expiration.getTime(); NaN for an invalid Date *)
  reservedMinutes : option float
}.

(** What awaiting [credentialsProvider(minutesUsed)] gives. *)
Inductive ProviderOutcome : Type :=
| Resolves (credentials : TranscribeCredentials)
| YieldsNothing                  (* null or undefined *)
| Rejects (error : Thrown).

Definition TranscribeCredentialsProvider : Type := float -> ProviderOutcome.

(** A callback of the options object: the default [() => {}] or a function
    of the caller. *)
Inductive Callback : Type :=
| noop
| listener (id : nat).

Inductive SessionIdGenerator : Type :=
| generateUUID
| customGenerator (id : nat).

Record TranscribeOptions : Type := {
  opt_region : option string;
  opt_languageCode : option string;
  opt_sampleRate : option Z;
  opt_vadThreshold : option float;
  opt_silenceDuration : option Z;
  opt_maxSilenceDuration : option Z;
  opt_bufferSize : option Z;
  opt_debug : option bool;
  opt_credentialsProvider : option TranscribeCredentialsProvider;
  opt_generateSessionId : option SessionIdGenerator;
  opt_onTranscript : option Callback;
  opt_onSpeechStart : option Callback;
  opt_onSpeechEnd : option Callback;
  opt_onError : option Callback;
  opt_onStateChange : option Callback
}.

(** [Required<TranscribeOptions>] *)
Record Config : Type := {
  region : string;
  languageCode : string;
  sampleRate : Z;
  vadThreshold : float;
  silenceDuration : Z;
  maxSilenceDuration : Z;
  bufferSize : Z;
  debug : bool;
  credentialsProvider : option TranscribeCredentialsProvider;
  onTranscript : Callback;
  onSpeechStart : Callback;
  onSpeechEnd : Callback;
  onError : Callback;
  onStateChange : Callback;
  generateSessionId : SessionIdGenerator
}.

(** 0.02, at the double nearest to it *)
Definition VAD_THRESHOLD : float := 0x1.47ae147ae147bp-6%float.
Definition SILENCE_DURATION : Z := 1000.
Definition MAX_SILENCE_DURATION : Z := 60000.
Definition BUFFER_SIZE : Z := 4096.
Definition DEFAULT_SAMPLE_RATE : Z := 44100.
Definition LanguageCode_EN_US : string := "en-US".

Definition always_truthy {A : Type} (_ : A) : bool := true.

(** The configuration object built at the top of the constructor. *)
Definition make_config (options : TranscribeOptions) : Config :=
  {| region := or_default truthy_string (opt_region options) "us-east-1";
     languageCode := or_default truthy_string (opt_languageCode options) LanguageCode_EN_US;
     sampleRate := or_default truthy_int (opt_sampleRate options) DEFAULT_SAMPLE_RATE;
     vadThreshold := or_default truthy_number (opt_vadThreshold options) VAD_THRESHOLD;
     silenceDuration := or_default truthy_int (opt_silenceDuration options) SILENCE_DURATION;
     maxSilenceDuration :=
       or_default truthy_int (opt_maxSilenceDuration options) MAX_SILENCE_DURATION;
     bufferSize := or_default truthy_int (opt_bufferSize options) BUFFER_SIZE;
     debug := or_default (fun b : bool => b) (opt_debug options) false;
     credentialsProvider := opt_credentialsProvider options;
     onTranscript := or_default always_truthy (opt_onTranscript options) noop;
     onSpeechStart := or_default always_truthy (opt_onSpeechStart options) noop;
     onSpeechEnd := or_default always_truthy (opt_onSpeechEnd options) noop;
     onError := or_default always_truthy (opt_onError options) noop;
     onStateChange := or_default always_truthy (opt_onStateChange options) noop;
     generateSessionId :=
       or_default always_truthy (opt_generateSessionId options) generateUUID |}.

(* ================================================================== *)
(** * The world around the controller                                  *)
(* ================================================================== *)

(** [localStorage], with its two keys.  The store is string-valued; the
    usage counter is written with [minutes.toString()] and read back with
    [parseFloat], which returns the double that was written, so its slot
    holds that double. *)
Record Storage : Type := {
  aws_transcribe_credentials : option string;     (* STORAGE_KEY *)
  aws_transcribe_minutes_used : option float      (* MINUTES_USED_KEY *)
}.

(** Timer handles as [window.setTimeout] and [window.setInterval] number
    them: positive, so always truthy. *)
Definition TimerId : Type := positive.

Inductive TimerTask : Type :=
| HandleSilence                     (* () => this._handleSilence() *)
| MaxSilenceReached                 (* () => { ...; this.stop(); } *)
| CountdownTick (startTime : Z).    (* the interval closure, with its startTime *)

Record Timer : Type := {
  timer_id : TimerId;
  due : Z;
  task : TimerTask;
  every : option Z                  (* the period of an interval *)
}.

(** The object handed to [onStateChange]. *)
Record StateUpdate : Type := {
  upd_isListening : bool;
  upd_isActivelySpeaking : bool;
  upd_silenceCountdown : option Z
}.

(** [{ AudioEvent: { AudioChunk } }], the chunk as its 16-bit samples. *)
Record AudioEvent : Type := { AudioChunk : list Z }.

(** Calls that leave the controller, in the order they are made. *)
Inductive Effect : Type :=
| CallOnTranscript (transcript interimTranscript : string)
| CallOnSpeechStart
| CallOnSpeechEnd
| CallOnError (error : string)
| CallOnStateChange (state : StateUpdate)
| CustomStreamClose
| ProcessorDisconnect
| SourceDisconnect
| AudioContextClose
| TracksStop
| TranscribeClientDestroy.

Record World : Type := {
  Date_now : Z;                                   (* Date.now(), in ms *)
  localStorage : option Storage;                  (* None: typeof localStorage === 'undefined' *)
  timers : list Timer;                            (* pending timers, oldest first *)
  next_timer : TimerId;
  audioStream : option (ReadableStream.t AudioEvent);  (* the object made by new ReadableStream() *)
  provider_calls : list float;                    (* arguments of credentialsProvider calls *)
  effects : list Effect
}.

Definition set_Date_now (v : Z) (w : World) : World :=
  {| Date_now := v; localStorage := localStorage w; timers := timers w;
     next_timer := next_timer w; audioStream := audioStream w;
     provider_calls := provider_calls w; effects := effects w |}.

Definition set_localStorage (v : option Storage) (w : World) : World :=
  {| Date_now := Date_now w; localStorage := v; timers := timers w;
     next_timer := next_timer w; audioStream := audioStream w;
     provider_calls := provider_calls w; effects := effects w |}.

Definition set_timers (v : list Timer) (w : World) : World :=
  {| Date_now := Date_now w; localStorage := localStorage w; timers := v;
     next_timer := next_timer w; audioStream := audioStream w;
     provider_calls := provider_calls w; effects := effects w |}.

Definition set_next_timer (v : TimerId) (w : World) : World :=
  {| Date_now := Date_now w; localStorage := localStorage w; timers := timers w;
     next_timer := v; audioStream := audioStream w;
     provider_calls := provider_calls w; effects := effects w |}.

Definition set_audioStream (v : option (ReadableStream.t AudioEvent)) (w : World) : World :=
  {| Date_now := Date_now w; localStorage := localStorage w; timers := timers w;
     next_timer := next_timer w; audioStream := v;
     provider_calls := provider_calls w; effects := effects w |}.

Definition set_provider_calls (v : list float) (w : World) : World :=
  {| Date_now := Date_now w; localStorage := localStorage w; timers := timers w;
     next_timer := next_timer w; audioStream := audioStream w;
     provider_calls := v; effects := effects w |}.

Definition emit (e : Effect) (w : World) : World :=
  {| Date_now := Date_now w; localStorage := localStorage w; timers := timers w;
     next_timer := next_timer w; audioStream := audioStream w;
     provider_calls := provider_calls w; effects := effects w ++ [e] |}.

(** [ToInt32]: a number as the 32-bit signed integer the platform makes of
    it when an operation takes a [long]. *)
Definition ToInt32 (z : Z) : Z := ((z + 2147483648) mod 4294967296 - 2147483648)%Z.

(** The delay of a timer as the platform takes it (HTML, timer
    initialisation steps): the [timeout] argument is a [long], so the
    number given is converted to 32 bits, and a negative one counts as 0.
    A delay of 2^31 ms or more is therefore not waited for. *)
Definition timer_delay (delay : Z) : Z := Z.max 0 (ToInt32 delay).

(** window.setTimeout / window.setInterval / clearTimeout / clearInterval *)
Definition setTimeout (t : TimerTask) (delay : Z) (w : World) : TimerId * World :=
  (next_timer w,
   set_next_timer (Pos.succ (next_timer w))
     (set_timers (timers w ++ [{| timer_id := next_timer w;
                                  due := Date_now w + timer_delay delay;
                                  task := t; every := None |}]) w)).

Definition setInterval (t : TimerTask) (delay : Z) (w : World) : TimerId * World :=
  (next_timer w,
   set_next_timer (Pos.succ (next_timer w))
     (set_timers (timers w ++ [{| timer_id := next_timer w;
                                  due := Date_now w + timer_delay delay;
                                  task := t; every := Some (Z.max 1 (timer_delay delay)) |}]) w)).

Definition clearTimeout (id : TimerId) (w : World) : World :=
  set_timers (filter (fun t => negb (Pos.eqb (timer_id t) id)) (timers w)) w.

Definition clearInterval : TimerId -> World -> World := clearTimeout.

(** getMinutesUsed / storeMinutesUsed *)
Definition getMinutesUsed (w : World) : float :=
  match localStorage w with
  | None => 0%float
  | Some store =>
      match aws_transcribe_minutes_used store with
      | Some stored => stored
      | None => 0%float
      end
  end.

Definition storeMinutesUsed (minutes : float) (w : World) : World :=
  match localStorage w with
  | None => w
  | Some store =>
      set_localStorage
        (Some {| aws_transcribe_credentials := aws_transcribe_credentials store;
                 aws_transcribe_minutes_used := Some minutes |}) w
  end.

Definition removeItem_credentials (store : Storage) : Storage :=
  {| aws_transcribe_credentials := None;
     aws_transcribe_minutes_used := aws_transcribe_minutes_used store |}.

Definition setItem_credentials (text : string) (store : Storage) : Storage :=
  {| aws_transcribe_credentials := Some text;
     aws_transcribe_minutes_used := aws_transcribe_minutes_used store |}.

(* ================================================================== *)
(** * The credential cache                                             *)
(* ================================================================== *)

Section Platform.

(** The body of the [try] block of loadStoredCredentials:
    [JSON.parse(stored)] and the object spread that turns [expiration] into a
    [Date]; [inl e] when it throws [e]. *)
Variable JSON_parse : string -> Thrown + TranscribeCredentials.

(** [JSON.stringify(creds)] *)
Variable JSON_stringify : TranscribeCredentials -> string.

(** class AWSCredentials: loadStoredCredentials.  A text that does not
    parse is removed from the store and the error is thrown again. *)
Definition AWSCredentials_loadStoredCredentials (w : World)
  : (Thrown + option TranscribeCredentials) * World :=
  match localStorage w with
  | None => (inr None, w)
  | Some store =>
      match aws_transcribe_credentials store with
      | None => (inr None, w)
      | Some stored =>
          if negb (truthy_string stored) then (inr None, w)
          else match JSON_parse stored with
               | inr parsed => (inr (Some parsed), w)
               | inl e =>
                   (inl e, set_localStorage (Some (removeItem_credentials store)) w)
               end
      end
  end.

(** class AWSCredentials: storeCredentials *)
Definition AWSCredentials_storeCredentials (creds : option TranscribeCredentials)
  (w : World) : World :=
  match localStorage w with
  | None => w
  | Some store =>
      match creds with
      | None => set_localStorage (Some (removeItem_credentials store)) w
      | Some c =>
          set_localStorage (Some (setItem_credentials (JSON_stringify c) store)) w
      end
  end.

(** [existingCreds.expiration.getTime() > Date.now()] *)
Definition still_valid (existingCreds : TranscribeCredentials) (w : World) : bool :=
  (number_of_Z (Date_now w) <? expiration existingCreds)%float.

(** The provider call and what follows it. *)
Definition fetch_fresh (provider : TranscribeCredentialsProvider)
  (store_creds : option TranscribeCredentials -> World -> World) (w : World)
  : (Thrown + TranscribeCredentials) * World :=
  let minutesUsed := getMinutesUsed w in
  let w1 := set_provider_calls (provider_calls w ++ [minutesUsed]) w in
  match provider minutesUsed with
  | Rejects e => (inl e, w1)
  | YieldsNothing => (inl (new_Error "No credentials available"), w1)
  | Resolves credentials => (inr credentials, store_creds (Some credentials) w1)
  end.

(** class AWSCredentials: getCredentials *)
Definition AWSCredentials_getCredentials
  (provider : option TranscribeCredentialsProvider) (w : World)
  : (Thrown + TranscribeCredentials) * World :=
  match provider with
  | None => (inl (new_Error "No credentials provider available"), w)
  | Some credentialsProvider =>
      match AWSCredentials_loadStoredCredentials w with
      | (inl e, w1) => (inl e, w1)
      | (inr existingCreds, w1) =>
          match existingCreds with
          | Some c =>
              if still_valid c w1 then (inr c, w1)
              else fetch_fresh credentialsProvider AWSCredentials_storeCredentials w1
          | None => fetch_fresh credentialsProvider AWSCredentials_storeCredentials w1
          end
      end
  end.

(** The earlier, module-level helpers of aws-transcribe-client.ts:
    loadStoredCredentials there logs the parse error, removes the entry and
    returns [null]. *)
Definition loadStoredCredentials (w : World) : option TranscribeCredentials * World :=
  match localStorage w with
  | None => (None, w)
  | Some store =>
      match aws_transcribe_credentials store with
      | None => (None, w)
      | Some stored =>
          if negb (truthy_string stored) then (None, w)
          else match JSON_parse stored with
               | inr parsed => (Some parsed, w)
               | inl _ =>
                   (None, set_localStorage (Some (removeItem_credentials store)) w)
               end
      end
  end.

Definition storeCredentials : option TranscribeCredentials -> World -> World :=
  AWSCredentials_storeCredentials.

(** aws-transcribe-client.ts, method _getCredentials *)
Definition _getCredentials
  (provider : option TranscribeCredentialsProvider) (w : World)
  : (Thrown + TranscribeCredentials) * World :=
  match provider with
  | None => (inl (new_Error "No credentials provider available"), w)
  | Some credentialsProvider =>
      let (existingCreds, w1) := loadStoredCredentials w in
      match existingCreds with
      | Some c =>
          if still_valid c w1 then (inr c, w1)
          else fetch_fresh credentialsProvider storeCredentials w1
      | None => fetch_fresh credentialsProvider storeCredentials w1
      end
  end.

(* ================================================================== *)
(** * The controller: class AWSTranscribeClient                        *)
(* ================================================================== *)

(** A reference to an object of the platform or of the SDK; [None] is
    [null]. *)
Definition Handle : Type := unit.
Definition handle : Handle := tt.

(** The private fields of the class. [customStream] refers to the stream
    object kept in the world ([audioStream]), which the SDK holds too. *)
Record Client : Type := {
  config : Config;
  isListening : bool;
  isActivelySpeaking : bool;
  silenceCountdown : option Z;
  browserSupported : bool;
  audioContext : option Handle;
  maxSilenceTimeout : option TimerId;
  countdownInterval : option TimerId;
  sourceNode : option Handle;
  processorNode : option Handle;
  transcribeClient : option Handle;
  transcript : string;
  stream : option Handle;
  startTime : option Z;
  silenceTimeout : option TimerId;
  activeStreaming : bool;
  customStream : option Handle;
  transcribeStream : option Handle;
  AudioContextClass : option Handle
}.

Definition set_isListening (v : bool) (c : Client) : Client :=
  {| config := config c; isListening := v; isActivelySpeaking := isActivelySpeaking c;
     silenceCountdown := silenceCountdown c; browserSupported := browserSupported c;
     audioContext := audioContext c; maxSilenceTimeout := maxSilenceTimeout c;
     countdownInterval := countdownInterval c; sourceNode := sourceNode c;
     processorNode := processorNode c; transcribeClient := transcribeClient c;
     transcript := transcript c; stream := stream c; startTime := startTime c;
     silenceTimeout := silenceTimeout c; activeStreaming := activeStreaming c;
     customStream := customStream c; transcribeStream := transcribeStream c;
     AudioContextClass := AudioContextClass c |}.

Definition set_isActivelySpeaking (v : bool) (c : Client) : Client :=
  {| config := config c; isListening := isListening c; isActivelySpeaking := v;
     silenceCountdown := silenceCountdown c; browserSupported := browserSupported c;
     audioContext := audioContext c; maxSilenceTimeout := maxSilenceTimeout c;
     countdownInterval := countdownInterval c; sourceNode := sourceNode c;
     processorNode := processorNode c; transcribeClient := transcribeClient c;
     transcript := transcript c; stream := stream c; startTime := startTime c;
     silenceTimeout := silenceTimeout c; activeStreaming := activeStreaming c;
     customStream := customStream c; transcribeStream := transcribeStream c;
     AudioContextClass := AudioContextClass c |}.

Definition set_silenceCountdown (v : option Z) (c : Client) : Client :=
  {| config := config c; isListening := isListening c;
     isActivelySpeaking := isActivelySpeaking c; silenceCountdown := v;
     browserSupported := browserSupported c; audioContext := audioContext c;
     maxSilenceTimeout := maxSilenceTimeout c;
     countdownInterval := countdownInterval c; sourceNode := sourceNode c;
     processorNode := processorNode c; transcribeClient := transcribeClient c;
     transcript := transcript c; stream := stream c; startTime := startTime c;
     silenceTimeout := silenceTimeout c; activeStreaming := activeStreaming c;
     customStream := customStream c; transcribeStream := transcribeStream c;
     AudioContextClass := AudioContextClass c |}.

Definition set_audioContext (v : option Handle) (c : Client) : Client :=
  {| config := config c; isListening := isListening c;
     isActivelySpeaking := isActivelySpeaking c;
     silenceCountdown := silenceCountdown c; browserSupported := browserSupported c;
     audioContext := v; maxSilenceTimeout := maxSilenceTimeout c;
     countdownInterval := countdownInterval c; sourceNode := sourceNode c;
     processorNode := processorNode c; transcribeClient := transcribeClient c;
     transcript := transcript c; stream := stream c; startTime := startTime c;
     silenceTimeout := silenceTimeout c; activeStreaming := activeStreaming c;
     customStream := customStream c; transcribeStream := transcribeStream c;
     AudioContextClass := AudioContextClass c |}.

Definition set_maxSilenceTimeout (v : option TimerId) (c : Client) : Client :=
  {| config := config c; isListening := isListening c;
     isActivelySpeaking := isActivelySpeaking c;
     silenceCountdown := silenceCountdown c; browserSupported := browserSupported c;
     audioContext := audioContext c; maxSilenceTimeout := v;
     countdownInterval := countdownInterval c; sourceNode := sourceNode c;
     processorNode := processorNode c; transcribeClient := transcribeClient c;
     transcript := transcript c; stream := stream c; startTime := startTime c;
     silenceTimeout := silenceTimeout c; activeStreaming := activeStreaming c;
     customStream := customStream c; transcribeStream := transcribeStream c;
     AudioContextClass := AudioContextClass c |}.

Definition set_countdownInterval (v : option TimerId) (c : Client) : Client :=
  {| config := config c; isListening := isListening c;
     isActivelySpeaking := isActivelySpeaking c;
     silenceCountdown := silenceCountdown c; browserSupported := browserSupported c;
     audioContext := audioContext c; maxSilenceTimeout := maxSilenceTimeout c;
     countdownInterval := v; sourceNode := sourceNode c;
     processorNode := processorNode c; transcribeClient := transcribeClient c;
     transcript := transcript c; stream := stream c; startTime := startTime c;
     silenceTimeout := silenceTimeout c; activeStreaming := activeStreaming c;
     customStream := customStream c; transcribeStream := transcribeStream c;
     AudioContextClass := AudioContextClass c |}.

Definition set_sourceNode (v : option Handle) (c : Client) : Client :=
  {| config := config c; isListening := isListening c;
     isActivelySpeaking := isActivelySpeaking c;
     silenceCountdown := silenceCountdown c; browserSupported := browserSupported c;
     audioContext := audioContext c; maxSilenceTimeout := maxSilenceTimeout c;
     countdownInterval := countdownInterval c; sourceNode := v;
     processorNode := processorNode c; transcribeClient := transcribeClient c;
     transcript := transcript c; stream := stream c; startTime := startTime c;
     silenceTimeout := silenceTimeout c; activeStreaming := activeStreaming c;
     customStream := customStream c; transcribeStream := transcribeStream c;
     AudioContextClass := AudioContextClass c |}.

Definition set_processorNode (v : option Handle) (c : Client) : Client :=
  {| config := config c; isListening := isListening c;
     isActivelySpeaking := isActivelySpeaking c;
     silenceCountdown := silenceCountdown c; browserSupported := browserSupported c;
     audioContext := audioContext c; maxSilenceTimeout := maxSilenceTimeout c;
     countdownInterval := countdownInterval c; sourceNode := sourceNode c;
     processorNode := v; transcribeClient := transcribeClient c;
     transcript := transcript c; stream := stream c; startTime := startTime c;
     silenceTimeout := silenceTimeout c; activeStreaming := activeStreaming c;
     customStream := customStream c; transcribeStream := transcribeStream c;
     AudioContextClass := AudioContextClass c |}.

Definition set_transcribeClient (v : option Handle) (c : Client) : Client :=
  {| config := config c; isListening := isListening c;
     isActivelySpeaking := isActivelySpeaking c;
     silenceCountdown := silenceCountdown c; browserSupported := browserSupported c;
     audioContext := audioContext c; maxSilenceTimeout := maxSilenceTimeout c;
     countdownInterval := countdownInterval c; sourceNode := sourceNode c;
     processorNode := processorNode c; transcribeClient := v;
     transcript := transcript c; stream := stream c; startTime := startTime c;
     silenceTimeout := silenceTimeout c; activeStreaming := activeStreaming c;
     customStream := customStream c; transcribeStream := transcribeStream c;
     AudioContextClass := AudioContextClass c |}.

Definition set_transcript (v : string) (c : Client) : Client :=
  {| config := config c; isListening := isListening c;
     isActivelySpeaking := isActivelySpeaking c;
     silenceCountdown := silenceCountdown c; browserSupported := browserSupported c;
     audioContext := audioContext c; maxSilenceTimeout := maxSilenceTimeout c;
     countdownInterval := countdownInterval c; sourceNode := sourceNode c;
     processorNode := processorNode c; transcribeClient := transcribeClient c;
     transcript := v; stream := stream c; startTime := startTime c;
     silenceTimeout := silenceTimeout c; activeStreaming := activeStreaming c;
     customStream := customStream c; transcribeStream := transcribeStream c;
     AudioContextClass := AudioContextClass c |}.

Definition set_stream (v : option Handle) (c : Client) : Client :=
  {| config := config c; isListening := isListening c;
     isActivelySpeaking := isActivelySpeaking c;
     silenceCountdown := silenceCountdown c; browserSupported := browserSupported c;
     audioContext := audioContext c; maxSilenceTimeout := maxSilenceTimeout c;
     countdownInterval := countdownInterval c; sourceNode := sourceNode c;
     processorNode := processorNode c; transcribeClient := transcribeClient c;
     transcript := transcript c; stream := v; startTime := startTime c;
     silenceTimeout := silenceTimeout c; activeStreaming := activeStreaming c;
     customStream := customStream c; transcribeStream := transcribeStream c;
     AudioContextClass := AudioContextClass c |}.

Definition set_startTime (v : option Z) (c : Client) : Client :=
  {| config := config c; isListening := isListening c;
     isActivelySpeaking := isActivelySpeaking c;
     silenceCountdown := silenceCountdown c; browserSupported := browserSupported c;
     audioContext := audioContext c; maxSilenceTimeout := maxSilenceTimeout c;
     countdownInterval := countdownInterval c; sourceNode := sourceNode c;
     processorNode := processorNode c; transcribeClient := transcribeClient c;
     transcript := transcript c; stream := stream c; startTime := v;
     silenceTimeout := silenceTimeout c; activeStreaming := activeStreaming c;
     customStream := customStream c; transcribeStream := transcribeStream c;
     AudioContextClass := AudioContextClass c |}.

Definition set_silenceTimeout (v : option TimerId) (c : Client) : Client :=
  {| config := config c; isListening := isListening c;
     isActivelySpeaking := isActivelySpeaking c;
     silenceCountdown := silenceCountdown c; browserSupported := browserSupported c;
     audioContext := audioContext c; maxSilenceTimeout := maxSilenceTimeout c;
     countdownInterval := countdownInterval c; sourceNode := sourceNode c;
     processorNode := processorNode c; transcribeClient := transcribeClient c;
     transcript := transcript c; stream := stream c; startTime := startTime c;
     silenceTimeout := v; activeStreaming := activeStreaming c;
     customStream := customStream c; transcribeStream := transcribeStream c;
     AudioContextClass := AudioContextClass c |}.

Definition set_activeStreaming (v : bool) (c : Client) : Client :=
  {| config := config c; isListening := isListening c;
     isActivelySpeaking := isActivelySpeaking c;
     silenceCountdown := silenceCountdown c; browserSupported := browserSupported c;
     audioContext := audioContext c; maxSilenceTimeout := maxSilenceTimeout c;
     countdownInterval := countdownInterval c; sourceNode := sourceNode c;
     processorNode := processorNode c; transcribeClient := transcribeClient c;
     transcript := transcript c; stream := stream c; startTime := startTime c;
     silenceTimeout := silenceTimeout c; activeStreaming := v;
     customStream := customStream c; transcribeStream := transcribeStream c;
     AudioContextClass := AudioContextClass c |}.

Definition set_customStream (v : option Handle) (c : Client) : Client :=
  {| config := config c; isListening := isListening c;
     isActivelySpeaking := isActivelySpeaking c;
     silenceCountdown := silenceCountdown c; browserSupported := browserSupported c;
     audioContext := audioContext c; maxSilenceTimeout := maxSilenceTimeout c;
     countdownInterval := countdownInterval c; sourceNode := sourceNode c;
     processorNode := processorNode c; transcribeClient := transcribeClient c;
     transcript := transcript c; stream := stream c; startTime := startTime c;
     silenceTimeout := silenceTimeout c; activeStreaming := activeStreaming c;
     customStream := v; transcribeStream := transcribeStream c;
     AudioContextClass := AudioContextClass c |}.

Definition set_transcribeStream (v : option Handle) (c : Client) : Client :=
  {| config := config c; isListening := isListening c;
     isActivelySpeaking := isActivelySpeaking c;
     silenceCountdown := silenceCountdown c; browserSupported := browserSupported c;
     audioContext := audioContext c; maxSilenceTimeout := maxSilenceTimeout c;
     countdownInterval := countdownInterval c; sourceNode := sourceNode c;
     processorNode := processorNode c; transcribeClient := transcribeClient c;
     transcript := transcript c; stream := stream c; startTime := startTime c;
     silenceTimeout := silenceTimeout c; activeStreaming := activeStreaming c;
     customStream := customStream c; transcribeStream := v;
     AudioContextClass := AudioContextClass c |}.

(** The controller together with the world it acts on. *)
Definition Sys : Type := (Client * World)%type.

Definition on_client (f : Client -> Client) (s : Sys) : Sys := (f (fst s), snd s).
Definition on_world (g : World -> World) (s : Sys) : Sys := (fst s, g (snd s)).

(** What the platform offers, as _checkBrowserCompatibility probes it. *)
Record Platform : Type := {
  has_window : bool;                 (* typeof window !== 'undefined' *)
  has_getUserMedia : bool;           (* navigator.mediaDevices && ...getUserMedia *)
  has_AudioContext : bool            (* window.AudioContext || webkitAudioContext *)
}.

(** _checkBrowserCompatibility: (browserSupported, AudioContextClass) *)
Definition _checkBrowserCompatibility (p : Platform) : bool * option Handle :=
  if negb (has_window p) then (false, None)
  else if negb (has_getUserMedia p) then (false, None)
  else if negb (has_AudioContext p) then (false, None)
  else (true, Some handle).

(** constructor(options) *)
Definition new_AWSTranscribeClient (p : Platform) (options : TranscribeOptions) : Client :=
  let compatibility := _checkBrowserCompatibility p in
  {| config := make_config options;
     isListening := false;
     isActivelySpeaking := false;
     silenceCountdown := None;
     browserSupported := fst compatibility;
     audioContext := None;
     maxSilenceTimeout := None;
     countdownInterval := None;
     sourceNode := None;
     processorNode := None;
     transcribeClient := None;
     transcript := "";
     stream := None;
     startTime := None;
     silenceTimeout := None;
     activeStreaming := false;
     customStream := None;
     transcribeStream := None;
     AudioContextClass := snd compatibility |}.

(** getState() *)
Record TranscribeState : Type := {
  st_isListening : bool;
  st_isActivelySpeaking : bool;
  st_silenceCountdown : option Z;
  st_browserSupported : bool
}.

Definition getState (c : Client) : TranscribeState :=
  {| st_isListening := isListening c;
     st_isActivelySpeaking := isActivelySpeaking c;
     st_silenceCountdown := silenceCountdown c;
     st_browserSupported := browserSupported c |}.

Definition state_update (listening speaking : bool) (countdown : option Z) : Effect :=
  CallOnStateChange {| upd_isListening := listening;
                       upd_isActivelySpeaking := speaking;
                       upd_silenceCountdown := countdown |}.

(** [if (this.x) { try { x.release() } catch (error) { log } this.x = null }]:
    the call is made when the handle is set; the [catch] only logs, so a
    failing release changes nothing below. *)
Definition release (x : option Handle) (call : Effect) (w : World) : World :=
  match x with
  | Some _ => emit call w
  | None => w
  end.

(** [if (this.t) { clearTimeout(this.t); this.t = null }], on the world *)
Definition clear_handle (t : option TimerId) (w : World) : World :=
  match t with
  | Some id => clearTimeout id w
  | None => w
  end.

(** The first block of stop(): the minutes of this session are added to the
    stored usage when a start time is recorded. *)
Definition record_usage (startTime : option Z) (w : World) : World :=
  match startTime with
  | Some t =>
      if truthy_int t then
        let minutesUsedThisSession :=
          ((number_of_Z (Date_now w) - number_of_Z t) / (1000 * 60))%float in
        storeMinutesUsed (getMinutesUsed w + minutesUsedThisSession)%float w
      else w
  | None => w
  end.

(** [this.customStream.close()], on the stream object the SDK reads *)
Definition close_customStream (x : option Handle) (w : World) : World :=
  match x with
  | Some _ =>
      emit CustomStreamClose
        (set_audioStream (option_map (@ReadableStream.close AudioEvent) (audioStream w)) w)
  | None => w
  end.

(** stop() *)
Definition stop (s : Sys) : Sys :=
  let c := fst s in
  let w := snd s in
  let w := record_usage (startTime c) w in
  let w := close_customStream (customStream c) w in
  let w := release (processorNode c) ProcessorDisconnect w in
  let w := release (sourceNode c) SourceDisconnect w in
  let w := release (audioContext c) AudioContextClose w in
  let w := release (stream c) TracksStop w in
  let w := release (transcribeClient c) TranscribeClientDestroy w in
  let w := clear_handle (silenceTimeout c) w in
  let w := clear_handle (maxSilenceTimeout c) w in
  let w := clear_handle (countdownInterval c) w in
  ({| config := config c;
      isListening := false;
      isActivelySpeaking := false;
      silenceCountdown := None;
      browserSupported := browserSupported c;
      audioContext := None;
      maxSilenceTimeout := None;
      countdownInterval := None;
      sourceNode := None;
      processorNode := None;
      transcribeClient := None;
      transcript := transcript c;
      stream := None;
      startTime := startTime c;
      silenceTimeout := None;
      activeStreaming := false;
      customStream := None;
      transcribeStream := transcribeStream c;
      AudioContextClass := AudioContextClass c |},
   emit (state_update false false None) w).

(** _handleSilence() *)
Definition _handleSilence (s : Sys) : Sys :=
  let c := fst s in
  let w := snd s in
  if negb (activeStreaming c) then s
  else
    let c := set_isActivelySpeaking false (set_activeStreaming false c) in
    let w := emit CallOnSpeechEnd w in
    let w := emit (state_update (isListening c) false None) w in
    match maxSilenceTimeout c with
    | Some _ => (c, w)
    | None =>
        let startTime := Date_now w in
        let (timeout, w) := setTimeout MaxSilenceReached (maxSilenceDuration (config c)) w in
        let c := set_maxSilenceTimeout (Some timeout) c in
        let (interval, w) := setInterval (CountdownTick startTime) 1000 w in
        (set_countdownInterval (Some interval) c, w)
    end.

(** The closure given to [window.setInterval] in _handleSilence. *)
Definition countdown_tick (startTime : Z) (s : Sys) : Sys :=
  let c := fst s in
  let w := snd s in
  let elapsed := (Date_now w - startTime)%Z in
  let remaining := ceil_div_1000 (maxSilenceDuration (config c) - elapsed) in
  let c := set_silenceCountdown (Some remaining) c in
  let w := emit (state_update (isListening c) false (Some remaining)) w in
  if (maxSilenceDuration (config c) <=? elapsed)%Z then
    match countdownInterval c with
    | Some id =>
        (set_silenceCountdown None (set_countdownInterval None c), clearInterval id w)
    | None => (set_silenceCountdown None c, w)
    end
  else (c, w).

(** _resetSilenceTimeout() *)
Definition _resetSilenceTimeout (s : Sys) : Sys :=
  let c := fst s in
  let w := snd s in
  let w := match silenceTimeout c with Some id => clearTimeout id w | None => w end in
  let (timeout, w) := setTimeout HandleSilence (silenceDuration (config c)) w in
  let c := set_silenceTimeout (Some timeout) c in
  let (c, w) :=
    match maxSilenceTimeout c with
    | Some id => (set_maxSilenceTimeout None c, clearTimeout id w)
    | None => (c, w)
    end in
  match countdownInterval c with
  | Some id =>
      (set_silenceCountdown None (set_countdownInterval None c), clearInterval id w)
  | None => (c, w)
  end.

(** [Math.max(-1, Math.min(1, x))] *)
Definition clamp_sample (x : float) : float :=
  if PrimFloat.is_nan x then x
  else if (1 <? x)%float then 1%float
  else if (x <? -1)%float then (-1)%float
  else x.

(** _processAudioData(inputData) *)
Definition _processAudioData (inputData : list float) (s : Sys) : Sys :=
  match customStream (fst s) with
  | None => s
  | Some _ =>
      let pcmData :=
        map (fun x => Math_floor (clamp_sample x * 32767)%float) inputData in
      let audioEvent := {| AudioChunk := pcmData |} in
      on_world (fun w =>
        set_audioStream (option_map (ReadableStream.enqueue audioEvent) (audioStream w)) w) s
  end.

(** The [onaudioprocess] callback installed by start(). *)
Definition onaudioprocess (inputData : list float) (s : Sys) : Sys :=
  let c := fst s in
  let hasVoice := _detectVoiceActivity (vadThreshold (config c)) inputData in
  let s :=
    if hasVoice && negb (activeStreaming c) then
      let s := on_client (fun c => set_isActivelySpeaking true (set_activeStreaming true c)) s in
      let s := _resetSilenceTimeout s in
      let s := on_world (emit CallOnSpeechStart) s in
      on_world (emit (state_update (isListening (fst s)) true None)) s
    else if hasVoice then _resetSilenceTimeout s
    else s in
  match customStream (fst s) with
  | Some _ => _processAudioData inputData s
  | None => s
  end.

(** The events of [TranscriptResultStream]. *)
Record Alternative : Type := { Transcript : option string }.

Record Result : Type := {
  IsPartial : option bool;
  Alternatives : option (list Alternative)
}.

Record TranscriptObject : Type := { Results : option (list Result) }.

Record TranscriptEventObject : Type := { Transcript_ : option TranscriptObject }.

Record TranscriptionResult : Type := { TranscriptEvent : option TranscriptEventObject }.

(** [event.TranscriptEvent?.Transcript], then [results && results.length > 0]
    and [results[0]] *)
Definition first_result (event : TranscriptionResult) : option Result :=
  match TranscriptEvent event with
  | Some te =>
      match Transcript_ te with
      | Some t =>
          match Results t with
          | Some (result :: _) => Some result
          | _ => None
          end
      | None => None
      end
  | None => None
  end.

(** [result.Alternatives?.[0]?.Transcript || ''] *)
Definition result_text (result : Result) : string :=
  match Alternatives result with
  | Some (alt :: _) =>
      match Transcript alt with
      | Some t => if truthy_string t then t else ""
      | None => ""
      end
  | _ => ""
  end.

(** [if (result.IsPartial)] *)
Definition is_partial (result : Result) : bool :=
  match IsPartial result with
  | Some b => b
  | None => false
  end.

(** _handleTranscription *)
Definition _handleTranscription (transcript interimTranscript : string) (w : World) : World :=
  emit (CallOnTranscript transcript interimTranscript) w.

(** The body of the [for await] loop of _processTranscriptionResults. *)
Definition process_event (event : TranscriptionResult) (s : Sys) : Sys :=
  match first_result event with
  | None => s
  | Some result =>
      if is_partial result then
        on_world (_handleTranscription (transcript (fst s)) (result_text result)) s
      else
        let s := on_client (fun c =>
                   set_transcript (transcript c ++ (result_text result ++ " ")) c) s in
        on_world (_handleTranscription (transcript (fst s)) "") s
  end.

(** The [resetTranscript] closure passed to the observer. *)
Definition resetTranscript (s : Sys) : Sys := on_client (set_transcript "") s.

(** [error instanceof Error && error.name === 'AbortError'] *)
Definition is_AbortError (error : Thrown) : bool :=
  match error with
  | ErrorObject name _ => name =? "AbortError"
  | OtherValue _ => false
  end.

(** The [catch] of _processTranscriptionResults. *)
Definition process_error (error : Thrown) (s : Sys) : Sys :=
  if is_AbortError error then s
  else
    let errorMessage := errorMessage error in
    on_world (emit (CallOnError
      ("Transcription error: "
       ++ (if truthy_string errorMessage then errorMessage else "Unknown error")))) s.

(** _processTranscriptionResults(stream): the events the stream delivers,
    and the error that ends it, if one does. *)
Definition _processTranscriptionResults
  (events : list TranscriptionResult) (failure : option Thrown) (s : Sys) : Sys :=
  let s := fold_left (fun s event => process_event event s) events s in
  match failure with
  | Some error => process_error error s
  | None => s
  end.

(** ** Code that can throw: a state-and-exception monad *)

Definition M (A : Type) : Type := Sys -> (Thrown + A) * Sys.

Definition ret {A : Type} (a : A) : M A := fun s => (inr a, s).

Definition bind {A B : Type} (m : M A) (k : A -> M B) : M B :=
  fun s =>
    match m s with
    | (inl e, s') => (inl e, s')
    | (inr a, s') => k a s'
    end.

Definition throw {A : Type} (e : Thrown) : M A := fun s => (inl e, s).

Definition try_catch {A : Type} (m : M A) (handler : Thrown -> M A) : M A :=
  fun s =>
    match m s with
    | (inl e, s') => handler e s'
    | (inr a, s') => (inr a, s')
    end.

Definition perform (f : Sys -> Sys) : M unit := fun s => (inr tt, f s).

(** A call into the platform or the SDK that either returns or throws. *)
Definition external (outcome : option Thrown) : M unit :=
  match outcome with
  | Some e => throw e
  | None => ret tt
  end.

Notation "m1 ;; m2" := (bind m1 (fun _ => m2))
  (at level 61, right associativity).
Notation "x <- m1 ;; m2" := (bind m1 (fun x => m2))
  (at level 61, m1 at next level, right associativity).

(** How the calls that start() awaits or makes turn out, in source order. *)
Record StartEnv : Type := {
  getUserMedia : option Thrown;
  new_AudioContext : option Thrown;
  createMediaStreamSource : option Thrown;
  createScriptProcessor : option Thrown;
  sourceNode_connect : option Thrown;
  processorNode_connect : option Thrown;
  new_TranscribeStreamingClient : option Thrown;
  call_generateSessionId : option Thrown;
  transcribeClient_send : option Thrown
}.

(** _createTranscribeClient() *)
Definition _createTranscribeClient (env : StartEnv) : M Handle :=
  fun s =>
    match AWSCredentials_getCredentials (credentialsProvider (config (fst s))) (snd s) with
    | (inl e, w) => (inl e, (fst s, w))
    | (inr _, w) =>
        match new_TranscribeStreamingClient env with
        | Some e => (inl e, (fst s, w))
        | None => (inr handle, (fst s, w))
        end
    end.

(** The [try] block of a start() that nothing interrupts: every promise it
    awaits (getUserMedia, the credential lookup, send) settles before any
    other code of the page runs.  The same block cut at its awaits, with
    other events in between, is [resume_try] below. *)
Definition start_try (env : StartEnv) : M bool :=
  external (getUserMedia env) ;;
  perform (on_client (set_stream (Some handle))) ;;
  external (new_AudioContext env) ;;
  perform (on_client (set_audioContext (Some handle))) ;;
  external (createMediaStreamSource env) ;;
  perform (on_client (set_sourceNode (Some handle))) ;;
  external (createScriptProcessor env) ;;
  perform (on_client (set_processorNode (Some handle))) ;;
  external (sourceNode_connect env) ;;
  external (processorNode_connect env) ;;
  client <- _createTranscribeClient env ;;
  perform (on_client (set_transcribeClient (Some client))) ;;
  perform (on_world (set_audioStream (Some ReadableStream.new))) ;;
  perform (on_client (set_customStream (Some handle))) ;;
  external (call_generateSessionId env) ;;
  external (transcribeClient_send env) ;;
  perform (on_client (set_transcribeStream (Some handle))) ;;
  perform (fun s => on_client (set_startTime (Some (Date_now (snd s)))) s) ;;
  perform (on_client (set_isListening true)) ;;
  perform (on_world (emit (state_update true false None))) ;;
  ret true.

(** The [catch] block of start(). *)
Definition start_catch (error : Thrown) : M bool :=
  let errorMessage := errorMessage error in
  perform (on_world (emit (CallOnError
    (if truthy_string errorMessage then errorMessage
     else "Failed to start transcription")))) ;;
  perform (on_client (set_isListening false)) ;;
  perform (on_client (set_startTime None)) ;;
  perform stop ;;
  throw error.

(** start() *)
Definition start (env : StartEnv) : M bool :=
  fun s =>
    if isListening (fst s) then ret true s
    else if negb (browserSupported (fst s)) then
      ret false (on_world (emit (CallOnError
        "Your browser doesn't support microphone access or Web Audio API.")) s)
    else match AudioContextClass (fst s) with
         | None =>
             ret false (on_world (emit (CallOnError
               "Your browser doesn't support AudioContext.")) s)
         | Some _ => try_catch (start_try env) start_catch s
         end.

(** toggle() *)
Definition toggle (env : StartEnv) : M bool :=
  fun s =>
    if isListening (fst s) then ret true (stop s)
    else start env s.

(** ** The event loop *)

Definition run_task (t : TimerTask) (s : Sys) : Sys :=
  match t with
  | HandleSilence => _handleSilence s
  | MaxSilenceReached => stop s
  | CountdownTick startTime => countdown_tick startTime s
  end.

Definition pending (id : TimerId) (w : World) : bool :=
  existsb (fun t => Pos.eqb (timer_id t) id) (timers w).

(** An interval stays in the table with its next deadline. *)
Definition reschedule (id : TimerId) (period : Z) (w : World) : World :=
  set_timers
    (map (fun t => if Pos.eqb (timer_id t) id
                   then {| timer_id := timer_id t; due := (due t + period)%Z;
                           task := task t; every := every t |}
                   else t) (timers w)) w.

(** One timer comes due: it runs unless it was cleared in the meantime. *)
Definition fire (t : Timer) (s : Sys) : Sys :=
  if pending (timer_id t) (snd s) then
    let s := on_world (match every t with
                       | None => clearTimeout (timer_id t)
                       | Some period => reschedule (timer_id t) period
                       end) s in
    run_task (task t) s
  else s.

(** One millisecond passes; the timers due by then run, oldest first. *)
Definition tick (s : Sys) : Sys :=
  let s := on_world (fun w => set_Date_now (Date_now w + 1)%Z w) s in
  fold_left (fun s t => fire t s)
    (filter (fun t => (due t <=? Date_now (snd s))%Z) (timers (snd s))) s.

(** What can happen to a controller, one event at a time. *)
Inductive Input : Type :=
| Tick
| AudioProcess (inputData : list float)
| ResultEvent (event : TranscriptionResult)
| ResultFailure (error : Thrown)
| ResetTranscript
| CallStart (env : StartEnv)      (* start(), called and settled with nothing in between *)
| CallStop
| CallToggle (env : StartEnv).    (* toggle() likewise *)

Definition step (s : Sys) (i : Input) : Sys :=
  match i with
  | Tick => tick s
  | AudioProcess inputData => onaudioprocess inputData s
  | ResultEvent event => process_event event s
  | ResultFailure error => process_error error s
  | ResetTranscript => resetTranscript s
  | CallStart env => snd (start env s)
  | CallStop => stop s
  | CallToggle env => snd (toggle env s)
  end.

Definition run (inputs : list Input) (s : Sys) : Sys := fold_left step inputs s.

(** A world in which nothing has happened yet. *)
Definition new_World (now : Z) (store : option Storage) : World :=
  {| Date_now := now; localStorage := store; timers := []; next_timer := 1%positive;
     audioStream := None; provider_calls := []; effects := [] |}.

(** A controller just constructed. *)
Definition initial (p : Platform) (options : TranscribeOptions)
  (now : Z) (store : option Storage) : Sys :=
  (new_AWSTranscribeClient p options, new_World now store).

Definition reachable (s : Sys) : Prop :=
  exists p options now store inputs, s = run inputs (initial p options now store).

(** ** start() between its awaits *)

(** [start] above is a start() that nothing interrupts: every promise it
    awaits settles before anything else runs.  In general other code runs
    while start() waits.  Below, start() is cut at each [await] it passes
    through, those of _createTranscribeClient and getCredentials
    included. *)

(** Where a start() that has not settled is waiting, and for what. *)
Inductive Awaiting : Type :=
| AwaitGetUserMedia
    (* start: [await navigator.mediaDevices.getUserMedia(...)] *)
| AwaitProvider (outcome : ProviderOutcome)
    (* getCredentials: [await this.credentialsProvider(getMinutesUsed())],
       the provider was called and will settle with [outcome] *)
| AwaitGetCredentials (settled : Thrown + TranscribeCredentials)
    (* _createTranscribeClient: [await this.awsCredentials.getCredentials()],
       which has settled *)
| AwaitCreateTranscribeClient (settled : Thrown + Handle)
    (* start: [await this._createTranscribeClient()], which has settled *)
| AwaitSend.
    (* start: [await this.transcribeClient.send(command)] *)

(** What a run of start(), from its call or from an await, comes to. *)
Inductive Progress : Type :=
| Returned (value : bool)
| Threw (error : Thrown)
| Suspended (at_await : Awaiting).

(** What the engine throws at [this.processorNode.onaudioprocess = ...]
    when [processorNode] is [null] (the message is the engine's own; this
    is V8's). *)
Definition TypeError_processorNode_null : Thrown :=
  ErrorObject "TypeError" "Cannot set properties of null (setting 'onaudioprocess')".

(** getCredentials() from its call to its [await]: [inl outcome] when it
    gets there, the provider called and to settle with [outcome]; [inr r]
    when it ends before, with [r]. *)
Definition getCredentials_call
  (provider : option TranscribeCredentialsProvider) (w : World)
  : (ProviderOutcome + (Thrown + TranscribeCredentials)) * World :=
  let ask (credentialsProvider : TranscribeCredentialsProvider) (w : World) :=
    let minutesUsed := getMinutesUsed w in
    (inl (credentialsProvider minutesUsed),
     set_provider_calls (provider_calls w ++ [minutesUsed]) w) in
  match provider with
  | None => (inr (inl (new_Error "No credentials provider available")), w)
  | Some credentialsProvider =>
      match AWSCredentials_loadStoredCredentials w with
      | (inl e, w1) => (inr (inl e), w1)
      | (inr existingCreds, w1) =>
          match existingCreds with
          | Some c =>
              if still_valid c w1 then (inr (inr c), w1)
              else ask credentialsProvider w1
          | None => ask credentialsProvider w1
          end
      end
  end.

(** getCredentials() from its [await] on. *)
Definition getCredentials_resume (outcome : ProviderOutcome) (w : World)
  : (Thrown + TranscribeCredentials) * World :=
  match outcome with
  | Rejects e => (inl e, w)
  | YieldsNothing => (inl (new_Error "No credentials available"), w)
  | Resolves credentials =>
      (inr credentials, AWSCredentials_storeCredentials (Some credentials) w)
  end.

(** start() from its call to its first [await]. *)
Definition start_call (s : Sys) : Progress * Sys :=
  if isListening (fst s) then (Returned true, s)
  else if negb (browserSupported (fst s)) then
    (Returned false,
     on_world (emit (CallOnError
       "Your browser doesn't support microphone access or Web Audio API.")) s)
  else match AudioContextClass (fst s) with
       | None =>
           (Returned false,
            on_world (emit (CallOnError
              "Your browser doesn't support AudioContext.")) s)
       | Some _ => (Suspended AwaitGetUserMedia, s)
       end.

(** The [try] block of start() from one [await] to the next, or to its
    [return]. *)
Definition resume_try (env : StartEnv) (a : Awaiting) : M Progress :=
  match a with
  | AwaitGetUserMedia =>
      external (getUserMedia env) ;;
      perform (on_client (set_stream (Some handle))) ;;
      external (new_AudioContext env) ;;
      perform (on_client (set_audioContext (Some handle))) ;;
      external (createMediaStreamSource env) ;;
      perform (on_client (set_sourceNode (Some handle))) ;;
      external (createScriptProcessor env) ;;
      perform (on_client (set_processorNode (Some handle))) ;;
      external (sourceNode_connect env) ;;
      external (processorNode_connect env) ;;
      (fun s =>
         let (reached, w) :=
           getCredentials_call (credentialsProvider (config (fst s))) (snd s) in
         (inr (Suspended match reached with
                         | inl outcome => AwaitProvider outcome
                         | inr settled => AwaitGetCredentials settled
                         end),
          (fst s, w)))
  | AwaitProvider outcome =>
      fun s =>
        let (settled, w) := getCredentials_resume outcome (snd s) in
        (inr (Suspended (AwaitGetCredentials settled)), (fst s, w))
  | AwaitGetCredentials settled =>
      match settled with
      | inl e => ret (Suspended (AwaitCreateTranscribeClient (inl e)))
      | inr _ =>
          match new_TranscribeStreamingClient env with
          | Some e => ret (Suspended (AwaitCreateTranscribeClient (inl e)))
          | None => ret (Suspended (AwaitCreateTranscribeClient (inr handle)))
          end
      end
  | AwaitCreateTranscribeClient settled =>
      match settled with
      | inl e => throw e
      | inr client =>
          perform (on_client (set_transcribeClient (Some client))) ;;
          perform (on_world (set_audioStream (Some ReadableStream.new))) ;;
          perform (on_client (set_customStream (Some handle))) ;;
          (fun s => match processorNode (fst s) with
                    | Some _ => ret tt s
                    | None => throw TypeError_processorNode_null s
                    end) ;;
          external (call_generateSessionId env) ;;
          ret (Suspended AwaitSend)
      end
  | AwaitSend =>
      external (transcribeClient_send env) ;;
      perform (on_client (set_transcribeStream (Some handle))) ;;
      perform (fun s => on_client (set_startTime (Some (Date_now (snd s)))) s) ;;
      perform (on_client (set_isListening true)) ;;
      perform (on_world (emit (state_update true false None))) ;;
      ret (Returned true)
  end.

(** start() from one [await] to the next: the slice of the [try] block,
    under the [catch] block. *)
Definition start_resume (env : StartEnv) (a : Awaiting) (s : Sys) : Progress * Sys :=
  match resume_try env a s with
  | (inr progress, s') => (progress, s')
  | (inl error, s1) => (Threw error, snd (start_catch error s1))
  end.

(** A start() called and resumed at once at each [await], until it
    settles: at most five resumptions. *)
Fixpoint start_through (n : nat) (env : StartEnv) (p : Progress * Sys) : Progress * Sys :=
  match n with
  | O => p
  | S n' =>
      match fst p with
      | Suspended a => start_through n' env (start_resume env a (snd p))
      | _ => p
      end
  end.

(** *** Events with start() cut at its awaits *)

(** The controller, and the calls of start() that have not settled. *)
Definition Async : Type := (Sys * list Awaiting)%type.

Inductive Event : Type :=
| Plain (i : Input)
    (* an input as above; [CallStart] and [CallToggle] there are calls whose
       start() nothing interrupts *)
| StartCalled                          (* start() is called and runs to its first await *)
| ToggleCalled                         (* toggle() likewise *)
| StartResumed (k : nat) (env : StartEnv).
    (* the promise that pending call number [k] awaits has settled: the
       call goes on to its next await, or settles *)

Definition suspend (p : Progress * Sys) (pending : list Awaiting) : Async :=
  match fst p with
  | Suspended a => (snd p, (pending ++ [a])%list)
  | _ => (snd p, pending)
  end.

Fixpoint remove_nth {A : Type} (k : nat) (l : list A) : list A :=
  match l, k with
  | [], _ => []
  | _ :: rest, O => rest
  | x :: rest, S k' => x :: remove_nth k' rest
  end.

Definition astep (x : Async) (ev : Event) : Async :=
  let s := fst x in
  let pending := snd x in
  match ev with
  | Plain i => (step s i, pending)
  | StartCalled => suspend (start_call s) pending
  | ToggleCalled =>
      if isListening (fst s) then (stop s, pending)
      else suspend (start_call s) pending
  | StartResumed k env =>
      match nth_error pending k with
      | Some a => suspend (start_resume env a s) (remove_nth k pending)
      | None => x
      end
  end.

Definition arun (events : list Event) (x : Async) : Async := fold_left astep events x.

(** ** The specification's transcript accumulator *)

(** A result event as the specification sees it: [{isPartial, text}]. *)
Definition view (event : TranscriptionResult) : option (bool * string) :=
  match first_result event with
  | Some result => Some (is_partial result, result_text result)
  | None => None
  end.

(** Stated from the specification: a partial result is reported against
    [committed] and leaves it alone; a final result is appended to
    [committed] with one trailing space and reported with an empty partial
    text.  Returns the reports, in order, and the last [committed]. *)
Fixpoint spec_accumulate (committed : string) (results : list (bool * string))
  : list (string * string) * string :=
  match results with
  | [] => ([], committed)
  | (true, text) :: rest =>
      let (reports, final) := spec_accumulate committed rest in
      ((committed, text) :: reports, final)
  | (false, text) :: rest =>
      let committed' := committed ++ text ++ " " in
      let (reports, final) := spec_accumulate committed' rest in
      ((committed', "") :: reports, final)
  end.

(** A report as the call that delivers it. *)
Definition report_call (r : string * string) : Effect :=
  CallOnTranscript (fst r) (snd r).

Fixpoint views (events : list TranscriptionResult) : list (bool * string) :=
  match events with
  | [] => []
  | event :: rest =>
      match view event with
      | Some v => v :: views rest
      | None => views rest
      end
  end.

(** A result event carrying one result with one alternative. *)
Definition result_event (isPartial : bool) (text : string) : TranscriptionResult :=
  {| TranscriptEvent := Some {| Transcript_ := Some {| Results := Some
       [{| IsPartial := Some isPartial;
           Alternatives := Some [{| Transcript := Some text |}] |}] |} |} |}.

(** ** The idle controller *)

(** Session flags reset, every handle and every timer handle cleared. *)
Definition idle (c : Client) : Prop :=
  isListening c = false /\ isActivelySpeaking c = false
  /\ silenceCountdown c = None /\ activeStreaming c = false
  /\ customStream c = None /\ processorNode c = None /\ sourceNode c = None
  /\ audioContext c = None /\ stream c = None /\ transcribeClient c = None
  /\ silenceTimeout c = None /\ maxSilenceTimeout c = None
  /\ countdownInterval c = None.

(** A platform with everything start() needs, and calls that all succeed. *)
Definition full_platform : Platform :=
  {| has_window := true; has_getUserMedia := true; has_AudioContext := true |}.

Definition all_succeed : StartEnv :=
  {| getUserMedia := None; new_AudioContext := None; createMediaStreamSource := None;
     createScriptProcessor := None; sourceNode_connect := None;
     processorNode_connect := None; new_TranscribeStreamingClient := None;
     call_generateSessionId := None; transcribeClient_send := None |}.

Definition default_options (provider : TranscribeCredentialsProvider) : TranscribeOptions :=
  {| opt_region := None; opt_languageCode := None; opt_sampleRate := None;
     opt_vadThreshold := None; opt_silenceDuration := None;
     opt_maxSilenceDuration := None; opt_bufferSize := None; opt_debug := None;
     opt_credentialsProvider := Some provider; opt_generateSessionId := None;
     opt_onTranscript := None; opt_onSpeechStart := None; opt_onSpeechEnd := None;
     opt_onError := None; opt_onStateChange := None |}.

Definition empty_store : option Storage :=
  Some {| aws_transcribe_credentials := None; aws_transcribe_minutes_used := None |}.

(** What the [catch] block of start() makes of the state the [try] block
    left: the error reported, the two fields reset, then stop(). *)
Definition rolled_back (error : Thrown) (s1 : Sys) : Sys :=
  stop (set_startTime None (set_isListening false (fst s1)),
        emit (CallOnError (if truthy_string (errorMessage error)
                           then errorMessage error
                           else "Failed to start transcription")) (snd s1)).

(** Every call of start() before the credential fetch succeeds. *)
Definition audio_graph_built (env : StartEnv) : Prop :=
  getUserMedia env = None /\ new_AudioContext env = None
  /\ createMediaStreamSource env = None /\ createScriptProcessor env = None
  /\ sourceNode_connect env = None /\ processorNode_connect env = None.


(** ** The silence timers *)

(** The number of [onSpeechEnd] calls among some effects. *)
Fixpoint speech_ends (es : list Effect) : nat :=
  match es with
  | [] => 0
  | CallOnSpeechEnd :: rest => S (speech_ends rest)
  | _ :: rest => speech_ends rest
  end.

(** What may happen while the speaker is silent and the session goes on:
    time passes, frames without speech arrive, results arrive, the
    transcript is reset.  Calls of stop(), start() and toggle() are not
    among them. *)
Definition quiet (cfg : Config) (i : Input) : bool :=
  match i with
  | Tick => true
  | AudioProcess inputData => negb (_detectVoiceActivity (vadThreshold cfg) inputData)
  | ResultEvent _ => true
  | ResultFailure _ => true
  | ResetTranscript => true
  | CallStart _ => false
  | CallStop => false
  | CallToggle _ => false
  end.

(** An input that is not a frame classified as speech. *)
Definition no_speech_frame (cfg : Config) (i : Input) : bool :=
  match i with
  | AudioProcess inputData => negb (_detectVoiceActivity (vadThreshold cfg) inputData)
  | _ => true
  end.

(** The milliseconds that pass during some inputs. *)
Fixpoint ticks (inputs : list Input) : nat :=
  match inputs with
  | [] => 0
  | Tick :: rest => S (ticks rest)
  | _ :: rest => ticks rest
  end.

Definition below (handle : option TimerId) (n : TimerId) : Prop :=
  match handle with
  | Some id => (id < n)%positive
  | None => True
  end.

(** Each pending timer is the one its handle field names; a countdown is
    pending only beside a long timer. *)
Definition timer_owned (c : Client) (t : Timer) : Prop :=
  match task t with
  | HandleSilence => silenceTimeout c = Some (timer_id t)
  | MaxSilenceReached => maxSilenceTimeout c = Some (timer_id t)
  | CountdownTick _ =>
      countdownInterval c = Some (timer_id t) /\ maxSilenceTimeout c <> None
  end.

Definition timers_wf (s : Sys) : Prop :=
  Forall (timer_owned (fst s)) (timers (snd s))
  /\ below (silenceTimeout (fst s)) (next_timer (snd s))
  /\ below (maxSilenceTimeout (fst s)) (next_timer (snd s))
  /\ below (countdownInterval (fst s)) (next_timer (snd s))
  /\ activeStreaming (fst s) = isActivelySpeaking (fst s).

(** The short timer as _resetSilenceTimeout arms it. *)
Definition short_timer (id : TimerId) (deadline : Z) : Timer :=
  {| timer_id := id; due := deadline; task := HandleSilence; every := None |}.

(** The long timer and the countdown as _handleSilence arms them at time
    [now]. *)
Definition long_timer (id : TimerId) (now : Z) (cfg : Config) : Timer :=
  {| timer_id := id; due := now + timer_delay (maxSilenceDuration cfg);
     task := MaxSilenceReached; every := None |}.

Definition countdown_timer (id : TimerId) (now : Z) : Timer :=
  {| timer_id := id; due := now + 1000; task := CountdownTick now;
     every := Some 1000%Z |}.

(** The timers that clearing the handle [o] keeps. *)
Definition kept (o : option TimerId) (t : Timer) : bool :=
  match o with
  | Some id => negb (Pos.eqb (timer_id t) id)
  | None => true
  end.

Definition is_speech_end (e : Effect) : nat :=
  match e with
  | CallOnSpeechEnd => 1
  | _ => 0
  end.

(** Speech was heard and the short timer, not yet due, is the only pending
    timer. *)
Definition waiting (cfg : Config) (id : TimerId) (deadline : Z) (s : Sys) : Prop :=
  timers (snd s) = [short_timer id deadline]
  /\ (Date_now (snd s) < deadline)%Z
  /\ next_timer (snd s) = Pos.succ id
  /\ activeStreaming (fst s) = true /\ isActivelySpeaking (fst s) = true
  /\ maxSilenceTimeout (fst s) = None /\ config (fst s) = cfg.

(** The short timer is not pending and the speaker counts as silent. *)
Definition resting (cfg : Config) (s : Sys) : Prop :=
  Forall (fun t => task t <> HandleSilence) (timers (snd s))
  /\ isActivelySpeaking (fst s) = false /\ config (fst s) = cfg.

(** The long timer and its countdown, armed at time [since], are the
    pending timers. *)
Definition armed (cfg : Config) (id : TimerId) (since : Z) (s : Sys) : Prop :=
  timers (snd s) = [long_timer id since cfg; countdown_timer (Pos.succ id) since]
  /\ maxSilenceTimeout (fst s) = Some id
  /\ countdownInterval (fst s) = Some (Pos.succ id)
  /\ activeStreaming (fst s) = false /\ isActivelySpeaking (fst s) = false.

(** The defaults, but for a short silence of 3 ms. *)
Definition short_pause_options (provider : TranscribeCredentialsProvider)
  : TranscribeOptions :=
  {| opt_region := None; opt_languageCode := None; opt_sampleRate := None;
     opt_vadThreshold := None; opt_silenceDuration := Some 3%Z;
     opt_maxSilenceDuration := None; opt_bufferSize := None; opt_debug := None;
     opt_credentialsProvider := Some provider; opt_generateSessionId := None;
     opt_onTranscript := None; opt_onSpeechStart := None; opt_onSpeechEnd := None;
     opt_onError := None; opt_onStateChange := None |}.

(** ** Sample collaborators, for running the definitions *)

Definition sample_credentials (expires : float) : TranscribeCredentials :=
  {| accessKeyId := "AKIA"; secretAccessKey := "secret"; sessionToken := "token";
     expiration := expires; reservedMinutes := None |}.

(** [s] between double quotes *)
Definition quoted (s : string) : string :=
  String (Ascii.ascii_of_nat 34) s ++ String (Ascii.ascii_of_nat 34) EmptyString.

(** A serializer that writes the key id only, and a parser that reads back
    what it wrote for the key id AKIA and rejects every other text. *)
Definition sample_JSON_stringify (c : TranscribeCredentials) : string :=
  "{" ++ quoted "accessKeyId" ++ ":" ++ quoted (accessKeyId c) ++ "}".

Definition sample_JSON_parse (text : string) : Thrown + TranscribeCredentials :=
  if text =? sample_JSON_stringify (sample_credentials 2000%float)
  then inr (sample_credentials 2000%float)
  else inl (ErrorObject "SyntaxError" "Unexpected token").

Definition sample_provider : TranscribeCredentialsProvider :=
  fun _ => Resolves (sample_credentials 9000%float).

Definition sample_store (text : string) : option Storage :=
  Some {| aws_transcribe_credentials := Some text;
          aws_transcribe_minutes_used := Some 3%float |}.

(** The usage counter in the store. *)
Definition minutes_used (s : Sys) : option float :=
  match localStorage (snd s) with
  | Some store => aws_transcribe_minutes_used store
  | None => None
  end.

(** ** More on the stream bridge *)

(** The chunks among some resolutions. *)
Fixpoint values_of {chunk : Type}
  (rs : list (ReadableStream.Resolver * ReadableStream.IteratorResult chunk))
  : list chunk :=
  match rs with
  | [] => []
  | (_, ReadableStream.Value c) :: rest => c :: values_of rest
  | (_, ReadableStream.Done) :: rest => values_of rest
  end.

(** The chunks one call hands to consumers: those a [next] returns at once,
    and those an [enqueue] or [close] resolves waiting promises with. *)
Definition handed_over {chunk : Type} (q : ReadableStream.t chunk)
  (o : ReadableStream.call chunk) : list chunk :=
  match o with
  | ReadableStream.Next =>
      match snd (ReadableStream.next q) with
      | ReadableStream.Resolved (ReadableStream.Value c) => [c]
      | _ => []
      end
  | _ =>
      values_of (skipn (List.length (ReadableStream.settled q))
                   (ReadableStream.settled (ReadableStream.step q o)))
  end.

(** All chunks handed to consumers during some calls, in time order. *)
Fixpoint deliveries {chunk : Type} (ops : list (ReadableStream.call chunk))
  (q : ReadableStream.t chunk) : list chunk :=
  match ops with
  | [] => []
  | o :: rest => handed_over q o ++ deliveries rest (ReadableStream.step q o)
  end.

(** The chunks enqueued while the queue was open, in call order. *)
Fixpoint accepted {chunk : Type} (ops : list (ReadableStream.call chunk))
  (q : ReadableStream.t chunk) : list chunk :=
  match ops with
  | [] => []
  | o :: rest =>
      match o with
      | ReadableStream.Enqueue c =>
          if ReadableStream.closed q then [] else [c]
      | _ => []
      end ++ accepted rest (ReadableStream.step q o)
  end.

(** ** More on the session *)

(** The number of [onSpeechStart] calls among some effects. *)
Fixpoint speech_starts (es : list Effect) : nat :=
  match es with
  | [] => 0
  | CallOnSpeechStart :: rest => S (speech_starts rest)
  | _ :: rest => speech_starts rest
  end.

(** The [isListening] of the latest state update among some effects, as an
    observer that mirrors [onStateChange] holds it; [before] when there was
    no update. *)
Fixpoint reported_listening (before : bool) (es : list Effect) : bool :=
  match es with
  | [] => before
  | CallOnStateChange update :: rest => reported_listening (upd_isListening update) rest
  | _ :: rest => reported_listening before rest
  end.

(** The result events among some inputs, in order. *)
Fixpoint result_events (inputs : list Input) : list TranscriptionResult :=
  match inputs with
  | [] => []
  | ResultEvent event :: rest => event :: result_events rest
  | _ :: rest => result_events rest
  end.

(** No input is a call of the [resetTranscript] closure. *)
Fixpoint no_reset (inputs : list Input) : bool :=
  match inputs with
  | [] => true
  | ResetTranscript :: _ => false
  | _ :: rest => no_reset rest
  end.

(** The texts of the final results, each followed by one space. *)
Fixpoint committed_text (results : list (bool * string)) : string :=
  match results with
  | [] => ""
  | (false, text) :: rest => text ++ " " ++ committed_text rest
  | (true, _) :: rest => committed_text rest
  end.

(** The six resources of a session and the stream handle. *)
Definition holds_all (c : Client) : Prop :=
  stream c <> None /\ audioContext c <> None /\ sourceNode c <> None
  /\ processorNode c <> None /\ transcribeClient c <> None /\ customStream c <> None.

Definition holds_none (c : Client) : Prop :=
  stream c = None /\ audioContext c = None /\ sourceNode c = None
  /\ processorNode c = None /\ transcribeClient c = None /\ customStream c = None.

Definition stream_open (w : World) : Prop :=
  exists q, audioStream w = Some q /\ ReadableStream.closed q = false.

Definition stream_absent_or_closed (w : World) : Prop :=
  match audioStream w with
  | Some q => ReadableStream.closed q = true
  | None => True
  end.

(** What holds of the resources between any two events, however start()
    is interleaved with other code: the four handles of the audio graph
    are set together; the transcribe client and the custom stream are set
    together; the stream object is open while the custom stream is set and
    closed, if there is one, while it is not; a listening controller has a
    start time. *)
Definition resources_consistent (s : Sys) : Prop :=
  ((stream (fst s) <> None /\ audioContext (fst s) <> None
    /\ sourceNode (fst s) <> None /\ processorNode (fst s) <> None)
   \/ (stream (fst s) = None /\ audioContext (fst s) = None
       /\ sourceNode (fst s) = None /\ processorNode (fst s) = None))
  /\ match customStream (fst s) with
     | Some _ => transcribeClient (fst s) <> None /\ stream_open (snd s)
     | None => transcribeClient (fst s) = None /\ stream_absent_or_closed (snd s)
     end
  /\ (isListening (fst s) = true -> startTime (fst s) <> None).

(** Every call start() makes after the credential lookup succeeds too. *)
Definition session_opens (env : StartEnv) : Prop :=
  new_TranscribeStreamingClient env = None /\ call_generateSessionId env = None
  /\ transcribeClient_send env = None.

(** The chunk _processAudioData makes of a frame. *)
Definition pcm_chunk (inputData : list float) : AudioEvent :=
  {| AudioChunk := map (fun x => Math_floor (clamp_sample x * 32767)%float) inputData |}.

(** Inputs that are audio frames only. *)
Definition audio_frames (frames : list (list float)) : list Input :=
  map AudioProcess frames.

(** ** generateUUID *)

(** One digit of [Number.prototype.toString(16)]. *)
Definition hex_digit (d : Z) : ascii :=
  match d with
  | 0 => "0" | 1 => "1" | 2 => "2" | 3 => "3" | 4 => "4" | 5 => "5" | 6 => "6"
  | 7 => "7" | 8 => "8" | 9 => "9" | 10 => "a" | 11 => "b" | 12 => "c"
  | 13 => "d" | 14 => "e" | _ => "f"
  end%Z%char.

Fixpoint hex_digits (fuel : nat) (v : Z) (acc : string) : string :=
  match fuel with
  | O => acc
  | S fuel' =>
      let acc' := String (hex_digit (v mod 16)) acc in
      if (v / 16 =? 0)%Z then acc' else hex_digits fuel' (v / 16) acc'
  end.

(** [v.toString(16)] for an integer [v] *)
Definition toString16 (v : Z) : string :=
  if (v <? 0)%Z then "-" ++ hex_digits (Z.to_nat (- v)) (- v) ""
  else hex_digits (S (Z.to_nat v)) v "".

(** [template.replace(/[xy]/g, function (c) {...})]: the replacer runs once
    for each [x] and [y], from left to right; [random k] is what
    [Math.random() * 16 | 0] gives in its run number [k], an integer from 0
    to 15. *)
Fixpoint replace_xy (template : string) (random : nat -> Z) (k : nat) : string :=
  match template with
  | EmptyString => EmptyString
  | String c rest =>
      if (c =? "x")%char || (c =? "y")%char then
        let r := random k in
        let v := if (c =? "x")%char then r else Z.lor (Z.land r 3) 8 in
        toString16 v ++ replace_xy rest random (S k)
      else String c (replace_xy rest random k)
  end.

(** generateUUID(), given the random source *)
Definition generateUUID_from (random : nat -> Z) : string :=
  replace_xy "xxxxxxxx-xxxx-4xxx-yxxx-xxxxxxxxxxxx" random 0.

Definition is_hex (c : ascii) : bool :=
  existsb (Ascii.eqb c) (list_ascii_of_string "0123456789abcdef").

(** The character a version 4 identifier may have at position [i]. *)
Definition uuid_char_ok (i : nat) (c : ascii) : bool :=
  if existsb (Nat.eqb i) [8; 13; 18; 23] then (c =? "-")%char
  else if Nat.eqb i 14 then (c =? "4")%char
  else if Nat.eqb i 19 then existsb (Ascii.eqb c) (list_ascii_of_string "89ab")
  else is_hex c.

Fixpoint uuid_chars_ok (i : nat) (id : string) : bool :=
  match id with
  | EmptyString => true
  | String c rest => uuid_char_ok i c && uuid_chars_ok (S i) rest
  end.

(** ** Properties kept by every step *)

(** The fields that [c0] was constructed with. *)
Definition fixed_as (c0 : Client) (s : Sys) : Prop :=
  config (fst s) = config c0 /\ browserSupported (fst s) = browserSupported c0
  /\ AudioContextClass (fst s) = AudioContextClass c0.

(** No store, and every provider call so far was told of no usage. *)
Definition nothing_persisted (s : Sys) : Prop :=
  localStorage (snd s) = None
  /\ Forall (fun minutesUsed => minutesUsed = 0%float) (provider_calls (snd s)).

(** Nothing of a session was ever set up, and the store is [store]. *)
Definition never_started (store : option Storage) (s : Sys) : Prop :=
  browserSupported (fst s) = false
  /\ isListening (fst s) = false /\ holds_none (fst s)
  /\ startTime (fst s) = None /\ transcribeStream (fst s) = None
  /\ audioStream (snd s) = None /\ provider_calls (snd s) = []
  /\ localStorage (snd s) = store.

(** Every [onSpeechEnd] so far, and the speech now going on, was announced
    by an [onSpeechStart] of its own. *)
Definition speech_announced (s : Sys) : Prop :=
  speech_ends (effects (snd s)) + (if activeStreaming (fst s) then 1 else 0)
  <= speech_starts (effects (snd s)).

(** An observer that mirrors [onStateChange] knows whether the controller
    listens. *)
Definition listening_reported (s : Sys) : Prop :=
  reported_listening false (effects (snd s)) = isListening (fst s).

(** The release calls stop() makes for the handles that are set, in the
    order it makes them. *)
Definition release_calls (c : Client) : list Effect :=
  (match customStream c with Some _ => [CustomStreamClose] | None => [] end)
  ++ (match processorNode c with Some _ => [ProcessorDisconnect] | None => [] end)
  ++ (match sourceNode c with Some _ => [SourceDisconnect] | None => [] end)
  ++ (match audioContext c with Some _ => [AudioContextClose] | None => [] end)
  ++ (match stream c with Some _ => [TracksStop] | None => [] end)
  ++ (match transcribeClient c with Some _ => [TranscribeClientDestroy] | None => [] end).

(** The message the [catch] block of start() hands to [onError]. *)
Definition failure_message (error : Thrown) : string :=
  if truthy_string (errorMessage error) then errorMessage error
  else "Failed to start transcription".

(** What the clean-up after a failure at state [s1] comes to, at [s']:
    [onError] is called with the message; every resource held at [s1] is
    released, in the order of stop(), and the observer is told last that
    the controller neither listens nor hears speech; the stream, if the
    controller held it, is closed; the three timers of the controller are
    out of the table and no other timer is touched; no usage is recorded,
    nor the clock or the provider touched; the controller is idle with no
    start time, its configuration and transcript as they were. *)
Definition cleaned_up (error : Thrown) (s1 s' : Sys) : Prop :=
  effects (snd s')
  = (effects (snd s1) ++ [CallOnError (failure_message error)]
     ++ release_calls (fst s1) ++ [state_update false false None])%list
  /\ audioStream (snd s')
     = match customStream (fst s1) with
       | Some _ => option_map (@ReadableStream.close AudioEvent) (audioStream (snd s1))
       | None => audioStream (snd s1)
       end
  /\ timers (snd s')
     = filter (kept (countdownInterval (fst s1)))
         (filter (kept (maxSilenceTimeout (fst s1)))
            (filter (kept (silenceTimeout (fst s1))) (timers (snd s1))))
  /\ localStorage (snd s') = localStorage (snd s1)
  /\ Date_now (snd s') = Date_now (snd s1)
  /\ provider_calls (snd s') = provider_calls (snd s1)
  /\ idle (fst s') /\ startTime (fst s') = None
  /\ config (fst s') = config (fst s1) /\ transcript (fst s') = transcript (fst s1).

(** ** The countdown to the automatic stop *)

(** The countdown interval as it stands after [k] runs. *)
Definition countdown_running (id : TimerId) (since k : Z) : Timer :=
  {| timer_id := id; due := since + 1000 * (k + 1); task := CountdownTick since;
     every := Some 1000%Z |}.

(** A listening controller whose long timer and countdown were armed at
    time [since], with a [maxSilenceDuration] that fits 31 bits: the
    countdown has run [k] times, the long timer is still to come, and from
    the first run on [silenceCountdown] holds the seconds left, rounded
    up. *)
Definition counting (cfg : Config) (id : TimerId) (since k : Z) (s : Sys) : Prop :=
  timers (snd s) = [long_timer id since cfg; countdown_running (Pos.succ id) since k]
  /\ (0 <= k)%Z
  /\ (since + 1000 * k <= Date_now (snd s) < since + 1000 * (k + 1))%Z
  /\ (Date_now (snd s) < since + maxSilenceDuration cfg)%Z
  /\ (maxSilenceDuration cfg < 2147483648)%Z
  /\ maxSilenceTimeout (fst s) = Some id
  /\ countdownInterval (fst s) = Some (Pos.succ id)
  /\ activeStreaming (fst s) = false /\ isActivelySpeaking (fst s) = false
  /\ isListening (fst s) = true
  /\ config (fst s) = cfg
  /\ ((0 < k)%Z ->
      silenceCountdown (fst s)
      = Some (ceil_div_1000 (maxSilenceDuration cfg - 1000 * k))).

(** The defaults, but for a short silence of 3 ms and an automatic stop
    after 2500 ms more. *)
Definition short_session_options (provider : TranscribeCredentialsProvider)
  : TranscribeOptions :=
  {| opt_region := None; opt_languageCode := None; opt_sampleRate := None;
     opt_vadThreshold := None; opt_silenceDuration := Some 3%Z;
     opt_maxSilenceDuration := Some 2500%Z; opt_bufferSize := None; opt_debug := None;
     opt_credentialsProvider := Some provider; opt_generateSessionId := None;
     opt_onTranscript := None; opt_onSpeechStart := None; opt_onSpeechEnd := None;
     opt_onError := None; opt_onStateChange := None |}.

(** ** The cache policy, in terms of the store and the clock *)

(** The provider was called once, with the usage stored in [w]; what it
    delivered was stored and returned, or the call failed. *)
Definition provider_asked (p : TranscribeCredentialsProvider) (w : World)
  (out : (Thrown + TranscribeCredentials) * World) : Prop :=
  provider_calls (snd out) = (provider_calls w ++ [getMinutesUsed w])%list
  /\ match p (getMinutesUsed w) with
     | Resolves c =>
         fst out = inr c
         /\ localStorage (snd out)
            = option_map (setItem_credentials (JSON_stringify c)) (localStorage w)
     | YieldsNothing =>
         fst out = inl (new_Error "No credentials available")
         /\ localStorage (snd out) = localStorage w
     | Rejects e => fst out = inl e /\ localStorage (snd out) = localStorage w
     end.

(** No credential text is stored: no store, no entry, or an empty text. *)
Definition nothing_stored (w : World) : Prop :=
  match localStorage w with
  | None => True
  | Some store =>
      aws_transcribe_credentials store = None
      \/ aws_transcribe_credentials store = Some ""
  end.

(** The text [stored] is stored, and is not empty. *)
Definition text_stored (w : World) (store : Storage) (stored : string) : Prop :=
  localStorage w = Some store /\ aws_transcribe_credentials store = Some stored
  /\ stored <> "".
End Platform.

(* ================================================================== *)
(** * Properties                                                       *)
(* ================================================================== *)

(** ** The stream bridge *)

Section StreamFacts.

Import ReadableStream.

Local Open Scope list_scope.

Variable chunk : Type.

Implicit Types q : ReadableStream.t chunk.

Lemma wf_new : wf (@new chunk).
Proof. split; [left; reflexivity | discriminate]. Qed.

Lemma wf_enqueue c q : wf q -> wf (enqueue c q).
Proof.
  intros Hwf. pose proof Hwf as [Hex Hcl]. unfold enqueue.
  destruct (closed q) eqn:Ec; [exact Hwf|].
  destruct (listeners q) as [|l ls] eqn:El.
  - split; [right; reflexivity | intros _; reflexivity].
  - destruct Hex as [Hb | Hl]; [|congruence].
    split; [left; exact Hb | simpl; congruence].
Qed.

Lemma wf_close q : wf (close q).
Proof. split; [right; reflexivity | intros _; reflexivity]. Qed.

Lemma wf_next q : wf q -> wf (fst (next q)).
Proof.
  intros Hwf. pose proof Hwf as [Hex Hcl]. unfold next.
  destruct (closed q && (List.length (buffer q) =? 0)%nat) eqn:E;
    [exact Hwf|].
  destruct (buffer q) as [|c rest] eqn:Eb; simpl.
  - split; [left; reflexivity|]. simpl. intros Hc.
    rewrite Hc in E. discriminate.
  - destruct Hex as [Hb | Hl]; [congruence|].
    split; [right; exact Hl | exact Hcl].
Qed.

Lemma wf_step q o : wf q -> wf (step q o).
Proof.
  destruct o; simpl; auto using wf_enqueue, wf_close, wf_next.
Qed.

Lemma wf_run ops : forall q, wf q -> wf (run ops q).
Proof.
  induction ops as [|o ops IH]; intros q Hq; simpl; [exact Hq|].
  apply IH, wf_step, Hq.
Qed.

(** After [close] (no waiter left), an [enqueue] or a second [close]
    changes nothing. *)
Lemma enqueue_closed c q : closed q = true -> enqueue c q = q.
Proof. intros H. unfold enqueue. rewrite H. reflexivity. Qed.

Lemma close_closed q :
  closed q = true -> listeners q = [] -> close q = q.
Proof.
  intros Hc Hl. destruct q as [ls b cl st n]; simpl in *; subst.
  unfold close; simpl. rewrite app_nil_r. reflexivity.
Qed.

Lemma next_closed_empty q :
  closed q = true -> buffer q = [] -> next q = (q, Resolved Done).
Proof. intros Hc Hb. unfold next. rewrite Hc, Hb. reflexivity. Qed.

Lemma next_closed_cons q c rest :
  closed q = true -> buffer q = c :: rest ->
  next q = ({| listeners := listeners q; buffer := rest; closed := true;
               settled := settled q; issued := issued q |},
            Resolved (Value c)).
Proof. intros Hc Hb. unfold next. rewrite Hc, Hb. reflexivity. Qed.

(** Draining a closed queue: the [Next] calls of any later interleaving
    receive the buffered chunks in order, then end-of-stream for ever. *)
Lemma drain_closed ops : forall q,
  closed q = true -> listeners q = [] ->
  answers ops q =
    map (fun c => Resolved (Value c)) (firstn (count_next ops) (buffer q))
    ++ repeat (Resolved Done) (count_next ops - List.length (buffer q))
  /\ run ops q =
     {| listeners := []; buffer := skipn (count_next ops) (buffer q);
        closed := true; settled := settled q; issued := issued q |}.
Proof.
  induction ops as [|o ops IH]; intros q Hc Hl.
  - simpl. split; [reflexivity|].
    destruct q; simpl in *; subst; reflexivity.
  - destruct o as [c | | ].
    + simpl. rewrite (enqueue_closed c q Hc). apply IH; assumption.
    + simpl. rewrite (close_closed q Hc Hl). apply IH; assumption.
    + simpl. destruct (buffer q) as [|c rest] eqn:Eb.
      * rewrite (next_closed_empty q Hc Eb). simpl.
        destruct (IH q Hc Hl) as [IHa IHr]. rewrite Eb in IHa, IHr.
        rewrite firstn_nil in IHa. simpl in IHa.
        rewrite Nat.sub_0_r in IHa. rewrite skipn_nil in IHr.
        split; [rewrite IHa; reflexivity | exact IHr].
      * rewrite (next_closed_cons q Hc Eb). simpl.
        match goal with |- context [answers ops ?q'] =>
          destruct (IH q' eq_refl Hl) as [IHa IHr] end.
        simpl in IHa, IHr. split; [rewrite IHa; reflexivity | exact IHr].
Qed.


(** [C4] From a fresh queue and under every interleaving of enqueue, close
    and next, the buffer and the waiters are never both non-empty.  An
    enqueue hands its chunk to the oldest waiter when there is one, and
    appends it to the buffer when there is none; on a closed queue, which
    has no waiter, it does nothing.  A consumer joins the waiters only when
    the buffer is empty. *)
Theorem stream_buffer_and_waiters_exclusive (ops : list (call chunk)) :
  let q := run ops (@new chunk) in
  (buffer q = [] \/ listeners q = [])
  /\ (forall c l rest, listeners q = l :: rest ->
       enqueue c q =
         {| listeners := rest; buffer := buffer q; closed := closed q;
            settled := settled q ++ [(l, Value c)]; issued := issued q |})
  /\ (forall c, listeners q = [] -> closed q = false ->
       enqueue c q =
         {| listeners := []; buffer := buffer q ++ [c]; closed := closed q;
            settled := settled q; issued := issued q |})
  /\ (forall c, closed q = true -> listeners q = [] /\ enqueue c q = q)
  /\ (forall p, snd (next q) = Pending chunk p ->
       buffer q = [] /\ listeners (fst (next q)) = listeners q ++ [p])
  /\ (listeners (fst (next q)) <> listeners q -> buffer q = []).
Proof.
  intros q.
  assert (Hwf : wf q) by (apply wf_run, wf_new).
  destruct Hwf as [Hex Hcl].
  split; [exact Hex|].
  split.
  { intros c l rest Hl. unfold enqueue.
    destruct (closed q) eqn:Ec.
    - rewrite (Hcl eq_refl) in Hl. discriminate.
    - rewrite Hl. reflexivity. }
  split.
  { intros c Hl Hc. unfold enqueue. rewrite Hc, Hl. reflexivity. }
  split.
  { intros c Hc. split; [exact (Hcl Hc) | apply enqueue_closed, Hc]. }
  split.
  { intros p Hp. unfold next in *.
    destruct (closed q && (List.length (buffer q) =? 0)%nat); [discriminate|].
    destruct (buffer q) as [|c rest]; [|discriminate].
    simpl in *. injection Hp as <-. split; reflexivity. }
  intros Hne. unfold next in Hne.
  destruct (closed q && (List.length (buffer q) =? 0)%nat);
    [exfalso; apply Hne; reflexivity|].
  destruct (buffer q) as [|c rest]; [reflexivity|].
  exfalso; apply Hne; reflexivity.
Qed.

(** [C5] After close(): the waiting consumers have all been resolved with
    end-of-stream, every later enqueue changes nothing, the chunks buffered
    before the close are still delivered in order to the next calls, and
    once the buffer is empty every next call resolves to end-of-stream. *)
Theorem stream_close_drains_then_ends (q0 : ReadableStream.t chunk) (ops : list (call chunk)) :
  let q := close q0 in
  let k := count_next ops in
  (settled q = settled q0 ++ map (fun l => (l, Done)) (listeners q0)
   /\ listeners q = [] /\ buffer q = buffer q0 /\ closed q = true)
  /\ (forall c, enqueue c q = q)
  /\ (forall c, enqueue c (run ops q) = run ops q)
  /\ answers ops q =
       map (fun c => Resolved (Value c)) (firstn k (buffer q0))
       ++ repeat (Resolved Done) (k - List.length (buffer q0))
  /\ buffer (run ops q) = skipn k (buffer q0)
  /\ (buffer (run ops q) = [] ->
       forall more, Forall (fun a => a = Resolved Done) (answers more (run ops q))).
Proof.
  intros q k.
  assert (Hc : closed q = true) by reflexivity.
  assert (Hl : listeners q = []) by reflexivity.
  destruct (drain_closed ops q Hc Hl) as [Ha Hr].
  split; [repeat split|].
  split; [intros c; apply enqueue_closed; exact Hc|].
  split; [intros c; apply enqueue_closed; rewrite Hr; reflexivity|].
  split; [exact Ha|].
  split; [rewrite Hr; reflexivity|].
  intros Hb more.
  assert (Hc' : closed (run ops q) = true) by (rewrite Hr; reflexivity).
  assert (Hl' : listeners (run ops q) = []) by (rewrite Hr; reflexivity).
  destruct (drain_closed more (run ops q) Hc' Hl') as [Ha' _].
  rewrite Ha', Hb, firstn_nil. simpl.
  apply Forall_forall. intros a Hin. apply repeat_spec in Hin. exact Hin.
Qed.

End StreamFacts.

(** ** Voice activity detection *)

Local Open Scope list_scope.

Lemma ltb_nan_r (t : float) : (t <? nan)%float = false.
Proof.
  rewrite FloatAxioms.ltb_spec.
  replace (Prim2SF nan) with S754_nan by reflexivity.
  unfold SFltb, SFcompare. destruct (Prim2SF t); reflexivity.
Qed.

Lemma rms_empty_is_nan : rms [] = nan.
Proof. vm_compute. reflexivity. Qed.

(** [C8, as stated] With the RMS of the empty frame taken to be 0, "speech
    iff rms > threshold" and "the empty frame is silence" disagree at a
    negative threshold; the code returns silence there. *)
Lemma empty_frame_negative_threshold :
  spec_classify [] (-1)%float = true
  /\ _detectVoiceActivity (-1)%float [] = false
  /\ ~ (forall t f, _detectVoiceActivity t f = spec_classify f t).
Proof.
  split; [vm_compute; reflexivity|].
  split; [vm_compute; reflexivity|].
  intros H. specialize (H (-1)%float []). vm_compute in H. discriminate.
Qed.

(** [C8, amended] The classifier answers "speech" exactly for a non-empty
    frame whose root mean square exceeds the threshold.  For the empty frame
    the quotient 0/0 is NaN, which no threshold is below: silence, for every
    threshold. *)
Theorem detectVoiceActivity_rms_above_threshold (t : float) (f : list float) :
  _detectVoiceActivity t f =
    match f with
    | [] => false
    | _ :: _ => spec_classify f t
    end
  /\ _detectVoiceActivity t [] = false
  /\ PrimFloat.is_nan (rms []) = true.
Proof.
  assert (He : _detectVoiceActivity t [] = false).
  { unfold _detectVoiceActivity. rewrite rms_empty_is_nan. apply ltb_nan_r. }
  split; [|split; [exact He | vm_compute; reflexivity]].
  destruct f as [|x f]; [exact He | reflexivity].
Qed.

(** ** Option defaulting *)

(** [C10] A numeric option given as 0 is replaced by the default: the
    constructor tests truthiness.  A configured number is the default or a
    non-zero number of the options. *)
Theorem constructor_zero_option_takes_default (p : Platform) (options : TranscribeOptions) :
  let cfg := config (new_AWSTranscribeClient p options) in
  ((forall v, opt_vadThreshold options = Some v -> PrimFloat.is_zero v = true ->
      vadThreshold cfg = VAD_THRESHOLD)
   /\ (opt_silenceDuration options = Some 0%Z -> silenceDuration cfg = SILENCE_DURATION)
   /\ (opt_maxSilenceDuration options = Some 0%Z ->
       maxSilenceDuration cfg = MAX_SILENCE_DURATION)
   /\ (opt_sampleRate options = Some 0%Z -> sampleRate cfg = DEFAULT_SAMPLE_RATE)
   /\ (opt_bufferSize options = Some 0%Z -> bufferSize cfg = BUFFER_SIZE))
  /\ ((vadThreshold cfg = VAD_THRESHOLD
       \/ exists v, opt_vadThreshold options = Some v
                    /\ PrimFloat.is_zero v = false /\ vadThreshold cfg = v)
      /\ (silenceDuration cfg = SILENCE_DURATION
          \/ exists v, opt_silenceDuration options = Some v
                       /\ v <> 0%Z /\ silenceDuration cfg = v)
      /\ (maxSilenceDuration cfg = MAX_SILENCE_DURATION
          \/ exists v, opt_maxSilenceDuration options = Some v
                       /\ v <> 0%Z /\ maxSilenceDuration cfg = v)
      /\ (sampleRate cfg = DEFAULT_SAMPLE_RATE
          \/ exists v, opt_sampleRate options = Some v
                       /\ v <> 0%Z /\ sampleRate cfg = v)
      /\ (bufferSize cfg = BUFFER_SIZE
          \/ exists v, opt_bufferSize options = Some v
                       /\ v <> 0%Z /\ bufferSize cfg = v)).
Proof.
  cbn [new_AWSTranscribeClient config make_config vadThreshold silenceDuration
       maxSilenceDuration sampleRate bufferSize].
  split.
  - repeat split.
    + intros v Hv Hz. rewrite Hv. unfold or_default, truthy_number.
      rewrite Hz. reflexivity.
    + intros ->. reflexivity.
    + intros ->. reflexivity.
    + intros ->. reflexivity.
    + intros ->. reflexivity.
  - repeat split.
    + destruct (opt_vadThreshold options) as [v|]; [|left; reflexivity].
      unfold or_default, truthy_number.
      destruct (PrimFloat.is_zero v) eqn:Hz; [left; reflexivity|].
      destruct (PrimFloat.is_nan v); [left; reflexivity|].
      right. exists v. repeat split. exact Hz.
    + destruct (opt_silenceDuration options) as [v|]; [|left; reflexivity].
      unfold or_default, truthy_int. destruct (Z.eqb_spec v 0);
        [left; reflexivity | right; exists v; repeat split; assumption].
    + destruct (opt_maxSilenceDuration options) as [v|]; [|left; reflexivity].
      unfold or_default, truthy_int. destruct (Z.eqb_spec v 0);
        [left; reflexivity | right; exists v; repeat split; assumption].
    + destruct (opt_sampleRate options) as [v|]; [|left; reflexivity].
      unfold or_default, truthy_int. destruct (Z.eqb_spec v 0);
        [left; reflexivity | right; exists v; repeat split; assumption].
    + destruct (opt_bufferSize options) as [v|]; [|left; reflexivity].
      unfold or_default, truthy_int. destruct (Z.eqb_spec v 0);
        [left; reflexivity | right; exists v; repeat split; assumption].
Qed.

(** ** The credential cache *)

Section CredentialFacts.

Variable JSON_parse : string -> Thrown + TranscribeCredentials.
Variable JSON_stringify : TranscribeCredentials -> string.

(** A successful load leaves the world as it was. *)
Lemma load_ok_keeps_world (w w1 : World) (existing : option TranscribeCredentials) :
  AWSCredentials_loadStoredCredentials JSON_parse w = (inr existing, w1) -> w1 = w.
Proof.
  unfold AWSCredentials_loadStoredCredentials.
  destruct (localStorage w) as [store|]; [|intros [= _ <-]; reflexivity].
  destruct (aws_transcribe_credentials store) as [stored|];
    [|intros [= _ <-]; reflexivity].
  destruct (negb (truthy_string stored)); [intros [= _ <-]; reflexivity|].
  destruct (JSON_parse stored); [discriminate | intros [= _ <-]; reflexivity].
Qed.

Lemma storeCredentials_keeps_calls (c : option TranscribeCredentials) (w : World) :
  provider_calls (AWSCredentials_storeCredentials JSON_stringify c w) = provider_calls w.
Proof.
  unfold AWSCredentials_storeCredentials.
  destruct (localStorage w); [destruct c|]; reflexivity.
Qed.

Lemma storeCredentials_overwrites (c : TranscribeCredentials) (w : World) :
  localStorage (AWSCredentials_storeCredentials JSON_stringify (Some c) w)
  = option_map (setItem_credentials (JSON_stringify c)) (localStorage w).
Proof.
  unfold AWSCredentials_storeCredentials.
  destruct (localStorage w) eqn:E; simpl; [exact eq_refl | exact E].
Qed.

(** What the provider call does, whatever led to it. *)
Lemma fetch_fresh_spec (provider : TranscribeCredentialsProvider) (w : World) :
  let out := fetch_fresh provider (AWSCredentials_storeCredentials JSON_stringify) w in
  provider_calls (snd out) = provider_calls w ++ [getMinutesUsed w]
  /\ match provider (getMinutesUsed w) with
     | Resolves c =>
         fst out = inr c
         /\ localStorage (snd out)
            = option_map (setItem_credentials (JSON_stringify c)) (localStorage w)
     | YieldsNothing =>
         fst out = inl (new_Error "No credentials available")
         /\ localStorage (snd out) = localStorage w
     | Rejects e =>
         fst out = inl e /\ localStorage (snd out) = localStorage w
     end.
Proof.
  unfold fetch_fresh.
  destruct (provider (getMinutesUsed w)) as [c | | e]; simpl.
  - rewrite storeCredentials_keeps_calls, storeCredentials_overwrites.
    repeat split.
  - repeat split.
  - repeat split.
Qed.

(** [C7] A stored text that does not parse: the entry is removed from the
    store and the parse error is thrown to the caller of getCredentials;
    the provider is not asked. *)
Theorem unparsable_stored_credentials_cleared_and_rethrown
  (provider : TranscribeCredentialsProvider) (w : World) (store : Storage)
  (stored : string) (e : Thrown) :
  localStorage w = Some store ->
  aws_transcribe_credentials store = Some stored ->
  truthy_string stored = true ->
  JSON_parse stored = inl e ->
  let out := AWSCredentials_getCredentials JSON_parse JSON_stringify (Some provider) w in
  AWSCredentials_loadStoredCredentials JSON_parse w
    = (inl e, set_localStorage (Some (removeItem_credentials store)) w)
  /\ fst out = inl e
  /\ localStorage (snd out)
     = Some {| aws_transcribe_credentials := None;
               aws_transcribe_minutes_used := aws_transcribe_minutes_used store |}
  /\ provider_calls (snd out) = provider_calls w.
Proof.
  intros Hls Hst Htr Hp out.
  assert (Hload : AWSCredentials_loadStoredCredentials JSON_parse w
                  = (inl e, set_localStorage (Some (removeItem_credentials store)) w)).
  { unfold AWSCredentials_loadStoredCredentials.
    rewrite Hls, Hst, Htr, Hp. reflexivity. }
  split; [exact Hload|].
  unfold out, AWSCredentials_getCredentials. rewrite Hload.
  repeat split.
Qed.

(** The module-level loadStoredCredentials of aws-transcribe-client.ts
    differs here: it returns [null], so that _getCredentials goes on to the
    provider. *)
Lemma module_level_loader_swallows_parse_error
  (provider : TranscribeCredentialsProvider) (w : World) (store : Storage)
  (stored : string) (e : Thrown) :
  localStorage w = Some store ->
  aws_transcribe_credentials store = Some stored ->
  truthy_string stored = true ->
  JSON_parse stored = inl e ->
  _getCredentials JSON_parse JSON_stringify (Some provider) w
  = fetch_fresh provider (storeCredentials JSON_stringify)
      (set_localStorage (Some (removeItem_credentials store)) w).
Proof.
  intros Hls Hst Htr Hp.
  unfold _getCredentials, loadStoredCredentials.
  rewrite Hls, Hst, Htr, Hp. reflexivity.
Qed.

Lemma truthy_string_text (stored : string) :
  stored <> "" -> truthy_string stored = true.
Proof.
  intros H. unfold truthy_string. destruct (String.eqb_spec stored ""); [contradiction|].
  reflexivity.
Qed.

Lemma fetch_fresh_asks (p : TranscribeCredentialsProvider) (w : World) :
  provider_asked JSON_stringify p w
    (fetch_fresh p (AWSCredentials_storeCredentials JSON_stringify) w).
Proof. apply fetch_fresh_spec. Qed.

(** [C6, amended] The cache policy of getCredentials, case by case on the
    stored text and the clock.  Without a provider the call fails and
    nothing changes.  With one: if no text is stored the provider is asked;
    if the stored text parses to a credential whose expiration is strictly
    later than the current time, the credential is returned, the provider
    is not asked and nothing changes; if it is not strictly later, the
    provider is asked; if the text does not parse, the entry is removed and
    the parse error is thrown without asking the provider.  The earlier
    revision's _getCredentials does the same but for the last case, where
    it asks the provider after removing the entry. *)
Theorem getCredentials_cache_policy
  (provider : option TranscribeCredentialsProvider) (w : World) :
  let out := AWSCredentials_getCredentials JSON_parse JSON_stringify provider w in
  let earlier := _getCredentials JSON_parse JSON_stringify provider w in
  let now := number_of_Z (Date_now w) in
  (provider = None ->
     out = (inl (new_Error "No credentials provider available"), w)
     /\ earlier = out)
  /\ (forall p, provider = Some p -> nothing_stored w ->
        provider_asked JSON_stringify p w out /\ earlier = out)
  /\ (forall p store stored c, provider = Some p ->
        text_stored w store stored -> JSON_parse stored = inr c ->
        ((now <? expiration c)%float = true ->
           out = (inr c, w) /\ earlier = out)
        /\ ((now <? expiration c)%float = false ->
              provider_asked JSON_stringify p w out /\ earlier = out))
  /\ (forall p store stored e, provider = Some p ->
        text_stored w store stored -> JSON_parse stored = inl e ->
        out = (inl e, set_localStorage (Some (removeItem_credentials store)) w)
        /\ provider_calls (snd out) = provider_calls w
        /\ provider_asked JSON_stringify p
             (set_localStorage (Some (removeItem_credentials store)) w) earlier).
Proof.
  cbn zeta.
  split; [intros ->; split; reflexivity|].
  split.
  { intros p -> Hn. unfold nothing_stored in Hn.
    assert (E : AWSCredentials_getCredentials JSON_parse JSON_stringify (Some p) w
                = fetch_fresh p (AWSCredentials_storeCredentials JSON_stringify) w
                /\ _getCredentials JSON_parse JSON_stringify (Some p) w
                   = fetch_fresh p (AWSCredentials_storeCredentials JSON_stringify) w).
    { unfold AWSCredentials_getCredentials, _getCredentials,
        AWSCredentials_loadStoredCredentials, loadStoredCredentials, storeCredentials.
      destruct (localStorage w) as [store|]; [|split; reflexivity].
      destruct Hn as [-> | ->]; split; reflexivity. }
    destruct E as [-> ->]. split; [apply fetch_fresh_asks | reflexivity]. }
  split.
  { intros p store stored c -> (Hls & Hst & Hne) Hp.
    pose proof (truthy_string_text Hne) as Htr.
    assert (E : AWSCredentials_getCredentials JSON_parse JSON_stringify (Some p) w
                = (if (number_of_Z (Date_now w) <? expiration c)%float then (inr c, w)
                   else fetch_fresh p (AWSCredentials_storeCredentials JSON_stringify) w)
                /\ _getCredentials JSON_parse JSON_stringify (Some p) w
                   = (if (number_of_Z (Date_now w) <? expiration c)%float then (inr c, w)
                      else fetch_fresh p (AWSCredentials_storeCredentials JSON_stringify) w)).
    { unfold AWSCredentials_getCredentials, _getCredentials,
        AWSCredentials_loadStoredCredentials, loadStoredCredentials, storeCredentials,
        still_valid.
      rewrite Hls, Hst, Htr, Hp. cbn [negb]. split; reflexivity. }
    destruct E as [-> ->].
    split; intros ->; (split; [|reflexivity]); [reflexivity | apply fetch_fresh_asks]. }
  intros p store stored e -> (Hls & Hst & Hne) Hp.
  pose proof (truthy_string_text Hne) as Htr.
  rewrite (@module_level_loader_swallows_parse_error p w store stored e Hls Hst Htr Hp).
  unfold AWSCredentials_getCredentials, AWSCredentials_loadStoredCredentials.
  rewrite Hls, Hst, Htr, Hp. cbn [negb].
  split; [reflexivity|]. split; [reflexivity|].
  apply fetch_fresh_asks.
Qed.

End CredentialFacts.

(** [C7] at a sample store holding a text the parser rejects. *)
Lemma unparsable_stored_credentials_witness :
  let w := new_World 1000 (sample_store "not json") in
  let out := AWSCredentials_getCredentials sample_JSON_parse sample_JSON_stringify
               (Some sample_provider) w in
  AWSCredentials_loadStoredCredentials sample_JSON_parse w
    = (inl (ErrorObject "SyntaxError" "Unexpected token"),
       set_localStorage
         (Some (removeItem_credentials
                  {| aws_transcribe_credentials := Some "not json";
                     aws_transcribe_minutes_used := Some 3%float |})) w)
  /\ fst out = inl (ErrorObject "SyntaxError" "Unexpected token")
  /\ localStorage (snd out)
     = Some {| aws_transcribe_credentials := None;
               aws_transcribe_minutes_used := Some 3%float |}
  /\ provider_calls (snd out) = provider_calls w.
Proof.
  apply (@unparsable_stored_credentials_cleared_and_rethrown
           sample_JSON_parse sample_JSON_stringify sample_provider
           (new_World 1000 (sample_store "not json"))
           {| aws_transcribe_credentials := Some "not json";
              aws_transcribe_minutes_used := Some 3%float |}
           "not json" (ErrorObject "SyntaxError" "Unexpected token"));
    reflexivity.
Defined.

(** [C6, as stated] A provider is configured and would deliver, and the
    store holds no credential, only a text that does not parse: the claim
    has the provider invoked exactly once and its result returned, but
    AWSCredentials.getCredentials does not invoke the provider and fails
    with the parse error.  (The module-level _getCredentials of the earlier
    revision does invoke it at this input, once, and returns what it
    delivers.) *)
Lemma getCredentials_unparsable_text_skips_provider :
  let w := new_World 1000 (sample_store "not json") in
  let out := AWSCredentials_getCredentials sample_JSON_parse sample_JSON_stringify
               (Some sample_provider) w in
  let earlier := _getCredentials sample_JSON_parse sample_JSON_stringify
                   (Some sample_provider) w in
  sample_JSON_parse "not json" = inl (ErrorObject "SyntaxError" "Unexpected token")
  /\ provider_calls w = []
  /\ provider_calls (snd out) = []
  /\ fst out = inl (ErrorObject "SyntaxError" "Unexpected token")
  /\ provider_calls (snd out) <> provider_calls w ++ [getMinutesUsed w]
  /\ fst out <> inr (sample_credentials 9000%float)
  /\ fst earlier = inr (sample_credentials 9000%float)
  /\ provider_calls (snd earlier) = [getMinutesUsed w].
Proof.
  repeat split; try reflexivity; vm_compute; discriminate.
Qed.

(** ** Result consumption *)

Local Open Scope string_scope.

Lemma process_event_skipped (event : TranscriptionResult) (s : Sys) :
  view event = None -> process_event event s = s.
Proof.
  unfold view, process_event. destruct (first_result event); [discriminate|].
  reflexivity.
Qed.

Lemma process_event_partial (event : TranscriptionResult) (text : string) (s : Sys) :
  view event = Some (true, text) ->
  process_event event s
  = (fst s, emit (CallOnTranscript (transcript (fst s)) text) (snd s)).
Proof.
  unfold view, process_event. destruct (first_result event) as [r|]; [|discriminate].
  intros [= Hp <-]. rewrite Hp. reflexivity.
Qed.

Lemma process_event_final (event : TranscriptionResult) (text : string) (s : Sys) :
  view event = Some (false, text) ->
  process_event event s
  = (set_transcript (transcript (fst s) ++ text ++ " ") (fst s),
     emit (CallOnTranscript (transcript (fst s) ++ text ++ " ") "") (snd s)).
Proof.
  unfold view, process_event. destruct (first_result event) as [r|]; [|discriminate].
  intros [= Hp <-]. rewrite Hp. reflexivity.
Qed.

Lemma process_events_accumulate (events : list TranscriptionResult) :
  forall s : Sys,
    let s' := fold_left (fun s event => process_event event s) events s in
    let spec := spec_accumulate (transcript (fst s)) (views events) in
    effects (snd s') = (effects (snd s) ++ map report_call (fst spec))%list
    /\ transcript (fst s') = snd spec.
Proof.
  induction events as [|event events IH]; intros s; cbn zeta.
  - simpl. rewrite app_nil_r. split; reflexivity.
  - cbn [fold_left views].
    destruct (view event) as [[[|] text]|] eqn:Hv.
    + rewrite (process_event_partial _ s Hv).
      destruct (IH (fst s, emit (CallOnTranscript (transcript (fst s)) text) (snd s)))
        as [IHe IHt].
      cbn [fst snd] in IHe, IHt. cbn [spec_accumulate].
      destruct (spec_accumulate (transcript (fst s)) (views events)) as [reports final].
      cbn [fst snd] in *. rewrite IHe, IHt. split; [|reflexivity].
      unfold emit; cbn [effects]. rewrite <- app_assoc. reflexivity.
    + rewrite (process_event_final _ s Hv).
      match goal with |- context [fold_left _ events ?s1] =>
        destruct (IH s1) as [IHe IHt] end.
      cbn [fst snd] in IHe, IHt.
      replace (transcript (set_transcript (transcript (fst s) ++ text ++ " ") (fst s)))
        with (transcript (fst s) ++ text ++ " ") in * by reflexivity.
      cbn [spec_accumulate].
      destruct (spec_accumulate (transcript (fst s) ++ text ++ " ") (views events))
        as [reports final].
      cbn [fst snd] in *. rewrite IHe, IHt. split; [|reflexivity].
      unfold emit; cbn [effects]. rewrite <- app_assoc. reflexivity.
    + rewrite (process_event_skipped _ s Hv). apply IH.
Qed.

(** [C3] The result loop against the specification's accumulator: over any
    sequence of events the observer receives exactly the specified reports
    and the transcript ends as specified; a partial result leaves the
    transcript as it is, a final result appends its text and one space.
    From an empty transcript, partial "hel" then final "hello" reports
    ("", "hel") and then ("hello ", ""). *)
Theorem result_loop_partial_and_final (events : list TranscriptionResult) (s : Sys) :
  let s' := _processTranscriptionResults events None s in
  let spec := spec_accumulate (transcript (fst s)) (views events) in
  (effects (snd s') = (effects (snd s) ++ map report_call (fst spec))%list
   /\ transcript (fst s') = snd spec)
  /\ (forall event text, view event = Some (true, text) ->
        transcript (fst (process_event event s)) = transcript (fst s)
        /\ effects (snd (process_event event s))
           = (effects (snd s) ++ [CallOnTranscript (transcript (fst s)) text])%list)
  /\ (forall event text, view event = Some (false, text) ->
        transcript (fst (process_event event s)) = transcript (fst s) ++ text ++ " "
        /\ effects (snd (process_event event s))
           = (effects (snd s)
              ++ [CallOnTranscript (transcript (fst s) ++ text ++ " ") ""])%list)
  /\ (transcript (fst s) = "" ->
        effects (snd (_processTranscriptionResults
                        [result_event true "hel"; result_event false "hello"] None s))
        = (effects (snd s)
           ++ [CallOnTranscript "" "hel"; CallOnTranscript "hello " ""])%list).
Proof.
  cbn zeta. split; [apply process_events_accumulate|].
  split.
  { intros event text Hv. rewrite (process_event_partial _ s Hv). split; reflexivity. }
  split.
  { intros event text Hv. rewrite (process_event_final _ s Hv). split; reflexivity. }
  intros Hempty.
  destruct (process_events_accumulate
              [result_event true "hel"; result_event false "hello"] s) as [He _].
  unfold _processTranscriptionResults. rewrite He, Hempty. reflexivity.
Qed.

(** ** stop() *)

Lemma stop_leaves_idle (s : Sys) : idle (fst (stop s)).
Proof. repeat split. Qed.

Lemma stop_again_same_controller (s : Sys) : fst (stop (stop s)) = fst (stop s).
Proof. reflexivity. Qed.

Lemma effects_storeMinutesUsed (m : float) (w : World) :
  effects (storeMinutesUsed m w) = effects w.
Proof. unfold storeMinutesUsed. destruct (localStorage w); reflexivity. Qed.

Lemma timers_storeMinutesUsed (m : float) (w : World) :
  timers (storeMinutesUsed m w) = timers w.
Proof. unfold storeMinutesUsed. destruct (localStorage w); reflexivity. Qed.

(** A second stop() releases nothing and clears no timer: it emits the
    final state update, once, and nothing else. *)
Lemma stop_again_effects (s : Sys) :
  effects (snd (stop (stop s)))
  = (effects (snd (stop s)) ++ [state_update false false None])%list
  /\ timers (snd (stop (stop s))) = timers (snd (stop s))
  /\ audioStream (snd (stop (stop s))) = audioStream (snd (stop s)).
Proof.
  assert (H : forall c w, idle c ->
            effects (snd (stop (c, w)))
            = (effects w ++ [state_update false false None])%list
            /\ timers (snd (stop (c, w))) = timers w
            /\ audioStream (snd (stop (c, w))) = audioStream w).
  { intros c w (_ & _ & _ & _ & Hcs & Hp & Hsn & Hac & Hst & Htc & Hsi & Hma & Hco).
    unfold stop. cbn [fst snd]. rewrite Hcs, Hp, Hsn, Hac, Hst, Htc, Hsi, Hma, Hco.
    cbn [release clear_handle close_customStream emit effects timers audioStream].
    unfold record_usage.
    destruct (startTime c) as [t|]; [destruct (truthy_int t)|];
      rewrite ?effects_storeMinutesUsed, ?timers_storeMinutesUsed;
      repeat split; unfold storeMinutesUsed;
      destruct (localStorage w); reflexivity. }
  destruct (stop s) as [c w] eqn:E.
  apply H. change c with (fst (c, w)). rewrite <- E. apply stop_leaves_idle.
Qed.

(** [C1] at a session started at t = 1000 ms and stopped one minute later:
    the first stop() adds the minute to the stored usage, the second stop()
    adds it again, because stop() keeps [startTime].  The controller itself
    is the same after both calls and each call emits one final state
    update. *)
Theorem stop_twice_counts_session_twice :
  let s := run sample_JSON_parse sample_JSON_stringify
             (CallStart all_succeed :: repeat Tick (Z.to_nat 60000))
             (initial full_platform (default_options sample_provider) 1000 empty_store) in
  (isListening (fst s) = true /\ startTime (fst s) = Some 1000%Z
   /\ Date_now (snd s) = 61000%Z /\ minutes_used s = None)
  /\ minutes_used (stop s) = Some 1%float
  /\ minutes_used (stop (stop s)) = Some 2%float
  /\ fst (stop (stop s)) = fst (stop s)
  /\ effects (snd (stop (stop s)))
     = (effects (snd (stop s)) ++ [state_update false false None])%list
  /\ startTime (fst (stop s)) = Some 1000%Z.
Proof.
  vm_compute. repeat split.
Qed.

(** ** start() *)

Section StartFacts.

Variable JSON_parse : string -> Thrown + TranscribeCredentials.
Variable JSON_stringify : TranscribeCredentials -> string.

Lemma start_catch_spec (error : Thrown) (s1 : Sys) :
  start_catch error s1 = (inl error, rolled_back error s1).
Proof. destruct s1 as [c w]. reflexivity. Qed.

(** The [try] block returns nothing but [true]. *)
Lemma start_try_returns_true (env : StartEnv) (s s1 : Sys) (b : bool) :
  start_try JSON_parse JSON_stringify env s = (inr b, s1) -> b = true.
Proof.
  destruct env as [e1 e2 e3 e4 e5 e6 e7 e8 e9].
  unfold start_try, bind, external, perform, throw, ret, _createTranscribeClient.
  cbn [getUserMedia new_AudioContext createMediaStreamSource createScriptProcessor
       sourceNode_connect processorNode_connect new_TranscribeStreamingClient
       call_generateSessionId transcribeClient_send].
  destruct e1; [discriminate|]. destruct e2; [discriminate|].
  destruct e3; [discriminate|]. destruct e4; [discriminate|].
  destruct e5; [discriminate|]. destruct e6; [discriminate|].
  cbn [fst snd on_client].
  destruct (AWSCredentials_getCredentials _ _ _ _) as [[e|c] w]; [discriminate|].
  destruct e7; [discriminate|].
  destruct e8; [discriminate|]. destruct e9; [discriminate|].
  intros [= <- _]. reflexivity.
Qed.

(** start() past its guards is the [try] block under the [catch] block. *)
Lemma start_past_guards (env : StartEnv) (s : Sys) (h : Handle) :
  isListening (fst s) = false -> browserSupported (fst s) = true ->
  AudioContextClass (fst s) = Some h ->
  start JSON_parse JSON_stringify env s
  = match start_try JSON_parse JSON_stringify env s with
    | (inl e, s1) => (inl e, rolled_back e s1)
    | (inr a, s1) => (inr a, s1)
    end.
Proof.
  intros Hl Hb Ha. unfold start. rewrite Hl, Hb, Ha. cbn [negb]. unfold try_catch.
  destruct (start_try JSON_parse JSON_stringify env s) as [[e|a] s1];
    [apply start_catch_spec | reflexivity].
Qed.

(** The three failures the claim names do make the [try] block throw. *)
Lemma start_try_media_failure (env : StartEnv) (s : Sys) (e : Thrown) :
  getUserMedia env = Some e ->
  start_try JSON_parse JSON_stringify env s = (inl e, s).
Proof.
  intros H. unfold start_try, bind, external. rewrite H. reflexivity.
Qed.

Lemma start_try_credentials_failure (env : StartEnv) (s : Sys) (e : Thrown) :
  audio_graph_built env ->
  fst (AWSCredentials_getCredentials JSON_parse JSON_stringify
         (credentialsProvider (config (fst s))) (snd s)) = inl e ->
  fst (start_try JSON_parse JSON_stringify env s) = inl e.
Proof.
  intros (H1 & H2 & H3 & H4 & H5 & H6) Hc.
  unfold start_try, bind, external, perform, throw, ret, _createTranscribeClient.
  rewrite H1, H2, H3, H4, H5, H6. cbn [fst snd on_client config
    set_stream set_audioContext set_sourceNode set_processorNode].
  destruct (AWSCredentials_getCredentials _ _ _ _) as [[e'|c] w];
    cbn [fst] in Hc; [|discriminate].
  injection Hc as ->. reflexivity.
Qed.

Lemma start_try_send_failure (env : StartEnv) (s : Sys) (e : Thrown)
  (c : TranscribeCredentials) :
  audio_graph_built env ->
  fst (AWSCredentials_getCredentials JSON_parse JSON_stringify
         (credentialsProvider (config (fst s))) (snd s)) = inr c ->
  new_TranscribeStreamingClient env = None ->
  call_generateSessionId env = None ->
  transcribeClient_send env = Some e ->
  fst (start_try JSON_parse JSON_stringify env s) = inl e.
Proof.
  intros (H1 & H2 & H3 & H4 & H5 & H6) Hc H7 H8 H9.
  unfold start_try, bind, external, perform, throw, ret, _createTranscribeClient.
  rewrite H1, H2, H3, H4, H5, H6, H7, H8, H9. cbn [fst snd on_client config
    set_stream set_audioContext set_sourceNode set_processorNode].
  destruct (AWSCredentials_getCredentials _ _ _ _) as [[e'|c'] w];
    cbn [fst] in Hc; [discriminate|].
  reflexivity.
Qed.

(** The outcomes of a start() that nothing interrupts: what it throws is
    what its [try] block threw, after the [catch] block; the two guards
    return [false] and leave the controller as it was. *)
Lemma start_outcomes (env : StartEnv) (s : Sys) :
  let out := start JSON_parse JSON_stringify env s in
  (fst out <> inr true -> st_isListening (getState (fst (snd out))) = false)
  /\ (forall e, fst out = inl e ->
        exists s1,
          start_try JSON_parse JSON_stringify env s = (inl e, s1)
          /\ snd out = rolled_back e s1
          /\ idle (fst (snd out))
          /\ exists before,
               effects (snd (snd out)) = (before ++ [state_update false false None])%list)
  /\ (isListening (fst s) = false -> browserSupported (fst s) = true ->
      AudioContextClass (fst s) <> None ->
      (forall e s1, start_try JSON_parse JSON_stringify env s = (inl e, s1) ->
         out = (inl e, rolled_back e s1))
      /\ (forall e, getUserMedia env = Some e -> fst out = inl e)
      /\ (forall e, audio_graph_built env ->
            fst (AWSCredentials_getCredentials JSON_parse JSON_stringify
                   (credentialsProvider (config (fst s))) (snd s)) = inl e ->
            fst out = inl e)
      /\ (forall e c, audio_graph_built env ->
            fst (AWSCredentials_getCredentials JSON_parse JSON_stringify
                   (credentialsProvider (config (fst s))) (snd s)) = inr c ->
            new_TranscribeStreamingClient env = None ->
            call_generateSessionId env = None ->
            transcribeClient_send env = Some e ->
            fst out = inl e))
  /\ (isListening (fst s) = false ->
      (browserSupported (fst s) = false \/ AudioContextClass (fst s) = None) ->
      fst out = inr false /\ fst (snd out) = fst s).
Proof.
  intros out. subst out.
  destruct (isListening (fst s)) eqn:Hl.
  { (* already listening: success, nothing else applies *)
    unfold start. rewrite Hl. cbn [ret fst snd].
    split; [intros H; exfalso; apply H; reflexivity|].
    split; [intros e [=]|].
    split; discriminate. }
  destruct (browserSupported (fst s)) eqn:Hb; cycle 1.
  { unfold start. rewrite Hl, Hb. cbn [negb ret fst snd on_world].
    split; [intros _; exact Hl|].
    split; [intros e [=]|].
    split; [discriminate|]. intros _ _. split; reflexivity. }
  destruct (AudioContextClass (fst s)) as [h|] eqn:Ha; cycle 1.
  { unfold start. rewrite Hl, Hb, Ha. cbn [negb ret fst snd on_world].
    split; [intros _; exact Hl|].
    split; [intros e [=]|].
    split; [intros _ _ H; exfalso; apply H; reflexivity|].
    intros _ _. split; reflexivity. }
  rewrite (@start_past_guards env s h Hl Hb Ha).
  split.
  { destruct (start_try JSON_parse JSON_stringify env s) as [[e|a] s1] eqn:Ht.
    - intros _. reflexivity.
    - rewrite (@start_try_returns_true env s s1 a Ht). intros H. exfalso. apply H. reflexivity. }
  split.
  { intros e He.
    destruct (start_try JSON_parse JSON_stringify env s) as [[e'|a] s1] eqn:Ht;
      cbn [fst] in He; [|discriminate].
    injection He as ->. exists s1. split; [reflexivity|]. split; [reflexivity|].
    split; [apply stop_leaves_idle|].
    cbn [snd]. unfold rolled_back, stop. cbn [snd emit effects].
    eexists. reflexivity. }
  split.
  { intros _ _ _. split; [intros e s1 ->; reflexivity|].
    split; [intros e He; rewrite (@start_try_media_failure env s e He); reflexivity|].
    split.
    - intros e Hg Hc. pose proof (@start_try_credentials_failure env s e Hg Hc) as Hf.
      destruct (start_try JSON_parse JSON_stringify env s) as [[e'|a] s1];
        cbn [fst] in *; congruence.
    - intros e c Hg Hc H7 H8 H9.
      pose proof (@start_try_send_failure env s e c Hg Hc H7 H8 H9) as Hf.
      destruct (start_try JSON_parse JSON_stringify env s) as [[e'|a] s1];
        cbn [fst] in *; congruence. }
  intros _ [H|H]; discriminate.
Qed.

End StartFacts.

(** ** The silence timers *)

Local Open Scope list_scope.

(** *** Every operation keeps the timers owned *)

Lemma Forall_filter_weaken {A : Type} (P : A -> Prop) (f : A -> bool) (l : list A) :
  Forall P l -> Forall P (filter f l).
Proof.
  induction 1 as [|x l Hx Hl IH]; simpl; [constructor|].
  destruct (f x); [constructor; assumption | assumption].
Qed.

Lemma timers_clear_handle (o : option TimerId) (w : World) :
  timers (clear_handle o w)
  = match o with
    | Some id => filter (fun t => negb (Pos.eqb (timer_id t) id)) (timers w)
    | None => timers w
    end.
Proof. destruct o; reflexivity. Qed.

Lemma next_timer_clear_handle (o : option TimerId) (w : World) :
  next_timer (clear_handle o w) = next_timer w.
Proof. destruct o; reflexivity. Qed.

Lemma timers_release (x : option Handle) (e : Effect) (w : World) :
  timers (release x e w) = timers w /\ next_timer (release x e w) = next_timer w.
Proof. destruct x; split; reflexivity. Qed.

Lemma timers_close_customStream (x : option Handle) (w : World) :
  timers (close_customStream x w) = timers w
  /\ next_timer (close_customStream x w) = next_timer w.
Proof. destruct x; split; reflexivity. Qed.

Lemma timers_record_usage (t : option Z) (w : World) :
  timers (record_usage t w) = timers w
  /\ next_timer (record_usage t w) = next_timer w.
Proof.
  unfold record_usage, storeMinutesUsed.
  destruct t as [t|]; [destruct (truthy_int t)|]; try (split; reflexivity).
  destruct (localStorage w); split; reflexivity.
Qed.

(** The timers stop() leaves are those its three handles do not name. *)
Lemma stop_timers (s : Sys) :
  timers (snd (stop s))
  = timers (clear_handle (countdownInterval (fst s))
             (clear_handle (maxSilenceTimeout (fst s))
               (clear_handle (silenceTimeout (fst s))
                  (set_timers (timers (snd s)) (snd s)))))
  /\ next_timer (snd (stop s)) = next_timer (snd s).
Proof.
  unfold stop. cbn [snd emit timers next_timer].
  rewrite !timers_clear_handle, !next_timer_clear_handle.
  repeat match goal with
         | |- context [release ?x ?e ?w] =>
             destruct (timers_release x e w) as [-> ->]
         end.
  destruct (timers_close_customStream (customStream (fst s))
              (record_usage (startTime (fst s)) (snd s))) as [-> ->].
  destruct (timers_record_usage (startTime (fst s)) (snd s)) as [-> ->].
  split; reflexivity.
Qed.

Lemma stop_preserves_wf (s : Sys) : timers_wf s -> timers_wf (stop s).
Proof.
  intros (Hown & _ & _ & _ & _).
  unfold timers_wf. destruct (stop_timers s) as [Ht Hn]. rewrite Ht.
  cbn [fst stop silenceTimeout maxSilenceTimeout countdownInterval activeStreaming
       isActivelySpeaking below].
  split; [|repeat split].
  rewrite !timers_clear_handle. cbn [set_timers timers].
  apply Forall_forall. intros t Hin. exfalso.
  assert (Hin0 : In t (timers (snd s))).
  { revert Hin.
    destruct (countdownInterval (fst s)), (maxSilenceTimeout (fst s)),
      (silenceTimeout (fst s)); intros Hin;
      repeat (apply filter_In in Hin; destruct Hin as [Hin _]); exact Hin. }
  rewrite Forall_forall in Hown. specialize (Hown t Hin0).
  unfold timer_owned in Hown.
  destruct (task t).
  - rewrite Hown in Hin.
    destruct (countdownInterval (fst s)), (maxSilenceTimeout (fst s));
      repeat (apply filter_In in Hin; destruct Hin as [Hin ?]);
      match goal with H : negb (Pos.eqb ?a ?a) = true |- _ =>
        rewrite Pos.eqb_refl in H; discriminate end.
  - rewrite Hown in Hin.
    destruct (countdownInterval (fst s)), (silenceTimeout (fst s));
      repeat (apply filter_In in Hin; destruct Hin as [Hin ?]);
      match goal with H : negb (Pos.eqb ?a ?a) = true |- _ =>
        rewrite Pos.eqb_refl in H; discriminate end.
  - destruct Hown as [Hown _]. rewrite Hown in Hin.
    destruct (maxSilenceTimeout (fst s)), (silenceTimeout (fst s));
      repeat (apply filter_In in Hin; destruct Hin as [Hin ?]);
      match goal with H : negb (Pos.eqb ?a ?a) = true |- _ =>
        rewrite Pos.eqb_refl in H; discriminate end.
Qed.
(** _handleSilence with the stream active and no long timer: both flags
    fall, onSpeechEnd and a state update are emitted, the long timer and
    the countdown are armed. *)
Lemma handleSilence_arms (c : Client) (w : World) :
  activeStreaming c = true -> maxSilenceTimeout c = None ->
  _handleSilence (c, w)
  = (set_countdownInterval (Some (Pos.succ (next_timer w)))
       (set_maxSilenceTimeout (Some (next_timer w))
          (set_isActivelySpeaking false (set_activeStreaming false c))),
     set_next_timer (Pos.succ (Pos.succ (next_timer w)))
       (set_timers (timers w ++ [long_timer (next_timer w) (Date_now w) (config c);
                                 countdown_timer (Pos.succ (next_timer w)) (Date_now w)])
          (emit (state_update (isListening c) false None) (emit CallOnSpeechEnd w)))).
Proof.
  intros Ha Hm. unfold _handleSilence. cbn [fst snd]. rewrite Ha. cbn [negb].
  cbn [maxSilenceTimeout set_isActivelySpeaking set_activeStreaming]. rewrite Hm.
  unfold setTimeout, setInterval, long_timer, countdown_timer.
  cbn [fst snd emit timers next_timer set_timers set_next_timer Date_now config
       isListening set_isActivelySpeaking set_activeStreaming].
  rewrite <- app_assoc. reflexivity.
Qed.

Lemma handleSilence_preserves_wf (s : Sys) : timers_wf s -> timers_wf (_handleSilence s).
Proof.
  intros Hwf. pose proof Hwf as (Hown & Hs & Hm & Hc & Hfl).
  destruct (activeStreaming (fst s)) eqn:Ha;
    [|unfold _handleSilence; rewrite Ha; exact Hwf].
  destruct (maxSilenceTimeout (fst s)) as [m|] eqn:Em.
  - unfold _handleSilence. rewrite Ha. cbn [negb].
    cbn [maxSilenceTimeout set_isActivelySpeaking set_activeStreaming].
    rewrite Em.
    unfold timers_wf. cbn [fst snd emit timers next_timer silenceTimeout
      maxSilenceTimeout countdownInterval activeStreaming isActivelySpeaking
      set_isActivelySpeaking set_activeStreaming].
    rewrite Em. repeat split; try assumption.
  - destruct s as [c w]. cbn [fst snd] in *. rewrite (@handleSilence_arms c w Ha Em).
    unfold timers_wf.
    cbn [fst snd emit timers next_timer set_timers set_next_timer silenceTimeout
      maxSilenceTimeout countdownInterval activeStreaming isActivelySpeaking
      set_isActivelySpeaking set_activeStreaming set_maxSilenceTimeout
      set_countdownInterval below].
    split.
    { apply Forall_app. split.
      - revert Hown. apply Forall_impl. intros t. unfold timer_owned.
        cbn [silenceTimeout maxSilenceTimeout countdownInterval
             set_isActivelySpeaking set_activeStreaming set_maxSilenceTimeout
             set_countdownInterval].
        rewrite Em. destruct (task t); [exact (fun H => H) | discriminate |].
        intros [_ H]. exfalso. apply H. reflexivity.
      - repeat constructor. discriminate. }
    repeat split; try lia.
    destruct (silenceTimeout c); cbn [below] in *; [lia | exact I].
Qed.

Lemma countdown_tick_preserves_wf (startTime : Z) (s : Sys) :
  timers_wf s -> timers_wf (countdown_tick startTime s).
Proof.
  intros (Hown & Hs & Hm & Hc & Hfl).
  unfold countdown_tick.
  cbn [config set_silenceCountdown countdownInterval isListening].
  destruct (maxSilenceDuration (config (fst s)) <=? Date_now (snd s) - startTime)%Z.
  - destruct (countdownInterval (fst s)) as [id|] eqn:Ec.
    + unfold timers_wf, clearInterval, clearTimeout.
      cbn [fst snd emit timers next_timer set_timers silenceTimeout maxSilenceTimeout
           countdownInterval activeStreaming isActivelySpeaking set_silenceCountdown
           set_countdownInterval below].
      repeat split; try assumption.
      apply Forall_forall. intros t Hin. apply filter_In in Hin. destruct Hin as [Hin Hne].
      rewrite Forall_forall in Hown. specialize (Hown t Hin). revert Hown.
      unfold timer_owned.
      cbn [silenceTimeout maxSilenceTimeout countdownInterval set_silenceCountdown
           set_countdownInterval].
      destruct (task t); try exact (fun H => H).
      rewrite Ec. intros [[= ->] _]. rewrite Pos.eqb_refl in Hne. discriminate.
    + unfold timers_wf.
      cbn [fst snd emit timers next_timer silenceTimeout maxSilenceTimeout
           countdownInterval activeStreaming isActivelySpeaking set_silenceCountdown].
      rewrite Ec. repeat split; assumption.
  - unfold timers_wf.
    cbn [fst snd emit timers next_timer silenceTimeout maxSilenceTimeout
         countdownInterval activeStreaming isActivelySpeaking set_silenceCountdown].
    repeat split; assumption.
Qed.

Lemma filter_true {A : Type} (l : list A) : filter (fun _ => true) l = l.
Proof. induction l as [|x l IH]; simpl; [reflexivity | rewrite IH; reflexivity]. Qed.

Lemma timers_clear_handle_kept (o : option TimerId) (w : World) :
  timers (clear_handle o w) = filter (kept o) (timers w).
Proof. destruct o; [reflexivity | symmetry; apply filter_true]. Qed.

(** Clearing the three handles of a controller that owns its timers
    leaves none. *)
Lemma owned_timers_cleared (c : Client) (ts : list Timer) :
  Forall (timer_owned c) ts ->
  filter (kept (countdownInterval c))
    (filter (kept (maxSilenceTimeout c)) (filter (kept (silenceTimeout c)) ts)) = [].
Proof.
  induction 1 as [|t ts Ht Hts IH]; [reflexivity|].
  cbn [filter].
  destruct (kept (silenceTimeout c) t) eqn:E1; [|exact IH]. cbn [filter].
  destruct (kept (maxSilenceTimeout c) t) eqn:E2; [|exact IH]. cbn [filter].
  destruct (kept (countdownInterval c) t) eqn:E3; [|exact IH].
  exfalso. unfold timer_owned in Ht. destruct (task t).
  - rewrite Ht in E1. cbn in E1. rewrite Pos.eqb_refl in E1. discriminate.
  - rewrite Ht in E2. cbn in E2. rewrite Pos.eqb_refl in E2. discriminate.
  - destruct Ht as [Ht _]. rewrite Ht in E3. cbn in E3.
    rewrite Pos.eqb_refl in E3. discriminate.
Qed.

Lemma kept_fresh (o : option TimerId) (t : Timer) :
  below o (timer_id t) -> kept o t = true.
Proof.
  destruct o as [id|]; [|reflexivity]. cbn. intros H.
  destruct (Pos.eqb_spec (timer_id t) id); [lia | reflexivity].
Qed.

(** After _resetSilenceTimeout the short timer is the only pending timer. *)
Lemma resetSilenceTimeout_spec (c : Client) (w : World) :
  timers_wf (c, w) ->
  let s' := _resetSilenceTimeout (c, w) in
  timers (snd s')
  = [short_timer (next_timer w) (Date_now w + timer_delay (silenceDuration (config c)))]
  /\ next_timer (snd s') = Pos.succ (next_timer w)
  /\ silenceTimeout (fst s') = Some (next_timer w)
  /\ maxSilenceTimeout (fst s') = None
  /\ countdownInterval (fst s') = None
  /\ activeStreaming (fst s') = activeStreaming c
  /\ isActivelySpeaking (fst s') = isActivelySpeaking c
  /\ isListening (fst s') = isListening c
  /\ config (fst s') = config c
  /\ customStream (fst s') = customStream c
  /\ effects (snd s') = effects w
  /\ Date_now (snd s') = Date_now w.
Proof.
  intros (Hown & Hs & Hm & Hc & Hfl). cbn [fst snd] in *.
  assert (Hts : timers (snd (_resetSilenceTimeout (c, w)))
          = filter (kept (countdownInterval c))
              (filter (kept (maxSilenceTimeout c))
                 (filter (kept (silenceTimeout c)) (timers w)
                  ++ [short_timer (next_timer w)
                        (Date_now w + timer_delay (silenceDuration (config c)))]))).
  { unfold _resetSilenceTimeout, setTimeout, short_timer. cbn [fst snd].
    destruct (silenceTimeout c), (maxSilenceTimeout c) eqn:E2,
      (countdownInterval c) eqn:E3;
      cbn [maxSilenceTimeout countdownInterval set_silenceTimeout
           set_maxSilenceTimeout]; rewrite ?E2;
      cbn [maxSilenceTimeout countdownInterval set_silenceTimeout
           set_maxSilenceTimeout]; rewrite ?E3;
      cbn [fst snd timers next_timer Date_now set_timers set_next_timer clearTimeout
           clearInterval kept]; rewrite ?filter_true; reflexivity. }
  cbn zeta. split.
  { rewrite Hts, !filter_app, (owned_timers_cleared Hown). cbn [app filter].
    rewrite kept_fresh by exact Hm. cbn [filter].
    rewrite kept_fresh by exact Hc. reflexivity. }
  unfold _resetSilenceTimeout, setTimeout. cbn [fst snd].
  destruct (silenceTimeout c), (maxSilenceTimeout c) eqn:E2,
    (countdownInterval c) eqn:E3;
    cbn [maxSilenceTimeout countdownInterval set_silenceTimeout
         set_maxSilenceTimeout]; rewrite ?E2;
    cbn [maxSilenceTimeout countdownInterval set_silenceTimeout
         set_maxSilenceTimeout]; rewrite ?E3;
    repeat split;
    cbn [fst snd countdownInterval maxSilenceTimeout set_maxSilenceTimeout
         set_silenceTimeout set_silenceCountdown set_countdownInterval];
    assumption.
Qed.
(** The invariant reads only the timer table, the three handles and the
    two speech flags. *)
Lemma timers_wf_ext (s s' : Sys) :
  timers (snd s') = timers (snd s) ->
  next_timer (snd s') = next_timer (snd s) ->
  silenceTimeout (fst s') = silenceTimeout (fst s) ->
  maxSilenceTimeout (fst s') = maxSilenceTimeout (fst s) ->
  countdownInterval (fst s') = countdownInterval (fst s) ->
  activeStreaming (fst s') = activeStreaming (fst s) ->
  isActivelySpeaking (fst s') = isActivelySpeaking (fst s) ->
  timers_wf s -> timers_wf s'.
Proof.
  intros Ht Hn H1 H2 H3 H4 H5 (Hown & Hs & Hm & Hc & Hfl).
  unfold timers_wf. rewrite Ht, Hn, H1, H2, H3, H4, H5.
  repeat split; try assumption.
  revert Hown. apply Forall_impl. intros t. unfold timer_owned.
  rewrite H1, H2, H3. exact (fun H => H).
Qed.

Lemma resetSilenceTimeout_preserves_wf (s : Sys) :
  timers_wf s -> timers_wf (_resetSilenceTimeout s).
Proof.
  intros Hwf. destruct s as [c w].
  destruct (resetSilenceTimeout_spec Hwf)
    as (Ht & Hn & H1 & H2 & H3 & H4 & H5 & _).
  destruct Hwf as (_ & _ & _ & _ & Hfl). cbn [fst] in Hfl.
  unfold timers_wf. rewrite Ht, Hn, H1, H2, H3, H4, H5.
  repeat split; cbn [below]; try lia; try assumption.
  constructor; [|constructor].
  unfold timer_owned. cbn [short_timer task timer_id]. exact H1.
Qed.

Lemma processAudioData_timers (inputData : list float) (s : Sys) :
  fst (_processAudioData inputData s) = fst s
  /\ timers (snd (_processAudioData inputData s)) = timers (snd s)
  /\ next_timer (snd (_processAudioData inputData s)) = next_timer (snd s)
  /\ effects (snd (_processAudioData inputData s)) = effects (snd s)
  /\ Date_now (snd (_processAudioData inputData s)) = Date_now (snd s).
Proof.
  unfold _processAudioData. destruct (customStream (fst s)); repeat split.
Qed.

Lemma enqueue_frame_preserves_wf (inputData : list float) (s : Sys) :
  timers_wf s ->
  timers_wf match customStream (fst s) with
            | Some _ => _processAudioData inputData s
            | None => s
            end.
Proof.
  intros Hwf. destruct (customStream (fst s)); [|exact Hwf].
  destruct (processAudioData_timers inputData s) as (Hc & Ht & Hn & _).
  apply (@timers_wf_ext s (_processAudioData inputData s)); try assumption;
    rewrite Hc; reflexivity.
Qed.

Lemma onaudioprocess_preserves_wf (inputData : list float) (s : Sys) :
  timers_wf s -> timers_wf (onaudioprocess inputData s).
Proof.
  intros Hwf. unfold onaudioprocess.
  apply enqueue_frame_preserves_wf.
  destruct (_detectVoiceActivity (vadThreshold (config (fst s))) inputData);
    cbn [andb]; [|exact Hwf].
  destruct (activeStreaming (fst s)) eqn:Ha; cbn [negb].
  - apply resetSilenceTimeout_preserves_wf, Hwf.
  - match goal with |- timers_wf (on_world ?f (on_world ?g ?r)) =>
      apply (@timers_wf_ext r (on_world f (on_world g r))); try reflexivity end.
    apply resetSilenceTimeout_preserves_wf.
    destruct Hwf as (Hown & Hs & Hm & Hc & Hfl).
    unfold timers_wf. cbn [on_client fst snd]. repeat split; try assumption.
Qed.

Lemma clearTimeout_preserves_wf (id : TimerId) (s : Sys) :
  timers_wf s -> timers_wf (on_world (clearTimeout id) s).
Proof.
  intros (Hown & Hs & Hm & Hc & Hfl). unfold timers_wf.
  cbn [on_world fst snd clearTimeout set_timers timers next_timer].
  repeat split; try assumption. apply Forall_filter_weaken, Hown.
Qed.

Lemma reschedule_preserves_wf (id : TimerId) (period : Z) (s : Sys) :
  timers_wf s -> timers_wf (on_world (reschedule id period) s).
Proof.
  intros (Hown & Hs & Hm & Hc & Hfl). unfold timers_wf.
  cbn [on_world fst snd reschedule set_timers timers next_timer].
  repeat split; try assumption.
  apply Forall_forall. intros t' Hin. apply in_map_iff in Hin.
  destruct Hin as [t [<- Hin]]. rewrite Forall_forall in Hown.
  specialize (Hown t Hin). destruct (Pos.eqb (timer_id t) id); exact Hown.
Qed.

Lemma run_task_preserves_wf (t : TimerTask) (s : Sys) :
  timers_wf s -> timers_wf (run_task t s).
Proof.
  destruct t; cbn [run_task];
    auto using handleSilence_preserves_wf, stop_preserves_wf,
      countdown_tick_preserves_wf.
Qed.

Lemma fire_preserves_wf (t : Timer) (s : Sys) :
  timers_wf s -> timers_wf (fire t s).
Proof.
  intros Hwf. unfold fire. destruct (pending (timer_id t) (snd s)); [|exact Hwf].
  apply run_task_preserves_wf.
  destruct (every t);
    [apply reschedule_preserves_wf | apply clearTimeout_preserves_wf]; exact Hwf.
Qed.

Lemma fold_fire_preserves_wf (due_now : list Timer) :
  forall s, timers_wf s -> timers_wf (fold_left (fun s t => fire t s) due_now s).
Proof.
  induction due_now as [|t l IH]; intros s Hwf; cbn [fold_left]; [exact Hwf|].
  apply IH, fire_preserves_wf, Hwf.
Qed.

Lemma tick_preserves_wf (s : Sys) : timers_wf s -> timers_wf (tick s).
Proof.
  intros Hwf. unfold tick. apply fold_fire_preserves_wf.
  apply (@timers_wf_ext s _); try reflexivity. exact Hwf.
Qed.


(** *** What leaves the timers and the count of onSpeechEnd calls alone *)

Lemma speech_ends_app (a b : list Effect) :
  speech_ends (a ++ b) = speech_ends a + speech_ends b.
Proof.
  induction a as [|e a IH]; [reflexivity|].
  cbn [app speech_ends]. destruct e; rewrite IH; reflexivity.
Qed.

Lemma speech_ends_emit (e : Effect) (w : World) :
  speech_ends (effects (emit e w)) = speech_ends (effects w) + is_speech_end e.
Proof.
  cbn [emit effects]. rewrite speech_ends_app. destruct e; reflexivity.
Qed.

Lemma effects_clear_handle (o : option TimerId) (w : World) :
  effects (clear_handle o w) = effects w.
Proof. destruct o; reflexivity. Qed.

Lemma stop_speech_ends (s : Sys) :
  speech_ends (effects (snd (stop s))) = speech_ends (effects (snd s)).
Proof.
  unfold stop. cbn [snd]. rewrite speech_ends_emit. cbn [is_speech_end].
  rewrite !effects_clear_handle.
  assert (Hrel : forall x e w, is_speech_end e = 0 ->
            speech_ends (effects (release x e w)) = speech_ends (effects w)).
  { intros x e w He. destruct x; [|reflexivity]. cbn [release].
    rewrite speech_ends_emit, He. apply Nat.add_0_r. }
  rewrite !Hrel by reflexivity.
  assert (Hcl : forall x w,
            speech_ends (effects (close_customStream x w)) = speech_ends (effects w)).
  { intros x w. destruct x; [|reflexivity]. cbn [close_customStream].
    rewrite speech_ends_emit. cbn [is_speech_end set_audioStream effects]. apply Nat.add_0_r. }
  rewrite Hcl. unfold record_usage.
  destruct (startTime (fst s)) as [t|]; [destruct (truthy_int t)|];
    rewrite ?effects_storeMinutesUsed; apply Nat.add_0_r.
Qed.

Lemma process_event_timers (event : TranscriptionResult) (s : Sys) :
  let s' := process_event event s in
  timers (snd s') = timers (snd s)
  /\ next_timer (snd s') = next_timer (snd s)
  /\ Date_now (snd s') = Date_now (snd s)
  /\ silenceTimeout (fst s') = silenceTimeout (fst s)
  /\ maxSilenceTimeout (fst s') = maxSilenceTimeout (fst s)
  /\ countdownInterval (fst s') = countdownInterval (fst s)
  /\ activeStreaming (fst s') = activeStreaming (fst s)
  /\ isActivelySpeaking (fst s') = isActivelySpeaking (fst s)
  /\ config (fst s') = config (fst s)
  /\ speech_ends (effects (snd s')) = speech_ends (effects (snd s)).
Proof.
  unfold process_event. destruct (first_result event) as [r|]; [|repeat split].
  destruct (is_partial r); unfold _handleTranscription; cbn [on_world on_client fst snd];
    rewrite speech_ends_emit; cbn [is_speech_end]; repeat split;
    apply Nat.add_0_r.
Qed.

Lemma process_error_timers (error : Thrown) (s : Sys) :
  let s' := process_error error s in
  timers (snd s') = timers (snd s)
  /\ next_timer (snd s') = next_timer (snd s)
  /\ Date_now (snd s') = Date_now (snd s)
  /\ silenceTimeout (fst s') = silenceTimeout (fst s)
  /\ maxSilenceTimeout (fst s') = maxSilenceTimeout (fst s)
  /\ countdownInterval (fst s') = countdownInterval (fst s)
  /\ activeStreaming (fst s') = activeStreaming (fst s)
  /\ isActivelySpeaking (fst s') = isActivelySpeaking (fst s)
  /\ config (fst s') = config (fst s)
  /\ speech_ends (effects (snd s')) = speech_ends (effects (snd s)).
Proof.
  assert (H : forall msg,
            let s' := on_world (emit (CallOnError msg)) s in
            timers (snd s') = timers (snd s)
            /\ next_timer (snd s') = next_timer (snd s)
            /\ Date_now (snd s') = Date_now (snd s)
            /\ silenceTimeout (fst s') = silenceTimeout (fst s)
            /\ maxSilenceTimeout (fst s') = maxSilenceTimeout (fst s)
            /\ countdownInterval (fst s') = countdownInterval (fst s)
            /\ activeStreaming (fst s') = activeStreaming (fst s)
            /\ isActivelySpeaking (fst s') = isActivelySpeaking (fst s)
            /\ config (fst s') = config (fst s)
            /\ speech_ends (effects (snd s')) = speech_ends (effects (snd s))).
  { intros msg. cbn [on_world fst snd]. rewrite speech_ends_emit.
    cbn [is_speech_end]. repeat split. apply Nat.add_0_r. }
  unfold process_error. destruct (is_AbortError error); [repeat split | apply H].
Qed.

Lemma resetTranscript_timers (s : Sys) :
  let s' := resetTranscript s in
  timers (snd s') = timers (snd s)
  /\ next_timer (snd s') = next_timer (snd s)
  /\ Date_now (snd s') = Date_now (snd s)
  /\ silenceTimeout (fst s') = silenceTimeout (fst s)
  /\ maxSilenceTimeout (fst s') = maxSilenceTimeout (fst s)
  /\ countdownInterval (fst s') = countdownInterval (fst s)
  /\ activeStreaming (fst s') = activeStreaming (fst s)
  /\ isActivelySpeaking (fst s') = isActivelySpeaking (fst s)
  /\ config (fst s') = config (fst s)
  /\ speech_ends (effects (snd s')) = speech_ends (effects (snd s)).
Proof. repeat split. Qed.

(** A frame without speech reaches the stream and nothing else. *)
Lemma silent_frame_timers (inputData : list float) (s : Sys) :
  _detectVoiceActivity (vadThreshold (config (fst s))) inputData = false ->
  let s' := onaudioprocess inputData s in
  timers (snd s') = timers (snd s)
  /\ next_timer (snd s') = next_timer (snd s)
  /\ Date_now (snd s') = Date_now (snd s)
  /\ silenceTimeout (fst s') = silenceTimeout (fst s)
  /\ maxSilenceTimeout (fst s') = maxSilenceTimeout (fst s)
  /\ countdownInterval (fst s') = countdownInterval (fst s)
  /\ activeStreaming (fst s') = activeStreaming (fst s)
  /\ isActivelySpeaking (fst s') = isActivelySpeaking (fst s)
  /\ config (fst s') = config (fst s)
  /\ speech_ends (effects (snd s')) = speech_ends (effects (snd s)).
Proof.
  intros Hv. unfold onaudioprocess. rewrite Hv. cbn [andb].
  destruct (customStream (fst s)); [|repeat split].
  destruct (processAudioData_timers inputData s) as (Hc & Ht & Hn & He & Hd).
  cbn zeta. rewrite Hc, Ht, Hn, He, Hd. repeat split.
Qed.
Section ReachableTimers.

Variable JSON_parse : string -> Thrown + TranscribeCredentials.
Variable JSON_stringify : TranscribeCredentials -> string.

Lemma getCredentials_timers (p : option TranscribeCredentialsProvider) (w : World) :
  let w' := snd (AWSCredentials_getCredentials JSON_parse JSON_stringify p w) in
  timers w' = timers w /\ next_timer w' = next_timer w.
Proof.
  unfold AWSCredentials_getCredentials, AWSCredentials_loadStoredCredentials,
    fetch_fresh, AWSCredentials_storeCredentials.
  destruct p as [p|]; [|split; reflexivity].
  destruct (localStorage w) as [store|] eqn:Els.
  - destruct (aws_transcribe_credentials store) as [stored|].
    + destruct (negb (truthy_string stored)).
      * destruct (p (getMinutesUsed w)); cbn [snd set_provider_calls localStorage];
          rewrite ?Els; split; reflexivity.
      * destruct (JSON_parse stored) as [e|c]; [split; reflexivity|].
        destruct (still_valid c w); [split; reflexivity|].
        destruct (p (getMinutesUsed w)); cbn [snd set_provider_calls localStorage];
          rewrite ?Els; split; reflexivity.
    + destruct (p (getMinutesUsed w)); cbn [snd set_provider_calls localStorage];
        rewrite ?Els; split; reflexivity.
  - destruct (p (getMinutesUsed w)); cbn [snd set_provider_calls localStorage];
      rewrite ?Els; split; reflexivity.
Qed.

(** The [try] block of start() touches no timer and neither speech flag. *)
Lemma start_try_timers (env : StartEnv) (s : Sys) :
  let s1 := snd (start_try JSON_parse JSON_stringify env s) in
  timers (snd s1) = timers (snd s)
  /\ next_timer (snd s1) = next_timer (snd s)
  /\ silenceTimeout (fst s1) = silenceTimeout (fst s)
  /\ maxSilenceTimeout (fst s1) = maxSilenceTimeout (fst s)
  /\ countdownInterval (fst s1) = countdownInterval (fst s)
  /\ activeStreaming (fst s1) = activeStreaming (fst s)
  /\ isActivelySpeaking (fst s1) = isActivelySpeaking (fst s).
Proof.
  destruct env as [e1 e2 e3 e4 e5 e6 e7 e8 e9].
  unfold start_try, bind, external, perform, throw, ret, _createTranscribeClient.
  cbn [getUserMedia new_AudioContext createMediaStreamSource createScriptProcessor
       sourceNode_connect processorNode_connect new_TranscribeStreamingClient
       call_generateSessionId transcribeClient_send].
  destruct e1; [repeat split|]. destruct e2; [repeat split|].
  destruct e3; [repeat split|]. destruct e4; [repeat split|].
  destruct e5; [repeat split|]. destruct e6; [repeat split|].
  cbn [fst snd on_client config set_stream set_audioContext set_sourceNode
       set_processorNode].
  pose proof (getCredentials_timers (credentialsProvider (config (fst s))) (snd s))
    as [Ht Hn]. cbn zeta in Ht, Hn.
  destruct (AWSCredentials_getCredentials _ _ _ _) as [[e|c] w]; cbn [snd] in Ht, Hn;
    [repeat split; assumption|].
  destruct e7; [repeat split; assumption|].
  destruct e8; [repeat split; assumption|].
  destruct e9; repeat split; assumption.
Qed.

Lemma start_preserves_wf (env : StartEnv) (s : Sys) :
  timers_wf s -> timers_wf (snd (start JSON_parse JSON_stringify env s)).
Proof.
  intros Hwf. unfold start.
  destruct (isListening (fst s)); [exact Hwf|].
  destruct (negb (browserSupported (fst s)));
    [apply (@timers_wf_ext s _); try reflexivity; exact Hwf|].
  destruct (AudioContextClass (fst s));
    [|apply (@timers_wf_ext s _); try reflexivity; exact Hwf].
  unfold try_catch.
  pose proof (start_try_timers env s) as (Ht & Hn & H1 & H2 & H3 & H4 & H5).
  cbn zeta in *.
  destruct (start_try JSON_parse JSON_stringify env s) as [[e|a] s1];
    cbn [snd] in *.
  - rewrite start_catch_spec. cbn [snd]. unfold rolled_back.
    apply stop_preserves_wf.
    apply (@timers_wf_ext s _); try assumption.
  - apply (@timers_wf_ext s s1); assumption.
Qed.

Lemma step_preserves_wf (s : Sys) (i : Input) :
  timers_wf s -> timers_wf (step JSON_parse JSON_stringify s i).
Proof.
  intros Hwf. destruct i; cbn [step].
  - apply tick_preserves_wf, Hwf.
  - apply onaudioprocess_preserves_wf, Hwf.
  - destruct (process_event_timers event s) as (Ht & Hn & _ & H1 & H2 & H3 & H4 & H5 & _).
    apply (@timers_wf_ext s _); assumption.
  - destruct (process_error_timers error s) as (Ht & Hn & _ & H1 & H2 & H3 & H4 & H5 & _).
    apply (@timers_wf_ext s _); assumption.
  - apply (@timers_wf_ext s _); try reflexivity. exact Hwf.
  - apply start_preserves_wf, Hwf.
  - apply stop_preserves_wf, Hwf.
  - unfold toggle. destruct (isListening (fst s)).
    + cbn [ret snd]. apply stop_preserves_wf, Hwf.
    + apply start_preserves_wf, Hwf.
Qed.

Lemma run_preserves_wf (inputs : list Input) :
  forall s, timers_wf s -> timers_wf (run JSON_parse JSON_stringify inputs s).
Proof.
  induction inputs as [|i inputs IH]; intros s Hwf; [exact Hwf|].
  cbn [run fold_left]. apply IH, step_preserves_wf, Hwf.
Qed.

Lemma initial_wf (p : Platform) (options : TranscribeOptions) (now : Z)
  (store : option Storage) : timers_wf (initial p options now store).
Proof. unfold timers_wf. cbn. repeat split. constructor. Qed.

(** Every state a controller can reach keeps its timers owned. *)
Lemma reachable_wf (s : Sys) :
  reachable JSON_parse JSON_stringify s -> timers_wf s.
Proof.
  intros (p & options & now & store & inputs & ->).
  apply run_preserves_wf, initial_wf.
Qed.

End ReachableTimers.
(** *** From the speech frame to the expiry of the short timer *)

Lemma waiting_tick_early (cfg : Config) (k : TimerId) (deadline : Z) (s : Sys) :
  waiting cfg k deadline s -> (Date_now (snd s) + 1 < deadline)%Z ->
  waiting cfg k deadline (tick s)
  /\ Date_now (snd (tick s)) = (Date_now (snd s) + 1)%Z
  /\ speech_ends (effects (snd (tick s))) = speech_ends (effects (snd s)).
Proof.
  intros (Ht & Hd & Hn & Ha & Hs & Hm & Hc) Hr.
  assert (E : tick s = (fst s, set_Date_now (Date_now (snd s) + 1) (snd s))).
  { unfold tick, on_world. cbn [fst snd set_Date_now timers Date_now]. rewrite Ht.
    cbn [filter short_timer due].
    destruct (Z.leb_spec deadline (Date_now (snd s) + 1)); [lia|].
    reflexivity. }
  rewrite E. unfold waiting. cbn [fst snd set_Date_now timers Date_now next_timer effects].
  repeat split; assumption.
Qed.

(** The tick that reaches the deadline runs _handleSilence. *)
Lemma waiting_tick_fires (cfg : Config) (k : TimerId) (deadline : Z) (s : Sys) :
  waiting cfg k deadline s -> (Date_now (snd s) + 1 = deadline)%Z ->
  armed cfg (Pos.succ k) deadline (tick s)
  /\ resting cfg (tick s)
  /\ config (fst (tick s)) = cfg
  /\ speech_ends (effects (snd (tick s))) = S (speech_ends (effects (snd s))).
Proof.
  intros (Ht & Hd & Hn & Ha & Hs & Hm & Hc) Hnow.
  destruct s as [c w]. cbn [fst snd] in *.
  assert (E : tick (c, w)
          = _handleSilence (c, set_timers [] (set_Date_now (Date_now w + 1) w))).
  { unfold tick, on_world. cbn [fst snd set_Date_now timers Date_now]. rewrite Ht.
    cbn [filter short_timer due]. rewrite Hnow, Z.leb_refl. cbn [fold_left].
    unfold fire, pending.
    cbn [short_timer timer_id every task fst snd set_Date_now timers].
    rewrite Ht. cbn [existsb timer_id short_timer]. rewrite Pos.eqb_refl.
    cbn [orb run_task]. unfold clearTimeout, on_world.
    cbn [fst snd timers set_timers set_Date_now].
    rewrite Ht. cbn [filter timer_id short_timer]. rewrite Pos.eqb_refl. cbn [negb].
    reflexivity. }
  rewrite E, (@handleSilence_arms c _ Ha Hm).
  cbn [timers next_timer set_timers set_Date_now Date_now app]. rewrite Hn, Hc, Hnow.
  split; [|split; [|split]].
  - unfold armed. cbn [fst snd timers set_next_timer set_timers maxSilenceTimeout
      countdownInterval activeStreaming isActivelySpeaking set_countdownInterval
      set_maxSilenceTimeout set_isActivelySpeaking set_activeStreaming].
    repeat split.
  - unfold resting. cbn [fst snd timers set_next_timer set_timers isActivelySpeaking
      config set_countdownInterval set_maxSilenceTimeout set_isActivelySpeaking
      set_activeStreaming].
    split; [|split; [reflexivity | exact Hc]].
    repeat constructor; discriminate.
  - exact Hc.
  - cbn [snd set_next_timer set_timers effects]. rewrite !speech_ends_emit.
    unfold state_update. cbn [set_timers set_Date_now effects is_speech_end]. lia.
Qed.

(** *** After the expiry *)

Lemma countdown_tick_resting (cfg : Config) (startTime : Z) (s : Sys) :
  resting cfg s ->
  resting cfg (countdown_tick startTime s)
  /\ speech_ends (effects (snd (countdown_tick startTime s)))
     = speech_ends (effects (snd s)).
Proof.
  intros (Hts & Hsp & Hc). unfold countdown_tick.
  cbn [config set_silenceCountdown countdownInterval isListening].
  destruct (maxSilenceDuration (config (fst s)) <=? Date_now (snd s) - startTime)%Z;
    [destruct (countdownInterval (fst s))|];
    unfold resting, clearInterval, clearTimeout, state_update;
    cbn [fst snd timers set_timers emit effects isActivelySpeaking config
         set_silenceCountdown set_countdownInterval];
    rewrite ?speech_ends_app; cbn [speech_ends];
    (split; [split; [try apply Forall_filter_weaken; exact Hts | split; assumption]
            | lia]).
Qed.

Lemma stop_resting (cfg : Config) (s : Sys) :
  resting cfg s ->
  resting cfg (stop s)
  /\ speech_ends (effects (snd (stop s))) = speech_ends (effects (snd s)).
Proof.
  intros (Hts & Hsp & Hc). split; [|apply stop_speech_ends].
  unfold resting. destruct (stop_timers s) as [Ht _]. rewrite Ht.
  rewrite !timers_clear_handle_kept. cbn [set_timers timers].
  split; [|split; [reflexivity | exact Hc]].
  repeat apply Forall_filter_weaken. exact Hts.
Qed.

Lemma fire_resting (cfg : Config) (t : Timer) (s : Sys) :
  task t <> HandleSilence -> resting cfg s ->
  resting cfg (fire t s)
  /\ speech_ends (effects (snd (fire t s))) = speech_ends (effects (snd s)).
Proof.
  intros Ht Hr. unfold fire.
  destruct (pending (timer_id t) (snd s)); [|split; [exact Hr | reflexivity]].
  set (s1 := on_world _ s).
  assert (Hr1 : resting cfg s1 /\ effects (snd s1) = effects (snd s)).
  { destruct Hr as (Hts & Hsp & Hc). subst s1. unfold resting, on_world.
    destruct (every t); cbn [fst snd reschedule clearTimeout set_timers timers effects].
    - split; [|reflexivity]. split; [|split; assumption].
      apply Forall_forall. intros t' Hin. apply in_map_iff in Hin.
      destruct Hin as [t0 [<- Hin]]. rewrite Forall_forall in Hts.
      specialize (Hts t0 Hin). destruct (Pos.eqb (timer_id t0) (timer_id t)); exact Hts.
    - split; [|reflexivity]. split; [|split; assumption].
      apply Forall_filter_weaken, Hts. }
  destruct Hr1 as [Hr1 He]. rewrite <- He.
  destruct (task t); cbn [run_task].
  - exfalso. apply Ht. reflexivity.
  - apply stop_resting, Hr1.
  - apply countdown_tick_resting, Hr1.
Qed.

Lemma fold_fire_resting (cfg : Config) (due_now : list Timer) :
  Forall (fun t => task t <> HandleSilence) due_now ->
  forall s, resting cfg s ->
    resting cfg (fold_left (fun s t => fire t s) due_now s)
    /\ speech_ends (effects (snd (fold_left (fun s t => fire t s) due_now s)))
       = speech_ends (effects (snd s)).
Proof.
  induction 1 as [|t l Ht Hl IH]; intros s Hr; cbn [fold_left];
    [split; [exact Hr | reflexivity]|].
  destruct (@fire_resting cfg t s Ht Hr) as [Hr1 He1].
  destruct (IH _ Hr1) as [Hr2 He2]. split; [exact Hr2 | congruence].
Qed.

Lemma tick_resting (cfg : Config) (s : Sys) :
  resting cfg s ->
  resting cfg (tick s)
  /\ speech_ends (effects (snd (tick s))) = speech_ends (effects (snd s)).
Proof.
  intros Hr. unfold tick.
  set (s0 := on_world _ s).
  assert (Hr0 : resting cfg s0) by exact Hr.
  change (speech_ends (effects (snd s))) with (speech_ends (effects (snd s0))).
  apply fold_fire_resting; [|exact Hr0].
  apply Forall_filter_weaken. destruct Hr0 as [H _]. exact H.
Qed.
(** The inputs up to the last tick, that tick, and the rest. *)
Lemma ticks_split (inputs : list Input) :
  forall n, ticks inputs = S n ->
  exists a b, inputs = a ++ Tick :: b /\ ticks a = n /\ ticks b = 0.
Proof.
  induction inputs as [|i inputs IH]; intros n Hn; [discriminate|].
  destruct (ticks inputs) as [|m] eqn:Em.
  - destruct i; cbn [ticks] in Hn; rewrite ?Em in Hn; try discriminate.
    injection Hn as <-. exists [], inputs. repeat split. exact Em.
  - destruct (IH m eq_refl) as (a & b & -> & Ha & Hb).
    exists (i :: a), b. split; [reflexivity|]. split; [|exact Hb].
    destruct i; cbn [ticks] in *; rewrite ?Em in Hn; lia.
Qed.

Section SilenceTimer.

Variable JSON_parse : string -> Thrown + TranscribeCredentials.
Variable JSON_stringify : TranscribeCredentials -> string.

Lemma run_cons (i : Input) (inputs : list Input) (s : Sys) :
  run JSON_parse JSON_stringify (i :: inputs) s
  = run JSON_parse JSON_stringify inputs (step JSON_parse JSON_stringify s i).
Proof. reflexivity. Qed.

Lemma run_app (a b : list Input) (s : Sys) :
  run JSON_parse JSON_stringify (a ++ b) s
  = run JSON_parse JSON_stringify b (run JSON_parse JSON_stringify a s).
Proof. apply fold_left_app. Qed.

(** While the speaker is silent, everything but the clock leaves timers,
    flags, configuration and the count of [onSpeechEnd] calls alone. *)
Lemma quiet_step_timers (cfg : Config) (i : Input) (s : Sys) :
  config (fst s) = cfg -> quiet cfg i = true -> i <> Tick ->
  let s' := step JSON_parse JSON_stringify s i in
  timers (snd s') = timers (snd s)
  /\ next_timer (snd s') = next_timer (snd s)
  /\ Date_now (snd s') = Date_now (snd s)
  /\ silenceTimeout (fst s') = silenceTimeout (fst s)
  /\ maxSilenceTimeout (fst s') = maxSilenceTimeout (fst s)
  /\ countdownInterval (fst s') = countdownInterval (fst s)
  /\ activeStreaming (fst s') = activeStreaming (fst s)
  /\ isActivelySpeaking (fst s') = isActivelySpeaking (fst s)
  /\ config (fst s') = config (fst s)
  /\ speech_ends (effects (snd s')) = speech_ends (effects (snd s)).
Proof.
  intros Hc Hq Hi. destruct i; cbn [quiet] in Hq; try discriminate; cbn [step].
  - exfalso. apply Hi. reflexivity.
  - apply silent_frame_timers. rewrite Hc.
    destruct (_detectVoiceActivity (vadThreshold cfg) inputData);
      [discriminate | reflexivity].
  - apply process_event_timers.
  - apply process_error_timers.
  - apply resetTranscript_timers.
Qed.

Lemma waiting_quiet_step (cfg : Config) (k : TimerId) (deadline : Z) (i : Input)
  (s : Sys) :
  waiting cfg k deadline s -> quiet cfg i = true -> i <> Tick ->
  waiting cfg k deadline (step JSON_parse JSON_stringify s i)
  /\ Date_now (snd (step JSON_parse JSON_stringify s i)) = Date_now (snd s)
  /\ speech_ends (effects (snd (step JSON_parse JSON_stringify s i)))
     = speech_ends (effects (snd s)).
Proof.
  intros (Ht & Hd & Hn & Ha & Hs & Hm & Hc) Hq Hi.
  destruct (@quiet_step_timers cfg i s Hc Hq Hi)
    as (E1 & E2 & E3 & E4 & E5 & E6 & E7 & E8 & E9 & E10).
  cbn zeta in *. split; [|split; [exact E3 | exact E10]].
  unfold waiting. rewrite E1, E2, E3, E5, E7, E8, E9. repeat split; assumption.
Qed.

Lemma waiting_run (cfg : Config) (k : TimerId) (deadline : Z) (inputs : list Input) :
  forall s : Sys,
    waiting cfg k deadline s -> forallb (quiet cfg) inputs = true ->
    (Date_now (snd s) + Z.of_nat (ticks inputs) < deadline)%Z ->
    waiting cfg k deadline (run JSON_parse JSON_stringify inputs s)
    /\ Date_now (snd (run JSON_parse JSON_stringify inputs s))
       = (Date_now (snd s) + Z.of_nat (ticks inputs))%Z
    /\ speech_ends (effects (snd (run JSON_parse JSON_stringify inputs s)))
       = speech_ends (effects (snd s)).
Proof.
  induction inputs as [|i inputs IH]; intros s Hw Hq Hr.
  - cbn [ticks run fold_left]. rewrite Z.add_0_r.
    split; [exact Hw | split; reflexivity].
  - cbn [forallb] in Hq. apply andb_prop in Hq. destruct Hq as [Hqi Hq].
    rewrite run_cons.
    assert (Hi : i = Tick \/ i <> Tick) by (destruct i; auto; right; discriminate).
    destruct Hi as [-> | Hi].
    + cbn [ticks] in *. cbn [step].
      destruct (@waiting_tick_early cfg k deadline s Hw ltac:(lia)) as (Hw1 & Hd1 & He1).
      destruct (IH (tick s) Hw1 Hq ltac:(lia)) as (Hw2 & Hd2 & He2).
      split; [exact Hw2|]. split; [|etransitivity; [exact He2 | exact He1]].
      rewrite Hd2, Hd1. lia.
    + assert (Hn : ticks (i :: inputs) = ticks inputs)
        by (destruct i; try reflexivity; exfalso; apply Hi; reflexivity).
      rewrite Hn in *.
      destruct (@waiting_quiet_step cfg k deadline i s Hw Hqi Hi) as (Hw1 & Hd1 & He1).
      destruct (IH _ Hw1 Hq ltac:(rewrite Hd1; exact Hr)) as (Hw2 & Hd2 & He2).
      split; [exact Hw2|]. split; [|etransitivity; [exact He2 | exact He1]].
      rewrite Hd2, Hd1. reflexivity.
Qed.

Lemma resting_quiet_step (cfg : Config) (i : Input) (s : Sys) :
  resting cfg s -> quiet cfg i = true ->
  resting cfg (step JSON_parse JSON_stringify s i)
  /\ speech_ends (effects (snd (step JSON_parse JSON_stringify s i)))
     = speech_ends (effects (snd s)).
Proof.
  intros Hr Hq.
  assert (Hi : i = Tick \/ i <> Tick) by (destruct i; auto; right; discriminate).
  destruct Hi as [-> | Hi]; [apply tick_resting, Hr|].
  destruct Hr as (Hts & Hsp & Hc).
  destruct (@quiet_step_timers cfg i s Hc Hq Hi)
    as (E1 & E2 & E3 & E4 & E5 & E6 & E7 & E8 & E9 & E10).
  cbn zeta in *. split; [|exact E10].
  unfold resting. rewrite E1, E8, E9. repeat split; assumption.
Qed.

Lemma resting_run (cfg : Config) (inputs : list Input) :
  forall s : Sys,
    resting cfg s -> forallb (quiet cfg) inputs = true ->
    resting cfg (run JSON_parse JSON_stringify inputs s)
    /\ speech_ends (effects (snd (run JSON_parse JSON_stringify inputs s)))
       = speech_ends (effects (snd s)).
Proof.
  induction inputs as [|i inputs IH]; intros s Hr Hq;
    [split; [exact Hr | reflexivity]|].
  cbn [forallb] in Hq. apply andb_prop in Hq. destruct Hq as [Hqi Hq].
  rewrite run_cons.
  destruct (@resting_quiet_step cfg i s Hr Hqi) as [Hr1 He1].
  destruct (IH _ Hr1 Hq) as [Hr2 He2]. split; [exact Hr2 | etransitivity; [exact He2 | exact He1]].
Qed.

Lemma armed_quiet_run (cfg : Config) (id : TimerId) (since : Z) (inputs : list Input) :
  forall s : Sys,
    armed cfg id since s -> config (fst s) = cfg ->
    forallb (quiet cfg) inputs = true -> ticks inputs = 0 ->
    armed cfg id since (run JSON_parse JSON_stringify inputs s).
Proof.
  induction inputs as [|i inputs IH]; intros s Ha Hc Hq Hn; [exact Ha|].
  cbn [forallb] in Hq. apply andb_prop in Hq. destruct Hq as [Hqi Hq].
  rewrite run_cons.
  assert (Hi : i <> Tick) by (intros ->; discriminate Hn).
  assert (Hn' : ticks inputs = 0) by (destruct i; try exact Hn; discriminate Hn).
  destruct (@quiet_step_timers cfg i s Hc Hqi Hi)
    as (E1 & E2 & E3 & E4 & E5 & E6 & E7 & E8 & E9 & E10).
  cbn zeta in *.
  apply IH; try assumption; [|congruence].
  destruct Ha as (A1 & A2 & A3 & A4 & A5).
  unfold armed. rewrite E1, E5, E6, E7, E8. repeat split; assumption.
Qed.

(** A delay that fits 31 bits is waited for as given. *)
Lemma timer_delay_small (delay : Z) :
  (0 <= delay < 2147483648)%Z -> timer_delay delay = delay.
Proof.
  intros H. unfold timer_delay, ToInt32.
  rewrite Z.mod_small by lia. lia.
Qed.

(** A speech frame leaves the short timer armed, alone, [silenceDuration]
    ms ahead. *)
Lemma speech_frame_waits (cfg : Config) (frame : list float) (s : Sys) :
  timers_wf s -> config (fst s) = cfg ->
  _detectVoiceActivity (vadThreshold cfg) frame = true ->
  (0 < silenceDuration cfg < 2147483648)%Z ->
  waiting cfg (next_timer (snd s)) (Date_now (snd s) + silenceDuration cfg)
    (onaudioprocess frame s)
  /\ Date_now (snd (onaudioprocess frame s)) = Date_now (snd s).
Proof.
  intros Hwf Hc Hv Hd. unfold onaudioprocess. rewrite Hc, Hv. cbn [andb].
  set (s1 := if negb (activeStreaming (fst s)) then _ else _).
  assert (H1 : waiting cfg (next_timer (snd s))
                 (Date_now (snd s) + silenceDuration cfg) s1
               /\ Date_now (snd s1) = Date_now (snd s)).
  { subst s1. destruct s as [c w]. cbn [fst snd] in *.
    destruct (activeStreaming c) eqn:Ha; cbn [negb].
    - destruct (resetSilenceTimeout_spec Hwf)
        as (Ht & Hn & _ & H2 & _ & H4 & H5 & _ & H7 & _ & _ & H10).
      destruct Hwf as (_ & _ & _ & _ & Hfl). cbn [fst snd] in Hfl.
      unfold waiting. rewrite Ht, Hn, H2, H4, H5, H7, H10, Hc, Ha, <- Hfl, Ha.
      rewrite timer_delay_small by lia. repeat split. lia.
    - set (c1 := set_isActivelySpeaking true (set_activeStreaming true c)).
      assert (Hwf1 : timers_wf (c1, w)).
      { destruct Hwf as (Hown & Hs & Hm & Hcd & Hfl).
        unfold timers_wf. repeat split; assumption. }
      destruct (resetSilenceTimeout_spec Hwf1)
        as (Ht & Hn & _ & H2 & _ & H4 & H5 & _ & H7 & _ & _ & H10).
      unfold on_client, on_world. cbn [fst snd].
      fold c1. unfold waiting.
      cbn [fst snd emit timers next_timer Date_now].
      rewrite Ht, Hn, H2, H4, H5, H7, H10. cbn [c1 config activeStreaming
        isActivelySpeaking set_isActivelySpeaking set_activeStreaming Date_now].
      rewrite Hc, timer_delay_small by lia. repeat split. lia. }
  destruct H1 as [(Ht & Hdl & Hn & Ha & Hs & Hm & Hc1) Hd1].
  destruct (customStream (fst s1)); [|split; [repeat split; assumption | exact Hd1]].
  destruct (processAudioData_timers frame s1) as (Ec & Et & En & _ & Ed).
  unfold waiting. rewrite Ec, Et, En, Ed. split; [repeat split; assumption | exact Hd1].
Qed.

End SilenceTimer.

(** ** More on the stream bridge *)

Section StreamDelivery.

Import ReadableStream.

Local Open Scope list_scope.

Variable chunk : Type.

Implicit Types q : ReadableStream.t chunk.

Lemma values_of_app (a b : list (Resolver * IteratorResult chunk)) :
  values_of (a ++ b) = values_of a ++ values_of b.
Proof.
  induction a as [|[p [c|]] a IH]; cbn [app values_of]; rewrite ?IH; reflexivity.
Qed.

Lemma skipn_own_length {A : Type} (a b : list A) :
  skipn (List.length a) (a ++ b) = b.
Proof. induction a as [|x a IH]; [reflexivity | exact IH]. Qed.

Lemma values_of_all_done (ls : list Resolver) :
  values_of (map (fun listener => (listener, @Done chunk)) ls) = [].
Proof. induction ls as [|l ls IH]; [reflexivity | exact IH]. Qed.

Lemma deliveries_step (o : call chunk) q :
  wf q ->
  buffer q ++ accepted [o] q = handed_over q o ++ buffer (step q o).
Proof.
  intros [Hex Hcl]. destruct o as [c | | ]; cbn [accepted handed_over step app].
  - unfold enqueue. destruct (closed q) eqn:Ec.
    + rewrite skipn_all. cbn [values_of app]. rewrite app_nil_r. reflexivity.
    + destruct (listeners q) as [|l ls] eqn:El; cbn [settled buffer].
      * rewrite skipn_all. cbn [values_of app]. reflexivity.
      * destruct Hex as [Hb | Hl]; [|congruence].
        rewrite skipn_own_length, Hb. reflexivity.
  - cbn [close settled buffer]. rewrite skipn_own_length, values_of_all_done.
    rewrite app_nil_r. reflexivity.
  - unfold next. destruct (closed q && (List.length (buffer q) =? 0)%nat);
      [cbn [fst snd]; rewrite app_nil_r; reflexivity|].
    destruct (buffer q) as [|c rest]; cbn [fst snd buffer app];
      rewrite ?app_nil_r; reflexivity.
Qed.

Lemma deliveries_run (ops : list (call chunk)) :
  forall q, wf q ->
    buffer q ++ accepted ops q = deliveries ops q ++ buffer (run ops q).
Proof.
  induction ops as [|o ops IH]; intros q Hq.
  - cbn. rewrite app_nil_r. reflexivity.
  - cbn [accepted deliveries run fold_left].
    pose proof (deliveries_step o Hq) as Hs. cbn [accepted] in Hs.
    rewrite app_nil_r in Hs.
    rewrite app_assoc, Hs, <- !app_assoc. f_equal.
    apply IH, wf_step, Hq.
Qed.

(** [X1] From a fresh queue, under every interleaving of calls: the chunks
    handed to consumers so far, followed by the chunks still buffered, are
    exactly the chunks enqueued before any close, in the order they were
    enqueued.  Nothing is lost, duplicated or reordered. *)
Theorem stream_delivers_in_order (ops : list (call chunk)) :
  deliveries ops (@new chunk) ++ buffer (run ops (@new chunk))
  = accepted ops (@new chunk).
Proof.
  symmetry. exact (deliveries_run ops (wf_new chunk)).
Qed.

Lemma served_in_order_step (o : call chunk) q :
  map fst (settled q) ++ listeners q = seq 0 (issued q) ->
  map fst (settled (step q o)) ++ listeners (step q o) = seq 0 (issued (step q o)).
Proof.
  intros H. destruct o as [c | | ]; cbn [step].
  - unfold enqueue. destruct (closed q); [exact H|].
    destruct (listeners q) as [|l ls]; cbn [settled listeners issued]; [exact H|].
    rewrite map_app, <- app_assoc. exact H.
  - cbn [close settled listeners issued].
    rewrite map_app, map_map, app_nil_r. cbn [fst]. rewrite map_id. exact H.
  - unfold next. destruct (closed q && (List.length (buffer q) =? 0)%nat);
      [exact H|].
    destruct (buffer q); cbn [fst settled listeners issued]; [|exact H].
    rewrite app_assoc, H, seq_S. reflexivity.
Qed.

(** [X2] The pending promises are numbered in the order [next] created them.
    From a fresh queue, under every interleaving: the promises resolved so
    far, in resolution order, followed by the promises still waiting, are
    the promises created, in creation order.  So waiting consumers are
    answered first come, first served, and none is answered twice. *)
Theorem stream_waiters_served_in_order (ops : list (call chunk)) :
  let q := run ops (@new chunk) in
  map fst (settled q) ++ listeners q = seq 0 (issued q)
  /\ NoDup (map fst (settled q)).
Proof.
  assert (H : forall q0 : ReadableStream.t chunk,
            map fst (settled q0) ++ listeners q0 = seq 0 (issued q0) ->
            map fst (settled (run ops q0)) ++ listeners (run ops q0)
            = seq 0 (issued (run ops q0))).
  { induction ops as [|o ops IH]; intros q0 H0; [exact H0|].
    cbn [run fold_left]. apply IH, served_in_order_step, H0. }
  cbn zeta. specialize (H (@new chunk) eq_refl). split; [exact H|].
  pose proof (seq_NoDup (issued (run ops (@new chunk))) 0) as Hnd.
  rewrite <- H in Hnd. apply NoDup_app_remove_r in Hnd. exact Hnd.
Qed.

End StreamDelivery.

(** ** More on the credential cache *)

Lemma SFcompare_refl (x : spec_float) :
  x <> S754_nan -> SFcompare x x = Some Eq.
Proof.
  destruct x as [s | s | | s m e]; intros H; cbn [SFcompare].
  - reflexivity.
  - destruct s; reflexivity.
  - exfalso. apply H. reflexivity.
  - rewrite Z.compare_refl.
    assert (Hm : PosDef.Pos.compare_cont Eq m m = Eq) by apply Pos.compare_cont_refl.
    rewrite Hm. destruct s; reflexivity.
Qed.

Lemma ltb_irrefl (x : float) : (x <? x)%float = false.
Proof.
  rewrite FloatAxioms.ltb_spec. unfold SFltb.
  destruct (Prim2SF x) as [s | s | | s m e] eqn:E; try reflexivity.
  - destruct s; reflexivity.
  - rewrite SFcompare_refl by discriminate. reflexivity.
Qed.

Lemma is_nan_spec (x : float) : PrimFloat.is_nan x = true -> Prim2SF x = S754_nan.
Proof.
  unfold PrimFloat.is_nan. rewrite FloatAxioms.eqb_spec. unfold SFeqb.
  destruct (Prim2SF x) as [s | s | | s m e] eqn:E; try reflexivity.
  - discriminate.
  - destruct s; discriminate.
  - rewrite <- E at 1 2. rewrite E, SFcompare_refl by discriminate. discriminate.
Qed.

Lemma ltb_is_nan_r (t x : float) : PrimFloat.is_nan x = true -> (t <? x)%float = false.
Proof.
  intros H. rewrite FloatAxioms.ltb_spec, (is_nan_spec x H).
  unfold SFltb, SFcompare. destruct (Prim2SF t); reflexivity.
Qed.

Lemma SFcompare_swap (x y : spec_float) :
  SFcompare x y = Some Lt -> SFcompare y x = Some Gt.
Proof.
  destruct x as [sx|sx| |sx mx ex], y as [sy|sy| |sy my ey]; cbn [SFcompare];
    try discriminate; try (destruct sx, sy; (discriminate || reflexivity));
    try (destruct sx; (discriminate || reflexivity));
    try (destruct sy; (discriminate || reflexivity)).
  all: destruct sx, sy; try discriminate; try reflexivity.
  all: rewrite (Z.compare_antisym ex ey);
    assert (Hm : PosDef.Pos.compare_cont Eq my mx
                 = CompOpp (PosDef.Pos.compare_cont Eq mx my))
      by (symmetry; apply (Pos.compare_cont_antisym mx my Eq));
    rewrite Hm;
    destruct (ex ?= ey)%Z; cbn [CompOpp];
    destruct (PosDef.Pos.compare_cont Eq mx my); cbn [CompOpp];
    (discriminate || reflexivity).
Qed.

Lemma ltb_asym (x y : float) : (x <? y)%float = true -> (y <? x)%float = false.
Proof.
  rewrite !FloatAxioms.ltb_spec. unfold SFltb.
  destruct (SFcompare (Prim2SF x) (Prim2SF y)) as [[| |]|] eqn:E; try discriminate.
  intros _. rewrite (SFcompare_swap _ _ E). reflexivity.
Qed.

Section CredentialCache.

Variable JSON_parse : string -> Thrown + TranscribeCredentials.
Variable JSON_stringify : TranscribeCredentials -> string.

(** With nothing usable in the store, getCredentials is the provider call. *)
Lemma getCredentials_fetches (provider : TranscribeCredentialsProvider) (w : World) :
  (fst (AWSCredentials_loadStoredCredentials JSON_parse w) = inr None
   \/ exists c, fst (AWSCredentials_loadStoredCredentials JSON_parse w) = inr (Some c)
                /\ still_valid c w = false) ->
  AWSCredentials_getCredentials JSON_parse JSON_stringify (Some provider) w
  = fetch_fresh provider (AWSCredentials_storeCredentials JSON_stringify) w.
Proof.
  intros Hcase. unfold AWSCredentials_getCredentials.
  destruct (AWSCredentials_loadStoredCredentials JSON_parse w) as [r w1] eqn:Hload.
  cbn [fst] in Hcase.
  destruct Hcase as [-> | [c [-> Hv]]];
    rewrite (@load_ok_keeps_world JSON_parse w w1 _ Hload) in *.
  - reflexivity.
  - rewrite Hv. reflexivity.
Qed.

(** [X3] A stored credential is reused only while its expiration is
    strictly later than Date.now().  When the stored text parses to a
    credential for which that comparison is false, the provider is asked,
    once, with the stored usage, and what it delivers is returned.  The
    comparison is false for a credential that expired in the past, for one
    that expires at this very millisecond, and for one whose expiration is
    not a valid date. *)
Theorem stale_or_undated_credentials_refetched
  (provider : TranscribeCredentialsProvider) (w : World) (store : Storage)
  (stored : string) (c : TranscribeCredentials) :
  text_stored w store stored -> JSON_parse stored = inr c ->
  (number_of_Z (Date_now w) <? expiration c)%float = false ->
  let out := AWSCredentials_getCredentials JSON_parse JSON_stringify (Some provider) w in
  provider_calls (snd out) = (provider_calls w ++ [getMinutesUsed w])%list
  /\ (forall fresh, provider (getMinutesUsed w) = Resolves fresh -> fst out = inr fresh)
  /\ (forall now expires : float,
        (expires <? now)%float = true \/ expires = now
        \/ PrimFloat.is_nan expires = true ->
        (now <? expires)%float = false).
Proof.
  intros (Hls & Hst & Hne) Hp Hexp. cbn zeta.
  assert (Hload : fst (AWSCredentials_loadStoredCredentials JSON_parse w) = inr (Some c)).
  { unfold AWSCredentials_loadStoredCredentials.
    rewrite Hls, Hst, (truthy_string_text Hne), Hp. reflexivity. }
  rewrite (@getCredentials_fetches provider w
             (or_intror (ex_intro _ c (conj Hload Hexp)))).
  destruct (@fetch_fresh_spec JSON_stringify provider w) as [Hc Hr].
  split; [exact Hc|]. split.
  - intros fresh Hf. rewrite Hf in Hr. apply Hr.
  - intros now expires [H | [-> | H]].
    + apply ltb_asym, H.
    + apply ltb_irrefl.
    + apply ltb_is_nan_r, H.
Qed.

(** [X4] What the provider delivered is stored and serves the next call: when
    the stored text reads back as the credential and the credential has not
    expired by then, the second getCredentials returns it, changes nothing
    and does not ask the provider again. *)
Theorem fetched_credentials_served_from_store
  (provider : TranscribeCredentialsProvider) (w : World) (store : Storage)
  (c : TranscribeCredentials) (later : Z) :
  localStorage w = Some store ->
  (fst (AWSCredentials_loadStoredCredentials JSON_parse w) = inr None
   \/ exists old, fst (AWSCredentials_loadStoredCredentials JSON_parse w) = inr (Some old)
                  /\ still_valid old w = false) ->
  provider (getMinutesUsed w) = Resolves c ->
  truthy_string (JSON_stringify c) = true ->
  JSON_parse (JSON_stringify c) = inr c ->
  (number_of_Z later <? expiration c)%float = true ->
  let first := AWSCredentials_getCredentials JSON_parse JSON_stringify (Some provider) w in
  let w2 := set_Date_now later (snd first) in
  fst first = inr c
  /\ provider_calls (snd first) = (provider_calls w ++ [getMinutesUsed w])%list
  /\ AWSCredentials_getCredentials JSON_parse JSON_stringify (Some provider) w2
     = (inr c, w2).
Proof.
  intros Hls Hcase Hp Htr Hrt Hlater. cbn zeta.
  rewrite (@getCredentials_fetches provider w Hcase).
  unfold fetch_fresh. rewrite Hp. cbn [fst snd].
  unfold AWSCredentials_storeCredentials at 1 2.
  cbn [localStorage set_provider_calls]. rewrite Hls.
  cbn [provider_calls set_localStorage set_provider_calls].
  split; [reflexivity|]. split; [reflexivity|].
  unfold AWSCredentials_getCredentials, AWSCredentials_loadStoredCredentials.
  unfold AWSCredentials_storeCredentials.
  cbn [localStorage set_provider_calls]. rewrite Hls.
  cbn [localStorage set_localStorage set_Date_now set_provider_calls
       aws_transcribe_credentials setItem_credentials].
  rewrite Htr, Hrt. cbn [negb]. unfold still_valid.
  cbn [Date_now set_Date_now]. rewrite Hlater. reflexivity.
Qed.

(** [X5] The earlier revision's lookup (aws-transcribe-client.ts) and the class
    AWSCredentials agree on every store whose text, if any, parses. *)
Theorem credential_lookups_agree_on_parsable_store
  (provider : option TranscribeCredentialsProvider) (w : World) :
  (forall store stored e,
     localStorage w = Some store -> aws_transcribe_credentials store = Some stored ->
     truthy_string stored = true -> JSON_parse stored <> inl e) ->
  _getCredentials JSON_parse JSON_stringify provider w
  = AWSCredentials_getCredentials JSON_parse JSON_stringify provider w.
Proof.
  intros Hparse.
  unfold _getCredentials, AWSCredentials_getCredentials, loadStoredCredentials,
    AWSCredentials_loadStoredCredentials, storeCredentials.
  destruct provider as [p|]; [|reflexivity].
  destruct (localStorage w) as [store|] eqn:Hls; [|reflexivity].
  destruct (aws_transcribe_credentials store) as [stored|] eqn:Hst; [|reflexivity].
  destruct (truthy_string stored) eqn:Htr; [|reflexivity]. cbn [negb].
  destruct (JSON_parse stored) as [e|c] eqn:Hp; [|reflexivity].
  exfalso. exact (Hparse store stored e eq_refl Hst Htr Hp).
Qed.

(** [X6] The earlier revision on a stored text that does not parse: the entry
    is removed, the error is swallowed and the provider is asked; what it
    delivers is returned and stored. *)
Theorem earlier_lookup_recovers_from_unparsable_text
  (provider : TranscribeCredentialsProvider) (w : World) (store : Storage)
  (stored : string) (e : Thrown) (c : TranscribeCredentials) :
  localStorage w = Some store ->
  aws_transcribe_credentials store = Some stored ->
  truthy_string stored = true ->
  JSON_parse stored = inl e ->
  provider (getMinutesUsed w) = Resolves c ->
  let out := _getCredentials JSON_parse JSON_stringify (Some provider) w in
  fst out = inr c
  /\ provider_calls (snd out) = (provider_calls w ++ [getMinutesUsed w])%list
  /\ localStorage (snd out)
     = Some {| aws_transcribe_credentials := Some (JSON_stringify c);
               aws_transcribe_minutes_used := aws_transcribe_minutes_used store |}.
Proof.
  intros Hls Hst Htr Hp Hprov. cbn zeta.
  rewrite (@module_level_loader_swallows_parse_error JSON_parse JSON_stringify
             provider w store stored e Hls Hst Htr Hp).
  unfold fetch_fresh.
  assert (Hm : getMinutesUsed (set_localStorage (Some (removeItem_credentials store)) w)
               = getMinutesUsed w).
  { unfold getMinutesUsed. cbn [localStorage set_localStorage]. rewrite Hls.
    reflexivity. }
  rewrite Hm, Hprov. cbn [fst snd]. unfold storeCredentials, AWSCredentials_storeCredentials.
  cbn [localStorage set_localStorage set_provider_calls provider_calls].
  repeat split.
Qed.

End CredentialCache.

(** [X3] At a sample store whose credential expired at t = 2000, one
    second before the call. *)
Lemma stale_or_undated_credentials_witness :
  let w := new_World 3000
             (sample_store (sample_JSON_stringify (sample_credentials 2000%float))) in
  let out := AWSCredentials_getCredentials sample_JSON_parse sample_JSON_stringify
               (Some sample_provider) w in
  provider_calls (snd out) = (provider_calls w ++ [getMinutesUsed w])%list
  /\ (forall fresh, sample_provider (getMinutesUsed w) = Resolves fresh ->
                    fst out = inr fresh)
  /\ (forall now expires : float,
        (expires <? now)%float = true \/ expires = now
        \/ PrimFloat.is_nan expires = true ->
        (now <? expires)%float = false).
Proof.
  apply (@stale_or_undated_credentials_refetched
           sample_JSON_parse sample_JSON_stringify sample_provider
           (new_World 3000
              (sample_store (sample_JSON_stringify (sample_credentials 2000%float))))
           {| aws_transcribe_credentials :=
                Some (sample_JSON_stringify (sample_credentials 2000%float));
              aws_transcribe_minutes_used := Some 3%float |}
           (sample_JSON_stringify (sample_credentials 2000%float))
           (sample_credentials 2000%float)).
  - repeat split. vm_compute. discriminate.
  - vm_compute. reflexivity.
  - vm_compute. reflexivity.
Defined.

(** [X4] At an empty store and a provider whose credential lasts until t = 2000:
    fetched at t = 1000, served from the store at t = 1500. *)
Lemma fetched_credentials_witness :
  let provider := fun _ : float => Resolves (sample_credentials 2000%float) in
  let w := new_World 1000 empty_store in
  let first := AWSCredentials_getCredentials sample_JSON_parse sample_JSON_stringify
                 (Some provider) w in
  let w2 := set_Date_now 1500 (snd first) in
  fst first = inr (sample_credentials 2000%float)
  /\ provider_calls (snd first) = (provider_calls w ++ [getMinutesUsed w])%list
  /\ AWSCredentials_getCredentials sample_JSON_parse sample_JSON_stringify
       (Some provider) w2
     = (inr (sample_credentials 2000%float), w2).
Proof.
  apply (@fetched_credentials_served_from_store
           sample_JSON_parse sample_JSON_stringify
           (fun _ : float => Resolves (sample_credentials 2000%float))
           (new_World 1000 empty_store)
           {| aws_transcribe_credentials := None; aws_transcribe_minutes_used := None |}
           (sample_credentials 2000%float) 1500%Z).
  - reflexivity.
  - left. reflexivity.
  - reflexivity.
  - vm_compute. reflexivity.
  - vm_compute. reflexivity.
  - vm_compute. reflexivity.
Defined.

(** [X5] At a store whose text parses. *)
Lemma credential_lookups_agree_witness :
  let w := new_World 1000
             (sample_store (sample_JSON_stringify (sample_credentials 2000%float))) in
  _getCredentials sample_JSON_parse sample_JSON_stringify (Some sample_provider) w
  = AWSCredentials_getCredentials sample_JSON_parse sample_JSON_stringify
      (Some sample_provider) w.
Proof.
  apply (@credential_lookups_agree_on_parsable_store
           sample_JSON_parse sample_JSON_stringify (Some sample_provider)
           (new_World 1000
              (sample_store (sample_JSON_stringify (sample_credentials 2000%float))))).
  intros store stored e Hls Hst _. injection Hls as <-. injection Hst as <-.
  vm_compute. discriminate.
Defined.

(** [X6] At a sample store holding a text the parser rejects. *)
Lemma earlier_lookup_recovers_witness :
  let w := new_World 1000 (sample_store "not json") in
  let out := _getCredentials sample_JSON_parse sample_JSON_stringify
               (Some sample_provider) w in
  fst out = inr (sample_credentials 9000%float)
  /\ provider_calls (snd out) = (provider_calls w ++ [getMinutesUsed w])%list
  /\ localStorage (snd out)
     = Some {| aws_transcribe_credentials :=
                 Some (sample_JSON_stringify (sample_credentials 9000%float));
               aws_transcribe_minutes_used := Some 3%float |}.
Proof.
  apply (@earlier_lookup_recovers_from_unparsable_text
           sample_JSON_parse sample_JSON_stringify sample_provider
           (new_World 1000 (sample_store "not json"))
           {| aws_transcribe_credentials := Some "not json";
              aws_transcribe_minutes_used := Some 3%float |}
           "not json" (ErrorObject "SyntaxError" "Unexpected token")
           (sample_credentials 9000%float));
    reflexivity.
Defined.
(** ** Properties of every reachable state *)

Section StepInvariant.

Variable JSON_parse : string -> Thrown + TranscribeCredentials.
Variable JSON_stringify : TranscribeCredentials -> string.

Variable P : Sys -> Prop.

Hypothesis P_time : forall c w t, P (c, w) -> P (c, set_Date_now t w).
Hypothesis P_timers : forall c w l, P (c, w) -> P (c, set_timers l w).
Hypothesis P_handleSilence : forall s, P s -> P (_handleSilence s).
Hypothesis P_countdown : forall t s, P s -> P (countdown_tick t s).
Hypothesis P_stop : forall s, P s -> P (stop s).
Hypothesis P_audio : forall frame s, P s -> P (onaudioprocess frame s).
Hypothesis P_event : forall event s, P s -> P (process_event event s).
Hypothesis P_error : forall error s, P s -> P (process_error error s).
Hypothesis P_reset : forall s, P s -> P (resetTranscript s).
Hypothesis P_start :
  forall env s, P s -> P (snd (start JSON_parse JSON_stringify env s)).

Lemma fire_invariant (t : Timer) (s : Sys) : P s -> P (fire t s).
Proof.
  intros H. unfold fire. destruct (pending (timer_id t) (snd s)); [|exact H].
  assert (H1 : P (on_world (match every t with
                            | None => clearTimeout (timer_id t)
                            | Some period => reschedule (timer_id t) period
                            end) s)).
  { destruct s as [c w]. unfold on_world. cbn [fst snd].
    destruct (every t); apply P_timers; exact H. }
  destruct (task t); cbn [run_task]; auto.
Qed.

Lemma tick_invariant (s : Sys) : P s -> P (tick s).
Proof.
  intros H. unfold tick.
  match goal with |- P (fold_left _ ?l ?s0) =>
    assert (H0 : P s0) by (destruct s as [c w]; apply P_time; exact H);
    generalize l; revert H0; generalize s0 end.
  intros s0 H0 l. revert s0 H0.
  induction l as [|t l IH]; intros s0 H0; [exact H0|].
  cbn [fold_left]. apply IH, fire_invariant, H0.
Qed.

Lemma step_invariant (s : Sys) (i : Input) : P s -> P (step JSON_parse JSON_stringify s i).
Proof.
  intros H. destruct i; cbn [step]; auto using tick_invariant.
  unfold toggle. destruct (isListening (fst s)); [cbn [ret snd]; auto | auto].
Qed.

Lemma run_invariant (inputs : list Input) :
  forall s, P s -> P (run JSON_parse JSON_stringify inputs s).
Proof.
  induction inputs as [|i inputs IH]; intros s H; [exact H|].
  rewrite run_cons. apply IH, step_invariant, H.
Qed.

End StepInvariant.
Ltac start_cases env s :=
  let e1 := fresh "e" in let e2 := fresh "e" in let e3 := fresh "e" in
  let e4 := fresh "e" in let e5 := fresh "e" in let e6 := fresh "e" in
  let e7 := fresh "e" in let e8 := fresh "e" in let e9 := fresh "e" in
  let Hl := fresh "Hlistening" in let Hb := fresh "Hsupported" in
  let Ha := fresh "Hclass" in let ge := fresh "error" in let gc := fresh "credentials" in let gw := fresh "w" in let Hg := fresh "Hcredentials" in
  unfold start;
  destruct (isListening (fst s)) eqn:Hl;
  [ cbn [ret fst snd]
  | destruct (browserSupported (fst s)) eqn:Hb;
    [ destruct (AudioContextClass (fst s)) eqn:Ha;
      [ cbn [negb];
        destruct env as [e1 e2 e3 e4 e5 e6 e7 e8 e9];
        unfold try_catch, start_try, start_catch, bind, external, perform, throw, ret,
          _createTranscribeClient;
        cbn [getUserMedia new_AudioContext createMediaStreamSource createScriptProcessor
             sourceNode_connect processorNode_connect new_TranscribeStreamingClient
             call_generateSessionId transcribeClient_send];
        destruct e1; [|destruct e2; [|destruct e3; [|destruct e4; [|destruct e5;
          [|destruct e6; [|
            cbn [fst snd on_client on_world config set_stream set_audioContext
                 set_sourceNode set_processorNode];
            (destruct (AWSCredentials_getCredentials _ _ _ _) as [[ge|gc] gw] eqn:Hg);
            [|destruct e7; [|destruct e8; [|destruct e9]]]]]]]]]
      | cbn [negb ret fst snd] ]
    | cbn [negb ret fst snd] ] ].


Section SessionFacts.

Variable JSON_parse : string -> Thrown + TranscribeCredentials.
Variable JSON_stringify : TranscribeCredentials -> string.

Ltac frame_done :=
  repeat split;
  cbn [snd localStorage provider_calls Date_now audioStream effects
       set_localStorage set_provider_calls];
  repeat match goal with H : localStorage _ = _ |- _ => rewrite H end;
  try reflexivity; first [left; reflexivity | right; reflexivity].

(** What a credential lookup leaves alone. *)
Lemma getCredentials_frame (p : option TranscribeCredentialsProvider) (w : World) :
  let w' := snd (AWSCredentials_getCredentials JSON_parse JSON_stringify p w) in
  Date_now w' = Date_now w /\ audioStream w' = audioStream w
  /\ effects w' = effects w
  /\ option_map aws_transcribe_minutes_used (localStorage w')
     = option_map aws_transcribe_minutes_used (localStorage w)
  /\ (provider_calls w' = provider_calls w
      \/ provider_calls w' = provider_calls w ++ [getMinutesUsed w]).
Proof.
  unfold AWSCredentials_getCredentials, AWSCredentials_loadStoredCredentials,
    fetch_fresh, AWSCredentials_storeCredentials.
  destruct p as [p|]; [|frame_done].
  destruct (localStorage w) as [store|] eqn:Els.
  - destruct (aws_transcribe_credentials store) as [stored|].
    + destruct (negb (truthy_string stored)).
      * destruct (p (getMinutesUsed w)); cbn [snd set_provider_calls localStorage];
          rewrite ?Els; frame_done.
      * destruct (JSON_parse stored) as [e|c];
          [cbn [snd]; rewrite ?Els; frame_done|].
        destruct (still_valid c w); [cbn [snd]; rewrite ?Els; frame_done|].
        destruct (p (getMinutesUsed w)); cbn [snd set_provider_calls localStorage];
          rewrite ?Els; frame_done.
    + destruct (p (getMinutesUsed w)); cbn [snd set_provider_calls localStorage];
        rewrite ?Els; frame_done.
  - destruct (p (getMinutesUsed w)); cbn [snd set_provider_calls localStorage];
      rewrite ?Els; frame_done.
Qed.

End SessionFacts.

(** ** start() cut at its awaits *)

Ltac resume_cases env a s :=
  let e1 := fresh "e" in let e2 := fresh "e" in let e3 := fresh "e" in
  let e4 := fresh "e" in let e5 := fresh "e" in let e6 := fresh "e" in
  let e7 := fresh "e" in let e8 := fresh "e" in let e9 := fresh "e" in
  let outcome := fresh "outcome" in let settled := fresh "settled" in
  let next := fresh "next" in let w' := fresh "w" in
  let Hcall := fresh "Hcall" in let Hresume := fresh "Hresume" in
  let Hnode := fresh "Hnode" in
  unfold start_resume, resume_try, start_catch, bind, external, perform, throw, ret;
  destruct env as [e1 e2 e3 e4 e5 e6 e7 e8 e9];
  cbn [getUserMedia new_AudioContext createMediaStreamSource createScriptProcessor
       sourceNode_connect processorNode_connect new_TranscribeStreamingClient
       call_generateSessionId transcribeClient_send];
  destruct a as [|outcome|settled|settled|];
  [ destruct e1; [|destruct e2; [|destruct e3; [|destruct e4; [|destruct e5;
      [|destruct e6; [|
        cbn [fst snd on_client on_world config set_stream set_audioContext
             set_sourceNode set_processorNode];
        (destruct (getCredentials_call _ _ _) as [[outcome|settled] w'] eqn:Hcall)]]]]]]
  | (destruct (getCredentials_resume _ outcome (snd s)) as [settled w'] eqn:Hresume)
  | destruct settled; [|destruct e7]
  | destruct settled;
    [|cbn [fst snd on_client on_world processorNode set_transcribeClient
           set_customStream];
      destruct (processorNode (fst s)) eqn:Hnode; [destruct e8|]]
  | destruct e9 ];
  cbn [fst snd].

Section AsyncFacts.

Variable JSON_parse : string -> Thrown + TranscribeCredentials.
Variable JSON_stringify : TranscribeCredentials -> string.

(** The lookup cut at its await is the lookup. *)
Lemma getCredentials_call_resume
  (provider : option TranscribeCredentialsProvider) (w : World) :
  AWSCredentials_getCredentials JSON_parse JSON_stringify provider w
  = match getCredentials_call JSON_parse provider w with
    | (inl outcome, w1) => getCredentials_resume JSON_stringify outcome w1
    | (inr settled, w1) => (settled, w1)
    end.
Proof.
  unfold AWSCredentials_getCredentials, getCredentials_call, fetch_fresh,
    getCredentials_resume.
  destruct provider as [p|]; [|reflexivity].
  destruct (AWSCredentials_loadStoredCredentials JSON_parse w) as [[e|[c|]] w1];
    [reflexivity| |].
  - destruct (still_valid c w1); [reflexivity|].
    destruct (p (getMinutesUsed w1)); reflexivity.
  - destruct (p (getMinutesUsed w1)); reflexivity.
Qed.

(** [start] is start() resumed at once at each of its awaits. *)
Lemma start_uninterrupted (env : StartEnv) (s : Sys) :
  match start_through JSON_parse JSON_stringify 5 env (start_call s) with
  | (Returned value, s') => start JSON_parse JSON_stringify env s = (inr value, s')
  | (Threw error, s') => start JSON_parse JSON_stringify env s = (inl error, s')
  | (Suspended _, _) => False
  end.
Proof.
  unfold start, start_call.
  destruct (isListening (fst s)) eqn:Hl; [reflexivity|].
  destruct (browserSupported (fst s)) eqn:Hb; [|reflexivity]. cbn [negb].
  destruct (AudioContextClass (fst s)) eqn:Ha; [|reflexivity].
  unfold try_catch, start_try, _createTranscribeClient.
  destruct env as [e1 e2 e3 e4 e5 e6 e7 e8 e9].
  unfold start_through, start_resume, resume_try, start_catch, bind, external,
    perform, throw, ret.
  cbn [getUserMedia new_AudioContext createMediaStreamSource createScriptProcessor
       sourceNode_connect processorNode_connect new_TranscribeStreamingClient
       call_generateSessionId transcribeClient_send fst snd].
  destruct e1; [reflexivity|]. destruct e2; [reflexivity|].
  destruct e3; [reflexivity|]. destruct e4; [reflexivity|].
  destruct e5; [reflexivity|]. destruct e6; [reflexivity|].
  cbn [fst snd on_client on_world config set_stream set_audioContext
       set_sourceNode set_processorNode].
  rewrite getCredentials_call_resume.
  destruct (getCredentials_call JSON_parse (credentialsProvider (config (fst s))) (snd s))
    as [[outcome|settled] w1]; cbn [fst snd].
  - destruct (getCredentials_resume JSON_stringify outcome w1) as [[e|c] w2];
      cbn [fst snd]; [reflexivity|].
    destruct e7; [reflexivity|]. cbn [fst snd on_client on_world processorNode
      set_transcribeClient set_customStream set_processorNode].
    destruct e8; [reflexivity|]. destruct e9; reflexivity.
  - destruct settled as [e|c]; cbn [fst snd]; [reflexivity|].
    destruct e7; [reflexivity|]. cbn [fst snd on_client on_world processorNode
      set_transcribeClient set_customStream set_processorNode].
    destruct e8; [reflexivity|]. destruct e9; reflexivity.
Qed.

(** What the two parts of the lookup leave alone. *)
Lemma getCredentials_call_frame
  (provider : option TranscribeCredentialsProvider) (w : World) :
  let w' := snd (getCredentials_call JSON_parse provider w) in
  Date_now w' = Date_now w /\ timers w' = timers w /\ next_timer w' = next_timer w
  /\ audioStream w' = audioStream w /\ effects w' = effects w
  /\ option_map aws_transcribe_minutes_used (localStorage w')
     = option_map aws_transcribe_minutes_used (localStorage w)
  /\ (provider_calls w' = provider_calls w
      \/ provider_calls w' = provider_calls w ++ [getMinutesUsed w]).
Proof.
  unfold getCredentials_call, AWSCredentials_loadStoredCredentials.
  destruct provider as [p|]; [|repeat split; left; reflexivity].
  destruct (localStorage w) as [store|] eqn:Els;
    [destruct (aws_transcribe_credentials store) as [stored|];
     [destruct (negb (truthy_string stored));
      [|destruct (JSON_parse stored) as [e|c]; [|destruct (still_valid c w)]]|]|];
    cbn [snd Date_now timers next_timer audioStream effects localStorage provider_calls
         set_provider_calls set_localStorage removeItem_credentials
         aws_transcribe_minutes_used option_map];
    rewrite ?Els; repeat split; first [left; reflexivity | right; reflexivity].
Qed.

Lemma getCredentials_resume_frame (outcome : ProviderOutcome) (w : World) :
  let w' := snd (getCredentials_resume JSON_stringify outcome w) in
  Date_now w' = Date_now w /\ timers w' = timers w /\ next_timer w' = next_timer w
  /\ audioStream w' = audioStream w /\ effects w' = effects w
  /\ option_map aws_transcribe_minutes_used (localStorage w')
     = option_map aws_transcribe_minutes_used (localStorage w)
  /\ provider_calls w' = provider_calls w.
Proof.
  unfold getCredentials_resume, AWSCredentials_storeCredentials.
  destruct outcome as [c| |e]; [|repeat split..].
  destruct (localStorage w) as [store|] eqn:Els;
    cbn [snd Date_now timers next_timer audioStream effects localStorage provider_calls
         set_localStorage setItem_credentials aws_transcribe_minutes_used option_map];
    rewrite ?Els; repeat split.
Qed.

End AsyncFacts.

Ltac use_call_frame :=
  match goal with
  | H : getCredentials_call ?jp ?p ?w = (_, _) |- _ =>
      let Hf := fresh "Hframe" in
      pose proof (@getCredentials_call_frame jp p w) as Hf;
      cbn zeta in Hf; rewrite H in Hf; cbn [snd] in Hf
  | H : getCredentials_resume ?js ?o ?w = (_, _) |- _ =>
      let Hf := fresh "Hframe" in
      pose proof (@getCredentials_resume_frame js o w) as Hf;
      cbn zeta in Hf; rewrite H in Hf; cbn [snd] in Hf
  end.

Section AsyncInvariant.

Variable JSON_parse : string -> Thrown + TranscribeCredentials.
Variable JSON_stringify : TranscribeCredentials -> string.

Variable P : Sys -> Prop.

Hypothesis P_step : forall s i, P s -> P (step JSON_parse JSON_stringify s i).
Hypothesis P_call : forall s, P s -> P (snd (start_call s)).
Hypothesis P_resume :
  forall env a s, P s -> P (snd (start_resume JSON_parse JSON_stringify env a s)).

Lemma suspend_fst (p : Progress * Sys) (pending : list Awaiting) :
  fst (suspend p pending) = snd p.
Proof. unfold suspend. destruct (fst p); reflexivity. Qed.

Lemma astep_invariant (x : Async) (ev : Event) :
  P (fst x) -> P (fst (astep JSON_parse JSON_stringify x ev)).
Proof.
  intros H. destruct x as [s pending]. cbn [fst] in H.
  destruct ev as [i| | |k env]; unfold astep; cbn [fst snd].
  - apply P_step, H.
  - rewrite suspend_fst. apply P_call, H.
  - destruct (isListening (fst s)); cbn [fst].
    + apply (@P_step s CallStop), H.
    + rewrite suspend_fst. apply P_call, H.
  - destruct (nth_error pending k); [|exact H].
    rewrite suspend_fst. apply P_resume, H.
Qed.

Lemma arun_invariant (events : list Event) :
  forall x, P (fst x) -> P (fst (arun JSON_parse JSON_stringify events x)).
Proof.
  induction events as [|ev events IH]; intros x H; [exact H|].
  cbn [arun fold_left]. apply IH, astep_invariant, H.
Qed.

End AsyncInvariant.

Section AsyncTimers.

Variable JSON_parse : string -> Thrown + TranscribeCredentials.
Variable JSON_stringify : TranscribeCredentials -> string.

Lemma start_call_preserves_wf (s : Sys) : timers_wf s -> timers_wf (snd (start_call s)).
Proof.
  intros H. unfold start_call.
  destruct (isListening (fst s)); [exact H|].
  destruct (negb (browserSupported (fst s))); [exact H|].
  destruct (AudioContextClass (fst s)); exact H.
Qed.

Lemma start_resume_preserves_wf (env : StartEnv) (a : Awaiting) (s : Sys) :
  timers_wf s -> timers_wf (snd (start_resume JSON_parse JSON_stringify env a s)).
Proof.
  intros H.
  resume_cases env a s; try exact H; try (apply stop_preserves_wf);
    try use_call_frame;
    try (destruct Hframe as (_ & Ht & Hn & _));
    try (apply (@timers_wf_ext s); try exact H; cbn [fst snd];
         first [assumption | reflexivity]).
Qed.

Lemma arun_preserves_wf (events : list Event) (x : Async) :
  timers_wf (fst x) -> timers_wf (fst (arun JSON_parse JSON_stringify events x)).
Proof.
  apply (@arun_invariant JSON_parse JSON_stringify timers_wf).
  - intros s i. apply step_preserves_wf.
  - apply start_call_preserves_wf.
  - apply start_resume_preserves_wf.
Qed.

End AsyncTimers.

(** The principle for the start() that nothing interrupts follows from the
    one for its parts. *)
Section AsyncInvariantByParts.

Variable JSON_parse : string -> Thrown + TranscribeCredentials.
Variable JSON_stringify : TranscribeCredentials -> string.

Variable P : Sys -> Prop.

Hypothesis P_time : forall c w t, P (c, w) -> P (c, set_Date_now t w).
Hypothesis P_timers : forall c w l, P (c, w) -> P (c, set_timers l w).
Hypothesis P_handleSilence : forall s, P s -> P (_handleSilence s).
Hypothesis P_countdown : forall t s, P s -> P (countdown_tick t s).
Hypothesis P_stop : forall s, P s -> P (stop s).
Hypothesis P_audio : forall frame s, P s -> P (onaudioprocess frame s).
Hypothesis P_event : forall event s, P s -> P (process_event event s).
Hypothesis P_error : forall error s, P s -> P (process_error error s).
Hypothesis P_reset : forall s, P s -> P (resetTranscript s).
Hypothesis P_call : forall s, P s -> P (snd (start_call s)).
Hypothesis P_resume :
  forall env a s, P s -> P (snd (start_resume JSON_parse JSON_stringify env a s)).

Lemma start_through_invariant (n : nat) (env : StartEnv) :
  forall p : Progress * Sys,
    P (snd p) -> P (snd (start_through JSON_parse JSON_stringify n env p)).
Proof.
  induction n as [|n IH]; intros p H; [exact H|].
  cbn [start_through]. destruct (fst p); try exact H.
  apply IH, P_resume, H.
Qed.

Lemma start_invariant (env : StartEnv) (s : Sys) :
  P s -> P (snd (start JSON_parse JSON_stringify env s)).
Proof.
  intros H.
  pose proof (@start_through_invariant 5 env (start_call s) (P_call H)) as Ht.
  pose proof (start_uninterrupted JSON_parse JSON_stringify env s) as Hu.
  destruct (start_through JSON_parse JSON_stringify 5 env (start_call s))
    as [[value|error|a] s'].
  - rewrite Hu. exact Ht.
  - rewrite Hu. exact Ht.
  - contradiction.
Qed.

Lemma arun_invariant_by_parts (events : list Event) (x : Async) :
  P (fst x) -> P (fst (arun JSON_parse JSON_stringify events x)).
Proof.
  apply (@arun_invariant JSON_parse JSON_stringify P).
  - intros s i. apply (@step_invariant JSON_parse JSON_stringify P); auto.
    apply start_invariant.
  - exact P_call.
  - exact P_resume.
Qed.

End AsyncInvariantByParts.

Ltac break_match :=
  repeat match goal with
         | |- context [match ?x with _ => _ end] =>
             match x with
             | context [match _ with _ => _ end] => fail 1
             | _ => destruct x eqn:?
             end
         end.

Ltac open_op :=
  unfold _handleSilence, countdown_tick, stop, onaudioprocess, _processAudioData,
    _resetSilenceTimeout, process_event, process_error, resetTranscript,
    on_client, on_world, _handleTranscription, setTimeout, setInterval;
  cbn [fst snd].

Ltac use_credentials_frame :=
  match goal with
  | H : AWSCredentials_getCredentials ?jp ?js ?p ?w = (_, _) |- _ =>
      let Hf := fresh "Hframe" in
      pose proof (@getCredentials_frame jp js p w) as Hf;
      cbn zeta in Hf; rewrite H in Hf; cbn [snd] in Hf
  end.

Section FixedFields.

Variable JSON_parse : string -> Thrown + TranscribeCredentials.
Variable JSON_stringify : TranscribeCredentials -> string.

Lemma run_fixed (c0 : Client) (inputs : list Input) (s : Sys) :
  fixed_as c0 s -> fixed_as c0 (run JSON_parse JSON_stringify inputs s).
Proof.
  revert s. apply (@run_invariant JSON_parse JSON_stringify (fixed_as c0)); unfold fixed_as.
  - intros c w t H; exact H.
  - intros c w l H; exact H.
  - intros [c w] H. open_op. break_match; exact H.
  - intros t [c w] H. open_op. break_match; exact H.
  - intros [c w] H. exact H.
  - intros frame [c w] H. open_op. break_match; exact H.
  - intros event [c w] H. open_op. break_match; exact H.
  - intros error [c w] H. open_op. break_match; exact H.
  - intros [c w] H. exact H.
  - intros env s (H1 & H2 & H3). start_cases env s; repeat split; cbn; congruence.
Qed.

(** [X7] The configuration and the compatibility verdict are those of the
    constructor, whatever happens afterwards: getState().browserSupported
    is true exactly on a platform with a window, getUserMedia and an
    AudioContext class. *)
Theorem construction_fixes_config_and_support
  (p : Platform) (options : TranscribeOptions) (now : Z) (store : option Storage)
  (inputs : list Input) :
  let s := run JSON_parse JSON_stringify inputs (initial p options now store) in
  config (fst s) = make_config options
  /\ st_browserSupported (getState (fst s))
     = has_window p && has_getUserMedia p && has_AudioContext p
  /\ AudioContextClass (fst s)
     = if st_browserSupported (getState (fst s)) then Some handle else None.
Proof.
  cbn zeta.
  destruct (@run_fixed (fst (initial p options now store)) inputs
              (initial p options now store)) as (Hc & Hb & Ha).
  { repeat split. }
  cbn [getState st_browserSupported]. rewrite Hc, Hb, Ha.
  cbn [initial fst new_AWSTranscribeClient config browserSupported AudioContextClass].
  unfold _checkBrowserCompatibility.
  destruct (has_window p), (has_getUserMedia p), (has_AudioContext p); repeat split.
Qed.

Lemma minutes_used_storeCredentials (c : option TranscribeCredentials) (w : World) :
  option_map aws_transcribe_minutes_used
    (localStorage (AWSCredentials_storeCredentials JSON_stringify c w))
  = option_map aws_transcribe_minutes_used (localStorage w).
Proof.
  unfold AWSCredentials_storeCredentials.
  destruct (localStorage w) eqn:E; [destruct c|]; cbn [localStorage set_localStorage];
    rewrite ?E; reflexivity.
Qed.

Lemma minutes_used_eq (s : Sys) :
  minutes_used s
  = match option_map aws_transcribe_minutes_used (localStorage (snd s)) with
    | Some m => m
    | None => None
    end.
Proof. unfold minutes_used. destruct (localStorage (snd s)); reflexivity. Qed.

Lemma stop_frame (s : Sys) :
  let w0 := record_usage (startTime (fst s)) (snd s) in
  Date_now (snd (stop s)) = Date_now w0
  /\ localStorage (snd (stop s)) = localStorage w0
  /\ provider_calls (snd (stop s)) = provider_calls w0.
Proof.
  destruct s as [c w]. unfold stop, release, clear_handle, close_customStream.
  cbn [fst snd].
  destruct (customStream c), (processorNode c), (sourceNode c), (audioContext c),
    (stream c), (transcribeClient c), (silenceTimeout c), (maxSilenceTimeout c),
    (countdownInterval c); repeat split.
Qed.

(** [X10] start() adds nothing to the stored usage, whether it succeeds, returns
    false or fails: a session that did not come about is not counted. *)
Theorem start_leaves_usage_alone (env : StartEnv) (s : Sys) :
  minutes_used (snd (start JSON_parse JSON_stringify env s)) = minutes_used s.
Proof.
  rewrite !minutes_used_eq. f_equal.
  start_cases env s; try reflexivity; cbn [snd];
    try (match goal with |- context [stop ?x] =>
           destruct (stop_frame x) as (_ & -> & _) end;
         cbn [fst snd on_client on_world set_startTime startTime record_usage]);
    try use_credentials_frame;
    try (destruct Hframe as (_ & _ & _ & Hm & _); rewrite <- Hm);
    reflexivity.
Qed.

Lemma record_usage_without_store (t : option Z) (w : World) :
  localStorage w = None -> record_usage t w = w.
Proof.
  intros H. unfold record_usage, storeMinutesUsed. rewrite H.
  destruct t as [t|]; [destruct (truthy_int t)|]; reflexivity.
Qed.

Lemma stop_nothing_persisted (s : Sys) : nothing_persisted s -> nothing_persisted (stop s).
Proof.
  intros [H1 H2]. unfold nothing_persisted.
  destruct (stop_frame s) as (_ & -> & ->).
  rewrite (@record_usage_without_store _ _ H1). split; assumption.
Qed.

Lemma run_nothing_persisted (inputs : list Input) (s : Sys) :
  nothing_persisted s -> nothing_persisted (run JSON_parse JSON_stringify inputs s).
Proof.
  revert s. apply (@run_invariant JSON_parse JSON_stringify nothing_persisted).
  - intros c w t H; exact H.
  - intros c w l H; exact H.
  - intros [c w] H. open_op. break_match; exact H.
  - intros t [c w] H. open_op. break_match; exact H.
  - apply stop_nothing_persisted.
  - intros frame [c w] H. open_op. break_match; exact H.
  - intros event [c w] H. open_op. break_match; exact H.
  - intros error [c w] H. open_op. break_match; exact H.
  - intros [c w] H. exact H.
  - intros env s H.
    assert (Hg : forall r w', AWSCredentials_getCredentials JSON_parse JSON_stringify
                   (credentialsProvider (config (fst s))) (snd s) = (r, w') ->
                 forall c, nothing_persisted (c, w')).
    { intros r w' Hg c.
      pose proof (@getCredentials_frame JSON_parse JSON_stringify
                    (credentialsProvider (config (fst s))) (snd s)) as Hf.
      cbn zeta in Hf. rewrite Hg in Hf. cbn [snd] in Hf.
      destruct Hf as (_ & _ & _ & Hm & Hc). destruct H as [H1 H2].
      unfold nothing_persisted. cbn [snd]. split.
      - rewrite H1 in Hm. destruct (localStorage w'); [discriminate | reflexivity].
      - destruct Hc as [-> | ->]; [exact H2|].
        apply Forall_app. split; [exact H2|]. constructor; [|constructor].
        unfold getMinutesUsed. rewrite H1. reflexivity. }
    start_cases env s; cbn [snd]; try exact H;
      try (apply stop_nothing_persisted);
      try (destruct s as [c0 w0]; exact H);
      exact (Hg _ _ eq_refl (fst s)).
Qed.

(** [X14] Where there is no localStorage nothing is ever persisted, and the
    provider is told of no used minutes each time it is asked. *)
Theorem without_localStorage_nothing_persisted
  (p : Platform) (options : TranscribeOptions) (now : Z) (inputs : list Input) :
  let s := run JSON_parse JSON_stringify inputs (initial p options now None) in
  localStorage (snd s) = None
  /\ Forall (fun minutesUsed => minutesUsed = 0%float) (provider_calls (snd s))
  /\ getMinutesUsed (snd s) = 0%float.
Proof.
  cbn zeta.
  destruct (@run_nothing_persisted inputs (initial p options now None)) as [H1 H2].
  { split; [reflexivity | constructor]. }
  split; [exact H1|]. split; [exact H2|].
  unfold getMinutesUsed. rewrite H1. reflexivity.
Qed.

(** *** Resources and the listening flag *)

Lemma closed_enqueue (event : AudioEvent) (q : ReadableStream.t AudioEvent) :
  ReadableStream.closed (ReadableStream.enqueue event q) = ReadableStream.closed q.
Proof.
  unfold ReadableStream.enqueue.
  destruct (ReadableStream.closed q) eqn:E; [exact E|].
  destruct (ReadableStream.listeners q); reflexivity.
Qed.

Lemma audioStream_stop (s : Sys) :
  audioStream (snd (stop s))
  = match customStream (fst s) with
    | Some _ => option_map (@ReadableStream.close AudioEvent) (audioStream (snd s))
    | None => audioStream (snd s)
    end.
Proof.
  destruct s as [c w]. unfold stop, release, clear_handle, close_customStream,
    record_usage, storeMinutesUsed.
  cbn [fst snd].
  destruct (startTime c) as [t|]; [destruct (truthy_int t)|];
    destruct (localStorage w);
    destruct (customStream c), (processorNode c), (sourceNode c), (audioContext c),
      (stream c), (transcribeClient c), (silenceTimeout c), (maxSilenceTimeout c),
      (countdownInterval c); reflexivity.
Qed.

End FixedFields.

(** *** The resources, with start() cut at its awaits *)

Ltac handles_norm :=
  cbn [fst snd on_client on_world
       stream audioContext sourceNode processorNode transcribeClient customStream
       isListening startTime audioStream
       set_stream set_audioContext set_sourceNode set_processorNode
       set_transcribeClient set_customStream set_transcribeStream set_startTime
       set_isListening set_isActivelySpeaking set_activeStreaming
       set_silenceTimeout set_maxSilenceTimeout set_countdownInterval
       set_silenceCountdown set_transcript
       emit set_audioStream set_timers set_next_timer set_Date_now
       clearTimeout clearInterval].

Section Resources.

Variable JSON_parse : string -> Thrown + TranscribeCredentials.
Variable JSON_stringify : TranscribeCredentials -> string.

(** A step that touches neither the handles, nor the flag and the start
    time, nor the stream keeps the resources consistent. *)
Lemma resources_ext (s s' : Sys) :
  stream (fst s') = stream (fst s) -> audioContext (fst s') = audioContext (fst s) ->
  sourceNode (fst s') = sourceNode (fst s) ->
  processorNode (fst s') = processorNode (fst s) ->
  transcribeClient (fst s') = transcribeClient (fst s) ->
  customStream (fst s') = customStream (fst s) ->
  isListening (fst s') = isListening (fst s) ->
  startTime (fst s') = startTime (fst s) ->
  audioStream (snd s') = audioStream (snd s) ->
  resources_consistent s -> resources_consistent s'.
Proof.
  unfold resources_consistent, stream_open, stream_absent_or_closed.
  intros -> -> -> -> -> -> -> -> ->. exact (fun H => H).
Qed.

Lemma stop_resources (s : Sys) :
  (customStream (fst s) = None -> stream_absent_or_closed (snd s)) ->
  resources_consistent (stop s).
Proof.
  intros H. unfold resources_consistent.
  split; [right; repeat split|].
  split; [|discriminate].
  replace (customStream (fst (stop s))) with (@None Handle) by reflexivity.
  split; [reflexivity|].
  unfold stream_absent_or_closed. rewrite audioStream_stop.
  destruct (customStream (fst s)).
  - destruct (audioStream (snd s)); [reflexivity | exact I].
  - apply H. reflexivity.
Qed.

Lemma resources_without_stream_handle (s : Sys) :
  resources_consistent s -> customStream (fst s) = None ->
  stream_absent_or_closed (snd s).
Proof.
  intros (_ & H & _) Hc. rewrite Hc in H. apply H.
Qed.

Lemma processAudioData_resources (frame : list float) (s : Sys) :
  resources_consistent s -> resources_consistent (_processAudioData frame s).
Proof.
  intros H. unfold _processAudioData.
  destruct (customStream (fst s)) as [h|] eqn:Hc; [|exact H].
  revert H. destruct s as [c w]. unfold resources_consistent, on_world.
  cbn [fst snd] in *. rewrite Hc.
  intros (Ha & (Ht & q & Hq & Hopen) & Hl).
  split; [exact Ha|]. split; [|exact Hl]. split; [exact Ht|].
  unfold stream_open. cbn [audioStream set_audioStream]. rewrite Hq.
  eexists. split; [reflexivity|]. rewrite closed_enqueue. exact Hopen.
Qed.

Lemma start_resume_resources (env : StartEnv) (a : Awaiting) (s : Sys) :
  resources_consistent s ->
  resources_consistent (snd (start_resume JSON_parse JSON_stringify env a s)).
Proof.
  intros H.
  pose proof (@resources_without_stream_handle s H) as Hs.
  resume_cases env a s; try exact H;
    try use_call_frame;
    try (apply stop_resources; handles_norm;
         first [ discriminate
               | exact Hs
               | intros Hc; unfold stream_absent_or_closed; handles_norm;
                 destruct Hframe as (_ & _ & _ & -> & _); exact (Hs Hc) ]).
  - destruct Hframe as (_ & _ & _ & Haudio & _).
    apply (@resources_ext (set_processorNode (Some handle)
             (set_sourceNode (Some handle)
                (set_audioContext (Some handle) (set_stream (Some handle) (fst s)))),
             snd s)); try reflexivity; [exact Haudio|].
    destruct H as (_ & Hb & Hl). unfold resources_consistent. handles_norm.
    split; [left; repeat split; discriminate|]. split; assumption.
  - destruct Hframe as (_ & _ & _ & Haudio & _).
    apply (@resources_ext (set_processorNode (Some handle)
             (set_sourceNode (Some handle)
                (set_audioContext (Some handle) (set_stream (Some handle) (fst s)))),
             snd s)); try reflexivity; [exact Haudio|].
    destruct H as (_ & Hb & Hl). unfold resources_consistent. handles_norm.
    split; [left; repeat split; discriminate|]. split; assumption.
  - destruct Hframe as (_ & _ & _ & Haudio & _).
    apply (@resources_ext s); try reflexivity; [exact Haudio | exact H].
  - destruct H as (Ha & _ & Hl). unfold resources_consistent, stream_open.
    handles_norm. split; [exact Ha|]. split; [|exact Hl].
    split; [discriminate|]. eexists. split; reflexivity.
  - destruct H as (Ha & Hb & _). unfold resources_consistent.
    handles_norm. split; [exact Ha|]. split; [exact Hb|]. discriminate.
Qed.

Lemma arun_resources (events : list Event) (x : Async) :
  resources_consistent (fst x) ->
  resources_consistent (fst (arun JSON_parse JSON_stringify events x)).
Proof.
  apply (@arun_invariant_by_parts JSON_parse JSON_stringify resources_consistent).
  - intros c w t H; exact H.
  - intros c w l H; exact H.
  - intros [c w] H. open_op. break_match; exact H.
  - intros t [c w] H. open_op. break_match; exact H.
  - intros s H. apply stop_resources, resources_without_stream_handle, H.
  - intros frame s H. unfold onaudioprocess.
    match goal with
    | |- resources_consistent (match customStream (fst ?x) with _ => _ end) =>
        assert (Hx : resources_consistent x);
        [|destruct (customStream (fst x));
          [apply processAudioData_resources|]; exact Hx]
    end.
    destruct s as [c w].
    apply (@resources_ext (c, w)); try exact H;
      open_op; break_match; reflexivity.
  - intros event [c w] H. open_op. break_match; exact H.
  - intros error [c w] H. open_op. break_match; exact H.
  - intros [c w] H. exact H.
  - intros s H. unfold start_call.
    destruct (isListening (fst s)); [exact H|].
    destruct (negb (browserSupported (fst s))); [exact H|].
    destruct (AudioContextClass (fst s)); exact H.
  - apply start_resume_resources.
Qed.

Lemma reachable_resources
  (p : Platform) (options : TranscribeOptions) (now : Z) (store : option Storage)
  (events : list Event) :
  resources_consistent
    (fst (arun JSON_parse JSON_stringify events (initial p options now store, []))).
Proof.
  apply arun_resources. unfold resources_consistent, stream_absent_or_closed.
  cbn. split; [right; repeat split|]. split; [split; [reflexivity | exact I]|].
  discriminate.
Qed.


End Resources.

(** *** A platform without microphone or audio support *)

Section Unsupported.

Variable JSON_parse : string -> Thrown + TranscribeCredentials.
Variable JSON_stringify : TranscribeCredentials -> string.

Lemma stop_never_started (store : option Storage) (s : Sys) :
  never_started store s -> never_started store (stop s).
Proof.
  intros (Hb & Hl & Hn & Ht & Hts & Ha & Hp & Hls). unfold never_started.
  rewrite audioStream_stop.
  destruct (stop_frame s) as (_ & -> & ->). rewrite Ht. cbn [record_usage].
  destruct Hn as (_ & _ & _ & _ & _ & ->).
  repeat split; assumption.
Qed.

Lemma run_never_started (store : option Storage) (inputs : list Input) (s : Sys) :
  never_started store s -> never_started store (run JSON_parse JSON_stringify inputs s).
Proof.
  revert s. apply (@run_invariant JSON_parse JSON_stringify (never_started store)).
  - intros c w t H; exact H.
  - intros c w l H; exact H.
  - intros [c w] H. open_op. break_match; exact H.
  - intros t [c w] H. open_op. break_match; exact H.
  - apply stop_never_started.
  - intros frame [c w] H.
    assert (Hc : customStream c = None) by apply H.
    open_op. cbn [customStream set_isActivelySpeaking set_activeStreaming
                  set_silenceTimeout set_maxSilenceTimeout set_countdownInterval
                  set_silenceCountdown].
    break_match; cbn [fst customStream set_isActivelySpeaking set_activeStreaming
                  set_silenceTimeout set_maxSilenceTimeout set_countdownInterval
                  set_silenceCountdown] in *; try congruence; exact H.
  - intros event [c w] H. open_op. break_match; exact H.
  - intros error [c w] H. open_op. break_match; exact H.
  - intros [c w] H. exact H.
  - intros env s H. unfold start.
    destruct H as (Hb & Hl & H). rewrite Hl, Hb. cbn [negb ret snd].
    destruct s as [c w]. repeat split; try assumption; apply H.
Qed.

(** [X12] On a platform that lacks the window, getUserMedia or an AudioContext
    class, nothing ever sets a session up: whatever is called, the
    controller does not listen, holds no resource, asks for no credentials
    and leaves the store as it found it; each start() returns false after
    reporting the missing support, and does nothing else. *)
Theorem unsupported_platform_never_starts
  (p : Platform) (options : TranscribeOptions) (now : Z) (store : option Storage)
  (inputs : list Input) (env : StartEnv) :
  has_window p && has_getUserMedia p && has_AudioContext p = false ->
  let s := run JSON_parse JSON_stringify inputs (initial p options now store) in
  never_started store s
  /\ start JSON_parse JSON_stringify env s
     = (inr false,
        (fst s, emit (CallOnError
                  "Your browser doesn't support microphone access or Web Audio API.")
                  (snd s))).
Proof.
  intros Hp. cbn zeta.
  assert (H : never_started store
                (run JSON_parse JSON_stringify inputs (initial p options now store))).
  { apply run_never_started. unfold never_started, holds_none.
    cbn [initial fst snd new_AWSTranscribeClient browserSupported isListening stream
         audioContext sourceNode processorNode transcribeClient customStream
         startTime transcribeStream new_World audioStream provider_calls localStorage].
    unfold _checkBrowserCompatibility.
    destruct (has_window p), (has_getUserMedia p), (has_AudioContext p);
      try discriminate Hp; repeat split. }
  split; [exact H|].
  destruct H as (Hb & Hl & _). unfold start. rewrite Hl, Hb. reflexivity.
Qed.

End Unsupported.

(** [X12] On a platform without an AudioContext class: a frame, a stop() and a
    toggle() later nothing was set up. *)
Lemma unsupported_platform_witness :
  let p := {| has_window := true; has_getUserMedia := true; has_AudioContext := false |} in
  let s := run sample_JSON_parse sample_JSON_stringify
             [AudioProcess [1%float]; CallStop; CallToggle all_succeed]
             (initial p (default_options sample_provider) 1000 empty_store) in
  never_started empty_store s
  /\ start sample_JSON_parse sample_JSON_stringify all_succeed s
     = (inr false,
        (fst s, emit (CallOnError
                  "Your browser doesn't support microphone access or Web Audio API.")
                  (snd s))).
Proof.
  apply (@unsupported_platform_never_starts sample_JSON_parse sample_JSON_stringify
           {| has_window := true; has_getUserMedia := true; has_AudioContext := false |}
           (default_options sample_provider) 1000%Z empty_store
           [AudioProcess [1%float]; CallStop; CallToggle all_succeed] all_succeed).
  reflexivity.
Defined.

(** *** What the observer is told *)

Lemma reported_listening_app (b : bool) (a a' : list Effect) :
  reported_listening b (a ++ a') = reported_listening (reported_listening b a) a'.
Proof.
  revert b. induction a as [|e a IH]; intros b; [reflexivity|].
  cbn [app reported_listening]. destruct e; apply IH.
Qed.

Lemma speech_starts_app (a b : list Effect) :
  speech_starts (a ++ b) = speech_starts a + speech_starts b.
Proof.
  induction a as [|e a IH]; [reflexivity|].
  cbn [app speech_starts]. destruct e; rewrite IH; reflexivity.
Qed.

(** What stop() adds to the effects: the release calls, then the final
    state update. *)
Lemma effects_stop (s : Sys) :
  effects (snd (stop s))
  = effects (snd s) ++ release_calls (fst s) ++ [state_update false false None].
Proof.
  destruct s as [c w]. unfold stop, release, clear_handle, close_customStream,
    record_usage, storeMinutesUsed, release_calls.
  cbn [fst snd].
  destruct (startTime c) as [t|]; [destruct (truthy_int t)|];
    destruct (localStorage w);
    destruct (customStream c), (processorNode c), (sourceNode c), (audioContext c),
      (stream c), (transcribeClient c), (silenceTimeout c), (maxSilenceTimeout c),
      (countdownInterval c);
    cbn [emit effects set_audioStream set_localStorage clearTimeout set_timers app];
    rewrite <- ?app_assoc; reflexivity.
Qed.

Lemma release_calls_silent (c : Client) :
  speech_starts (release_calls c) = 0 /\ speech_ends (release_calls c) = 0
  /\ forall b, reported_listening b (release_calls c) = b.
Proof.
  unfold release_calls.
  destruct (customStream c), (processorNode c), (sourceNode c), (audioContext c),
    (stream c), (transcribeClient c); repeat split.
Qed.

Ltac effects_norm :=
  cbn [fst snd emit effects set_timers set_next_timer set_audioStream clearTimeout
       clearInterval isListening activeStreaming
       set_isActivelySpeaking set_activeStreaming set_silenceTimeout
       set_maxSilenceTimeout set_countdownInterval set_silenceCountdown
       set_transcript set_isListening set_startTime set_customStream
       set_transcribeClient set_processorNode set_sourceNode set_audioContext
       set_stream set_transcribeStream];
  rewrite ?reported_listening_app, ?speech_starts_app, ?speech_ends_app;
  cbn [reported_listening speech_starts speech_ends state_update upd_isListening].

Ltac break_norm :=
  repeat (effects_norm;
          match goal with
          | |- context [match ?x with _ => _ end] =>
              match x with
              | context [match _ with _ => _ end] => fail 1
              | _ => destruct x eqn:?
              end
          end);
  effects_norm.

Ltac negb_cases :=
  repeat match goal with
         | Hn : negb ?b = _ |- _ =>
             destruct b eqn:?; cbn [negb] in Hn; try discriminate Hn; clear Hn
         | Hn : ?a && negb ?b = _ |- _ =>
             destruct a eqn:?, b eqn:?; cbn [negb andb] in Hn;
             try discriminate Hn; clear Hn
         end.

Section Observer.

Variable JSON_parse : string -> Thrown + TranscribeCredentials.
Variable JSON_stringify : TranscribeCredentials -> string.

Lemma stop_listening_reported (s : Sys) : listening_reported (stop s).
Proof.
  unfold listening_reported. rewrite effects_stop.
  destruct (release_calls_silent (fst s)) as (_ & _ & Hr).
  rewrite !reported_listening_app, Hr. reflexivity.
Qed.

Lemma run_listening_reported (inputs : list Input) (s : Sys) :
  listening_reported s -> listening_reported (run JSON_parse JSON_stringify inputs s).
Proof.
  revert s. apply (@run_invariant JSON_parse JSON_stringify listening_reported);
    unfold listening_reported.
  - intros c w t H; exact H.
  - intros c w l H; exact H.
  - intros [c w] H. open_op. break_match; effects_norm; try exact H; reflexivity.
  - intros t [c w] H. open_op. break_match; effects_norm; try exact H; reflexivity.
  - intros s _. apply stop_listening_reported.
  - intros frame [c w] H. open_op. break_match; effects_norm; try exact H; reflexivity.
  - intros event [c w] H. open_op. break_match; effects_norm; exact H.
  - intros error [c w] H. open_op. break_match; effects_norm; exact H.
  - intros [c w] H. exact H.
  - intros env s H.
    start_cases env s; cbn [snd]; try apply stop_listening_reported;
      unfold on_world, on_client; effects_norm; rewrite ?Hlistening;
      try exact H; reflexivity.
Qed.

(** [X15] An observer that keeps the [isListening] of the latest [onStateChange]
    call (false before the first) always holds what getState().isListening
    returns. *)
Theorem observer_knows_whether_listening
  (p : Platform) (options : TranscribeOptions) (now : Z) (store : option Storage)
  (inputs : list Input) :
  let s := run JSON_parse JSON_stringify inputs (initial p options now store) in
  reported_listening false (effects (snd s)) = st_isListening (getState (fst s)).
Proof.
  apply run_listening_reported. reflexivity.
Qed.

Lemma stop_speech_announced (s : Sys) : speech_announced s -> speech_announced (stop s).
Proof.
  unfold speech_announced. rewrite effects_stop.
  destruct (release_calls_silent (fst s)) as (Hs & He & _).
  rewrite !speech_starts_app, !speech_ends_app, Hs, He.
  replace (activeStreaming (fst (stop s))) with false by reflexivity.
  cbn [speech_starts speech_ends state_update].
  destruct (activeStreaming (fst s)); lia.
Qed.

Lemma run_speech_announced (inputs : list Input) (s : Sys) :
  speech_announced s -> speech_announced (run JSON_parse JSON_stringify inputs s).
Proof.
  revert s. apply (@run_invariant JSON_parse JSON_stringify speech_announced).
  - intros c w t H; exact H.
  - intros c w l H; exact H.
  - intros [c w] H. unfold speech_announced in *. cbn [fst snd] in H.
    open_op. break_norm; negb_cases; lia.
  - intros t [c w] H. unfold speech_announced in *. cbn [fst snd] in H.
    open_op. break_norm; lia.
  - apply stop_speech_announced.
  - intros frame [c w] H. unfold speech_announced in *. cbn [fst snd] in H.
    open_op. break_norm; negb_cases; lia.
  - intros event [c w] H. unfold speech_announced in *. cbn [fst snd] in H.
    open_op. break_norm; lia.
  - intros error [c w] H. unfold speech_announced in *. cbn [fst snd] in H.
    open_op. break_norm; lia.
  - intros [c w] H. exact H.
  - intros env s H.
    start_cases env s; cbn [snd]; try exact H;
      try (apply stop_speech_announced);
      try use_credentials_frame;
      unfold speech_announced in *; unfold on_world, on_client; effects_norm;
      try (destruct Hframe as (_ & _ & -> & _));
      cbn [speech_starts speech_ends]; lia.
Qed.

(** [X16] Every [onSpeechEnd] call was preceded by an [onSpeechStart] call of its
    own: at any time the calls of [onSpeechEnd], and one more while speech
    is going on, are no more than the calls of [onSpeechStart]. *)
Theorem speech_end_follows_speech_start
  (p : Platform) (options : TranscribeOptions) (now : Z) (store : option Storage)
  (inputs : list Input) :
  let s := run JSON_parse JSON_stringify inputs (initial p options now store) in
  speech_ends (effects (snd s)) + (if activeStreaming (fst s) then 1 else 0)
  <= speech_starts (effects (snd s)).
Proof.
  apply run_speech_announced. unfold speech_announced. cbn. lia.
Qed.

End Observer.

(** *** The transcript across sessions *)

Lemma string_app_assoc (a b c : string) : ((a ++ b) ++ c = a ++ (b ++ c))%string.
Proof.
  induction a as [|ch a IH]; [reflexivity|]. cbn [append]. rewrite IH. reflexivity.
Qed.

Lemma string_app_empty (a : string) : (a ++ "" = a)%string.
Proof.
  induction a as [|ch a IH]; [reflexivity|]. cbn [append]. rewrite IH. reflexivity.
Qed.

Section Transcript.

Variable JSON_parse : string -> Thrown + TranscribeCredentials.
Variable JSON_stringify : TranscribeCredentials -> string.

Lemma tick_transcript (s : Sys) : transcript (fst (tick s)) = transcript (fst s).
Proof.
  apply (@tick_invariant (fun s' => transcript (fst s') = transcript (fst s))).
  - intros c w t H; exact H.
  - intros c w l H; exact H.
  - intros [c w] H. open_op. break_match; exact H.
  - intros t [c w] H. open_op. break_match; exact H.
  - intros [c w] H. exact H.
  - reflexivity.
Qed.

Lemma onaudioprocess_transcript (frame : list float) (s : Sys) :
  transcript (fst (onaudioprocess frame s)) = transcript (fst s).
Proof. destruct s as [c w]. open_op. break_match; reflexivity. Qed.

Lemma start_transcript (env : StartEnv) (s : Sys) :
  transcript (fst (snd (start JSON_parse JSON_stringify env s))) = transcript (fst s).
Proof. start_cases env s; reflexivity. Qed.

Lemma process_event_transcript (event : TranscriptionResult) (s : Sys) :
  transcript (fst (process_event event s))
  = (transcript (fst s)
     ++ match view event with
        | Some (false, text) => text ++ " "
        | _ => ""
        end)%string.
Proof.
  destruct (view event) as [[[|] text]|] eqn:Hv.
  - rewrite (process_event_partial _ s Hv). cbn [fst]. rewrite string_app_empty.
    reflexivity.
  - rewrite (process_event_final _ s Hv). reflexivity.
  - rewrite (process_event_skipped _ s Hv). rewrite string_app_empty. reflexivity.
Qed.

(** [X17] The transcript is touched by final results and by [resetTranscript]
    only: as long as the observer does not reset it, it is what it was
    followed by the texts of all final results since, one space after each,
    across stop() and start(), failed starts, timers and audio frames.  A
    new session goes on with the transcript of the last one. *)
Theorem transcript_carries_across_sessions (inputs : list Input) (s : Sys) :
  no_reset inputs = true ->
  transcript (fst (run JSON_parse JSON_stringify inputs s))
  = (transcript (fst s) ++ committed_text (views (result_events inputs)))%string.
Proof.
  revert s. induction inputs as [|i inputs IH]; intros s Hr.
  - cbn [run fold_left result_events views committed_text].
    rewrite string_app_empty. reflexivity.
  - rewrite run_cons.
    destruct i; cbn [no_reset] in Hr; try discriminate Hr;
      rewrite (IH _ Hr); cbn [step result_events].
    + rewrite tick_transcript. reflexivity.
    + rewrite onaudioprocess_transcript. reflexivity.
    + rewrite process_event_transcript. cbn [views].
      destruct (view event) as [[[|] text]|]; cbn [committed_text];
        rewrite ?string_app_empty, ?string_app_assoc; reflexivity.
    + unfold process_error, on_world. destruct (is_AbortError error); reflexivity.
    + rewrite start_transcript. reflexivity.
    + reflexivity.
    + unfold toggle. destruct (isListening (fst s)); [reflexivity|].
      rewrite start_transcript. reflexivity.
Qed.

End Transcript.

(** [X17] Two sessions, a final result in each: the second session continues the
    transcript of the first. *)
Lemma transcript_carries_witness :
  let inputs := [CallStart all_succeed; ResultEvent (result_event false "hello");
                 CallStop; CallStart all_succeed;
                 ResultEvent (result_event true "wor");
                 ResultEvent (result_event false "world")] in
  transcript (fst (run sample_JSON_parse sample_JSON_stringify inputs
                     (initial full_platform (default_options sample_provider)
                        1000 empty_store)))
  = "hello world ".
Proof.
  apply (@transcript_carries_across_sessions sample_JSON_parse sample_JSON_stringify
           [CallStart all_succeed; ResultEvent (result_event false "hello");
            CallStop; CallStart all_succeed;
            ResultEvent (result_event true "wor");
            ResultEvent (result_event false "world")]
           (initial full_platform (default_options sample_provider) 1000 empty_store)).
  reflexivity.
Defined.
(** *** start() and toggle() *)

Section StartOutcome.

Variable JSON_parse : string -> Thrown + TranscribeCredentials.
Variable JSON_stringify : TranscribeCredentials -> string.

(** [X9] start() returns false only from its two guards.  The [try] block
    returns nothing but true, and only from its last part: a call that
    goes on after an await returns true exactly when the promise of send()
    was the one awaited and it resolved.  It then sets the flag and the
    start time, the present, tells the observer once, and touches nothing
    else: the six resources are as it finds them at that moment, whatever
    ran while it waited.  A call that goes on to another await leaves the
    flag, the start time, the timers and the observer alone. *)
Theorem start_returns_true_only_after_send (env : StartEnv) (a : Awaiting) (s : Sys) :
  let called := start_call s in
  let out := start_resume JSON_parse JSON_stringify env a s in
  (fst called = Returned false
   <-> isListening (fst s) = false
       /\ (browserSupported (fst s) = false \/ AudioContextClass (fst s) = None))
  /\ (fst called = Returned true <-> isListening (fst s) = true)
  /\ fst out <> Returned false
  /\ (fst out = Returned true <-> a = AwaitSend /\ transcribeClient_send env = None)
  /\ (fst out = Returned true ->
      isListening (fst (snd out)) = true
      /\ startTime (fst (snd out)) = Some (Date_now (snd s))
      /\ effects (snd (snd out)) = effects (snd s) ++ [state_update true false None]
      /\ snd (snd out) = emit (state_update true false None) (snd s)
      /\ stream (fst (snd out)) = stream (fst s)
      /\ audioContext (fst (snd out)) = audioContext (fst s)
      /\ sourceNode (fst (snd out)) = sourceNode (fst s)
      /\ processorNode (fst (snd out)) = processorNode (fst s)
      /\ transcribeClient (fst (snd out)) = transcribeClient (fst s)
      /\ customStream (fst (snd out)) = customStream (fst s))
  /\ (forall next, fst out = Suspended next ->
      isListening (fst (snd out)) = isListening (fst s)
      /\ startTime (fst (snd out)) = startTime (fst s)
      /\ timers (snd (snd out)) = timers (snd s)
      /\ effects (snd (snd out)) = effects (snd s)).
Proof.
  cbn zeta. split.
  { unfold start_call. destruct (isListening (fst s)); cbn [fst].
    - split; [discriminate | intros [? _]; discriminate].
    - destruct (browserSupported (fst s)); cbn [negb fst].
      + destruct (AudioContextClass (fst s)); cbn [fst].
        * split; [discriminate | intros [_ [?|?]]; discriminate].
        * split; [intros _; split; [|right]; reflexivity | reflexivity].
      + split; [intros _; split; [|left]; reflexivity | reflexivity]. }
  split.
  { unfold start_call. destruct (isListening (fst s)); cbn [fst].
    - split; reflexivity.
    - destruct (browserSupported (fst s)); cbn [negb fst];
        [destruct (AudioContextClass (fst s)); cbn [fst]|];
        split; discriminate. }
  resume_cases env a s; try use_call_frame;
    try (pose proof (@getCredentials_resume_frame JSON_stringify outcome (snd s)) as Hframe;
         cbn zeta in Hframe; rewrite Hresume in Hframe; cbn [snd] in Hframe).
  all: split; [discriminate|].
  all: split; [split; [try discriminate; intros _; split; reflexivity
                      | try (intros [? _]; discriminate);
                        try (intros [_ ?]; discriminate)]|].
  all: try (split; [discriminate|]).
  all: try (split; [|discriminate]).
  all: try (intros next _).
  all: try (intros _).
  all: cbn [fst snd on_client on_world isListening startTime timers effects
            set_stream set_audioContext set_sourceNode set_processorNode
            set_transcribeClient set_customStream set_transcribeStream
            set_startTime set_isListening set_audioStream emit
            stream audioContext sourceNode processorNode transcribeClient customStream].
  all: try (repeat split; tauto).
  all: try (intros; discriminate).
Qed.

(** [X11] toggle() returning true has flipped the listening flag; in every other
    outcome the controller was not listening and is not listening. *)
Theorem toggle_true_flips_listening (env : StartEnv) (s : Sys) :
  let out := toggle JSON_parse JSON_stringify env s in
  (fst out = inr true ->
   isListening (fst (snd out)) = negb (isListening (fst s)))
  /\ (fst out <> inr true ->
      isListening (fst s) = false /\ isListening (fst (snd out)) = false).
Proof.
  cbn zeta. unfold toggle.
  destruct (isListening (fst s)) eqn:Hl.
  { cbn [ret fst snd]. split; [reflexivity|]. intros H. exfalso. apply H. reflexivity. }
  start_cases env s; try congruence; cbn [fst snd negb]; rewrite ?Hlistening;
    (split; [try discriminate; intros _; reflexivity
            | first [intros _; split; reflexivity
                    | intros _; split; [reflexivity | exact Hlistening]
                    | intros H; exfalso; apply H; reflexivity]]).
Qed.

End StartOutcome.

(** *** Audio frames *)

Ltac state_norm :=
  cbn [fst snd customStream isListening maxSilenceTimeout countdownInterval
       silenceTimeout audioStream
       set_isActivelySpeaking set_activeStreaming
       set_silenceTimeout set_maxSilenceTimeout set_countdownInterval
       set_silenceCountdown emit set_audioStream set_timers set_next_timer
       clearTimeout clearInterval].

Section Frames.

Variable JSON_parse : string -> Thrown + TranscribeCredentials.
Variable JSON_stringify : TranscribeCredentials -> string.

(** The voice detection decides on callbacks and timers only: the frame
    goes to the stream whenever there is a stream handle. *)
Lemma onaudioprocess_forwards (frame : list float) (s : Sys) :
  audioStream (snd (onaudioprocess frame s))
  = match customStream (fst s) with
    | Some _ => option_map (ReadableStream.enqueue (pcm_chunk frame)) (audioStream (snd s))
    | None => audioStream (snd s)
    end
  /\ customStream (fst (onaudioprocess frame s)) = customStream (fst s)
  /\ isListening (fst (onaudioprocess frame s)) = isListening (fst s).
Proof.
  destruct s as [c w]. open_op. unfold pcm_chunk.
  destruct (customStream c) eqn:Hc;
    repeat (state_norm; rewrite ?Hc;
            match goal with
            | |- context [match ?x with _ => _ end] =>
                match x with
                | context [match _ with _ => _ end] => fail 1
                | _ => destruct x eqn:?
                end
            end);
    repeat split; repeat (progress (state_norm; rewrite ?Hc)); reflexivity.
Qed.

Lemma frames_forwarded (frames : list (list float)) :
  forall s : Sys,
    let s' := run JSON_parse JSON_stringify (audio_frames frames) s in
    audioStream (snd s')
    = match customStream (fst s) with
      | Some _ =>
          option_map (ReadableStream.run
                        (map (fun frame => ReadableStream.Enqueue (pcm_chunk frame)) frames))
            (audioStream (snd s))
      | None => audioStream (snd s)
      end
    /\ isListening (fst s') = isListening (fst s).
Proof.
  induction frames as [|frame frames IH]; intros s; cbn zeta.
  - cbn [audio_frames map run fold_left ReadableStream.run].
    destruct (customStream (fst s)); [destruct (audioStream (snd s))|]; repeat split.
  - unfold audio_frames. cbn [map]. rewrite run_cons. cbn [step].
    fold (audio_frames frames).
    destruct (IH (onaudioprocess frame s)) as [IHa IHl].
    destruct (onaudioprocess_forwards frame s) as (Ha & Hc & Hl).
    rewrite IHa, IHl, Hc, Ha, Hl. split; [|reflexivity].
    destruct (customStream (fst s)); [|reflexivity].
    destruct (audioStream (snd s)); reflexivity.
Qed.

(** [X18] Every frame handed to the callback goes to the stream exactly
    while the controller holds the stream handle, voiced or not, converted
    sample by sample and in arrival order: after some frames the stream,
    which is open then, is what it was with one [enqueue] for each frame.
    The handle is there from the moment start() has created the stream, so
    also while start() still awaits send() and the controller does not
    listen yet, until stop() drops it.  Without the handle a frame changes
    nothing on the stream. *)
Theorem every_frame_is_forwarded_while_stream_is_held
  (p : Platform) (options : TranscribeOptions) (now : Z) (store : option Storage)
  (events : list Event) (frames : list (list float)) :
  let s := fst (arun JSON_parse JSON_stringify events (initial p options now store, [])) in
  let s' := run JSON_parse JSON_stringify (audio_frames frames) s in
  (customStream (fst s) <> None ->
   exists q, audioStream (snd s) = Some q /\ ReadableStream.closed q = false
     /\ audioStream (snd s')
        = Some (ReadableStream.run
                  (map (fun frame => ReadableStream.Enqueue (pcm_chunk frame)) frames) q))
  /\ (customStream (fst s) = None -> audioStream (snd s') = audioStream (snd s)).
Proof.
  cbn zeta.
  pose proof (@reachable_resources JSON_parse JSON_stringify p options now store events)
    as (_ & Hc & _).
  destruct (@frames_forwarded frames
              (fst (arun JSON_parse JSON_stringify events
                      (initial p options now store, []))))
    as [Ha _].
  split; intros Hcs.
  - destruct (customStream _); [|contradiction].
    destruct Hc as (_ & q & Hq & Hopen).
    exists q. split; [exact Hq|]. split; [exact Hopen|].
    rewrite Ha, Hq. reflexivity.
  - rewrite Ha, Hcs. reflexivity.
Qed.

End Frames.

(** ** generateUUID *)

Lemma toString16_digit (v : Z) :
  (0 <= v < 16)%Z -> toString16 v = String (hex_digit v) EmptyString.
Proof.
  intros H. unfold toString16.
  destruct (Z.ltb_spec v 0); [lia|].
  cbn [hex_digits]. rewrite Z.mod_small by lia. rewrite Z.div_small by lia.
  reflexivity.
Qed.

Lemma nibble_cases (r : Z) :
  (0 <= r < 16)%Z ->
  In r [0; 1; 2; 3; 4; 5; 6; 7; 8; 9; 10; 11; 12; 13; 14; 15]%Z.
Proof.
  intros H. cbn [In].
  assert (r = 0 \/ r = 1 \/ r = 2 \/ r = 3 \/ r = 4 \/ r = 5 \/ r = 6 \/ r = 7
          \/ r = 8 \/ r = 9 \/ r = 10 \/ r = 11 \/ r = 12 \/ r = 13 \/ r = 14
          \/ r = 15)%Z by lia.
  intuition.
Qed.

Lemma hex_digit_is_hex (r : Z) : (0 <= r < 16)%Z -> is_hex (hex_digit r) = true.
Proof.
  intros H. pose proof (nibble_cases H) as Hc. cbn [In] in Hc.
  repeat (destruct Hc as [<- | Hc]; [reflexivity|]). contradiction.
Qed.

Lemma variant_digit (r : Z) :
  (0 <= r < 16)%Z ->
  toString16 (Z.lor (Z.land r 3) 8) = String (hex_digit (Z.lor (Z.land r 3) 8)) EmptyString
  /\ existsb (Ascii.eqb (hex_digit (Z.lor (Z.land r 3) 8))) (list_ascii_of_string "89ab")
     = true.
Proof.
  intros H. pose proof (nibble_cases H) as Hc. cbn [In] in Hc.
  repeat (destruct Hc as [<- | Hc]; [split; reflexivity|]). contradiction.
Qed.

(** [X22] generateUUID returns 36 characters of the shape
    [xxxxxxxx-xxxx-4xxx-yxxx-xxxxxxxxxxxx]: hyphens at positions 8, 13, 18
    and 23, the version digit 4 at position 14, one of 8, 9, a, b at
    position 19 and a lower-case hexadecimal digit everywhere else; it
    draws 31 random numbers, one for each other character in reading
    order. *)
Theorem generateUUID_is_version_4 (random : nat -> Z) :
  (forall k, (0 <= random k < 16)%Z) ->
  let id := generateUUID_from random in
  String.length id = 36
  /\ uuid_chars_ok 0 id = true
  /\ String.get 14 id = Some "4"%char
  /\ String.get 0 id = Some (hex_digit (random 0))
  /\ String.get 35 id = Some (hex_digit (random 30)).
Proof.
  intros Hr. cbn zeta. unfold generateUUID_from.
  cbn [replace_xy Ascii.eqb Bool.eqb orb].
  destruct (variant_digit (Hr 15)) as [-> Hv].
  rewrite !toString16_digit by apply Hr.
  cbn [append String.length String.get].
  split; [reflexivity|].
  split; [|repeat split].
  cbn [uuid_chars_ok uuid_char_ok existsb Nat.eqb orb].
  rewrite !hex_digit_is_hex by apply Hr. rewrite Hv. reflexivity.
Qed.

(** [X22] With a random source that counts up. *)
Lemma generateUUID_witness :
  let id := generateUUID_from (fun k => Z.of_nat k mod 16)%Z in
  String.length id = 36
  /\ uuid_chars_ok 0 id = true
  /\ String.get 14 id = Some "4"%char
  /\ String.get 0 id = Some (hex_digit (Z.of_nat 0 mod 16))
  /\ String.get 35 id = Some (hex_digit (Z.of_nat 30 mod 16)).
Proof.
  apply (@generateUUID_is_version_4 (fun k => Z.of_nat k mod 16)%Z).
  intros k. apply Z.mod_pos_bound. lia.
Defined.

(** ** The countdown and the automatic stop *)

Lemma counting_tick_idle (cfg : Config) (id : TimerId) (since k : Z) (s : Sys) :
  counting cfg id since k s ->
  (Date_now (snd s) + 1 < since + 1000 * (k + 1))%Z ->
  (Date_now (snd s) + 1 < since + maxSilenceDuration cfg)%Z ->
  tick s = (fst s, set_Date_now (Date_now (snd s) + 1) (snd s))
  /\ counting cfg id since k (tick s)
  /\ Date_now (snd (tick s)) = (Date_now (snd s) + 1)%Z.
Proof.
  intros (Ht & Hk & Hnow & Hmax & Hfit & Hm & Hc & Ha & Hs & Hl & Hcfg & Hsc) H1 H2.
  assert (E : tick s = (fst s, set_Date_now (Date_now (snd s) + 1) (snd s))).
  { unfold tick, on_world. cbn [fst snd set_Date_now timers Date_now]. rewrite Ht.
    cbn [filter long_timer countdown_running due].
    rewrite (@timer_delay_small (maxSilenceDuration cfg)) by lia.
    destruct (Z.leb_spec (since + maxSilenceDuration cfg)
                (Date_now (snd s) + 1)); [lia|].
    destruct (Z.leb_spec (since + 1000 * (k + 1)) (Date_now (snd s) + 1)); [lia|].
    reflexivity. }
  split; [exact E|]. rewrite E. split; [|reflexivity]. unfold counting.
  cbn [fst snd set_Date_now timers Date_now].
  repeat split; try assumption; lia.
Qed.

Lemma succ_eqb_self (id : TimerId) : Pos.eqb id (Pos.succ id) = false.
Proof. apply Pos.eqb_neq. lia. Qed.

Lemma succ_eqb_self' (id : TimerId) : Pos.eqb (Pos.succ id) id = false.
Proof. apply Pos.eqb_neq. lia. Qed.

(** The tick on which the countdown runs. *)
Lemma counting_tick_counts (cfg : Config) (id : TimerId) (since k : Z) (s : Sys) :
  counting cfg id since k s ->
  (Date_now (snd s) + 1 = since + 1000 * (k + 1))%Z ->
  (Date_now (snd s) + 1 < since + maxSilenceDuration cfg)%Z ->
  counting cfg id since (k + 1) (tick s)
  /\ effects (snd (tick s))
     = effects (snd s)
       ++ [state_update true false
             (Some (ceil_div_1000 (maxSilenceDuration cfg - 1000 * (k + 1))))]
  /\ Date_now (snd (tick s)) = (Date_now (snd s) + 1)%Z.
Proof.
  intros (Ht & Hk & Hnow & Hmax & Hfit & Hm & Hc & Ha & Hs & Hl & Hcfg & Hsc) H1 H2.
  destruct s as [c w]. cbn [fst snd] in *.
  assert (E : tick (c, w)
          = countdown_tick since
              (c, set_timers [long_timer id since cfg;
                              countdown_running (Pos.succ id) since (k + 1)]
                    (set_Date_now (Date_now w + 1) w))).
  { unfold tick, on_world. cbn [fst snd set_Date_now timers Date_now]. rewrite Ht.
    cbn [filter long_timer countdown_running due].
    rewrite (@timer_delay_small (maxSilenceDuration cfg)) by lia.
    destruct (Z.leb_spec (since + maxSilenceDuration cfg)
                (Date_now w + 1)); [lia|].
    destruct (Z.leb_spec (since + 1000 * (k + 1)) (Date_now w + 1)); [|lia].
    cbn [fold_left]. unfold fire, pending, reschedule, on_world.
    cbn [fst snd countdown_running timer_id every task].
    change (timers (set_Date_now (Date_now w + 1) w)) with (timers w).
    rewrite Ht. cbn [existsb map timer_id long_timer countdown_running due task every].
    rewrite Pos.eqb_refl, succ_eqb_self, Bool.orb_true_r. cbn [run_task].
    unfold countdown_running.
    replace (since + 1000 * (k + 1) + 1000)%Z with (since + 1000 * (k + 1 + 1))%Z by lia.
    reflexivity. }
  rewrite E. unfold countdown_tick.
  cbn [fst snd set_timers set_Date_now Date_now config set_silenceCountdown isListening].
  rewrite Hcfg, Hl.
  replace (Date_now w + 1 - since)%Z with (1000 * (k + 1))%Z by lia.
  destruct (Z.leb_spec (maxSilenceDuration cfg) (1000 * (k + 1))); [lia|].
  split; [|split; reflexivity].
  unfold counting.
  cbn [fst snd timers emit set_timers set_Date_now Date_now maxSilenceTimeout
       countdownInterval activeStreaming isActivelySpeaking isListening config
       silenceCountdown set_silenceCountdown].
  repeat split; try assumption; lia.
Qed.

(** The tick on which the long timer comes due runs stop(). *)
Lemma counting_tick_stops (cfg : Config) (id : TimerId) (since k : Z) (s : Sys) :
  counting cfg id since k s ->
  (Date_now (snd s) + 1 = since + maxSilenceDuration cfg)%Z ->
  tick s = stop (fst s, set_timers [countdown_running (Pos.succ id) since k]
                          (set_Date_now (Date_now (snd s) + 1) (snd s)))
  /\ timers (snd (tick s)) = [].
Proof.
  intros (Ht & Hk & Hnow & Hmax & Hfit & Hm & Hc & Ha & Hs & Hl & Hcfg & Hsc) H1.
  destruct s as [c w]. cbn [fst snd] in *.
  set (s1 := stop (c, set_timers [countdown_running (Pos.succ id) since k]
                        (set_Date_now (Date_now w + 1) w))).
  assert (T : timers (snd s1) = []).
  { subst s1. destruct (stop_timers (c, set_timers [countdown_running (Pos.succ id) since k]
                        (set_Date_now (Date_now w + 1) w))) as [-> _].
    rewrite !timers_clear_handle_kept. cbn [fst snd timers set_timers].
    rewrite Hm, Hc.
    destruct (silenceTimeout c) as [x|]; cbn [filter kept timer_id countdown_running];
      [destruct (Pos.eqb (Pos.succ id) x); cbn [negb filter kept timer_id countdown_running]|];
      rewrite ?succ_eqb_self', ?Pos.eqb_refl; cbn [negb filter kept timer_id];
      rewrite ?Pos.eqb_refl; reflexivity. }
  assert (E : tick (c, w) = s1).
  { unfold tick, on_world. cbn [fst snd set_Date_now timers Date_now]. rewrite Ht.
    cbn [filter long_timer countdown_running due].
    rewrite (@timer_delay_small (maxSilenceDuration cfg)) by lia.
    destruct (Z.leb_spec (since + maxSilenceDuration cfg)
                (Date_now w + 1)); [|lia].
    assert (F : fire (long_timer id since cfg)
                  (c, set_Date_now (Date_now w + 1) w) = s1).
    { unfold fire, pending.
      cbn [timer_id every task fst snd set_Date_now timers long_timer]. rewrite Ht.
      cbn [existsb timer_id long_timer]. rewrite Pos.eqb_refl. cbn [orb run_task].
      unfold clearTimeout, on_world. cbn [fst snd timers set_timers set_Date_now].
      rewrite Ht. cbn [filter timer_id long_timer countdown_running].
      rewrite Pos.eqb_refl, succ_eqb_self'. cbn [negb]. reflexivity. }
    destruct (Z.leb_spec (since + 1000 * (k + 1)) (Date_now w + 1));
      cbn [fold_left]; fold (long_timer id since cfg); rewrite F; [|reflexivity].
    unfold fire, pending. rewrite T. reflexivity. }
  split; [exact E | rewrite E; exact T].
Qed.

Section Countdown.

Variable JSON_parse : string -> Thrown + TranscribeCredentials.
Variable JSON_stringify : TranscribeCredentials -> string.

(** Apart from the ticks, what happens during silence changes nothing of
    the controller but the transcript. *)
Lemma quiet_step_client (cfg : Config) (i : Input) (s : Sys) :
  config (fst s) = cfg -> quiet cfg i = true -> i <> Tick ->
  exists text, fst (step JSON_parse JSON_stringify s i) = set_transcript text (fst s).
Proof.
  intros Hc Hq Hi. destruct s as [c w]. cbn [fst] in Hc.
  assert (Hsame : c = set_transcript (transcript c) c) by (destruct c; reflexivity).
  destruct i; cbn [quiet] in Hq; try discriminate Hq; try (exfalso; apply Hi; reflexivity);
    cbn [step].
  - exists (transcript c). unfold onaudioprocess. cbn [fst]. rewrite Hc.
    apply Bool.negb_true_iff in Hq. rewrite Hq. cbn [andb fst].
    destruct (customStream c) eqn:Hcs; [|exact Hsame].
    unfold _processAudioData. cbn [fst]. rewrite Hcs. exact Hsame.
  - unfold process_event, on_client, on_world. cbn [fst snd].
    destruct (first_result event) as [r|]; [|exists (transcript c); exact Hsame].
    destruct (is_partial r); [exists (transcript c); exact Hsame|].
    eexists. reflexivity.
  - exists (transcript c). unfold process_error, on_world.
    destruct (is_AbortError error); exact Hsame.
  - exists ""%string. reflexivity.
Qed.

Lemma counting_quiet_step (cfg : Config) (id : TimerId) (since k : Z) (i : Input)
  (s : Sys) :
  counting cfg id since k s -> quiet cfg i = true -> i <> Tick ->
  counting cfg id since k (step JSON_parse JSON_stringify s i)
  /\ Date_now (snd (step JSON_parse JSON_stringify s i)) = Date_now (snd s).
Proof.
  intros (Ht & Hk & Hnow & Hmax & Hfit & Hm & Hc & Ha & Hs & Hl & Hcfg & Hsc) Hq Hi.
  destruct (@quiet_step_timers JSON_parse JSON_stringify cfg i s Hcfg Hq Hi)
    as (Et & _ & En & _ & _ & _ & _ & _ & _ & _).
  destruct (@quiet_step_client cfg i s Hcfg Hq Hi) as [text Ec].
  split; [|exact En].
  unfold counting. rewrite Et, En, Ec.
  cbn [maxSilenceTimeout countdownInterval activeStreaming isActivelySpeaking
       isListening config silenceCountdown set_transcript].
  repeat split; try assumption; lia.
Qed.

(** Silence that ends before the long timer is due leaves the countdown
    running. *)
Lemma counting_run (cfg : Config) (id : TimerId) (since : Z) (inputs : list Input) :
  forall (k : Z) (s : Sys),
    counting cfg id since k s -> forallb (quiet cfg) inputs = true ->
    (Date_now (snd s) + Z.of_nat (ticks inputs) < since + maxSilenceDuration cfg)%Z ->
    exists k',
      counting cfg id since k' (run JSON_parse JSON_stringify inputs s)
      /\ Date_now (snd (run JSON_parse JSON_stringify inputs s))
         = (Date_now (snd s) + Z.of_nat (ticks inputs))%Z.
Proof.
  induction inputs as [|i inputs IH]; intros k s Hs Hq Hlt.
  - exists k. split; [exact Hs|]. cbn [ticks run fold_left]. lia.
  - cbn [forallb] in Hq. apply Bool.andb_true_iff in Hq. destruct Hq as [Hqi Hq].
    rewrite run_cons.
    destruct i; try discriminate Hqi.
    + (* a tick *)
      cbn [ticks] in Hlt. rewrite Nat2Z.inj_succ in Hlt. cbn [step].
      pose proof Hs as (_ & _ & Hnow & _).
      assert (Hnext : exists k1, counting cfg id since k1 (tick s)
                        /\ Date_now (snd (tick s)) = (Date_now (snd s) + 1)%Z).
      { destruct (Z.eq_dec (Date_now (snd s) + 1) (since + 1000 * (k + 1))) as [Hdue|Hdue].
        - destruct (@counting_tick_counts cfg id since k s Hs Hdue ltac:(lia))
            as (Hs' & _ & Hn).
          exists (k + 1)%Z. split; assumption.
        - destruct (@counting_tick_idle cfg id since k s Hs ltac:(lia) ltac:(lia))
            as (_ & Hs' & Hn).
          exists k. split; assumption. }
      destruct Hnext as (k1 & Hs1 & Hn1).
      destruct (IH k1 (tick s) Hs1 Hq ltac:(lia)) as (k' & Hk' & Hn').
      exists k'. split; [exact Hk'|]. rewrite Hn', Hn1. cbn [ticks]. lia.
    + (* a silent frame *)
      destruct (@counting_quiet_step cfg id since k (AudioProcess inputData) s Hs Hqi
                  ltac:(discriminate)) as [Hs1 Hn1].
      destruct (IH k _ Hs1 Hq ltac:(rewrite Hn1; exact Hlt)) as (k' & Hk' & Hn').
      exists k'. split; [exact Hk'|]. rewrite Hn', Hn1. reflexivity.
    + destruct (@counting_quiet_step cfg id since k (ResultEvent event) s Hs Hqi
                  ltac:(discriminate)) as [Hs1 Hn1].
      destruct (IH k _ Hs1 Hq ltac:(rewrite Hn1; exact Hlt)) as (k' & Hk' & Hn').
      exists k'. split; [exact Hk'|]. rewrite Hn', Hn1. reflexivity.
    + destruct (@counting_quiet_step cfg id since k (ResultFailure error) s Hs Hqi
                  ltac:(discriminate)) as [Hs1 Hn1].
      destruct (IH k _ Hs1 Hq ltac:(rewrite Hn1; exact Hlt)) as (k' & Hk' & Hn').
      exists k'. split; [exact Hk'|]. rewrite Hn', Hn1. reflexivity.
    + destruct (@counting_quiet_step cfg id since k ResetTranscript s Hs Hqi
                  ltac:(discriminate)) as [Hs1 Hn1].
      destruct (IH k _ Hs1 Hq ltac:(rewrite Hn1; exact Hlt)) as (k' & Hk' & Hn').
      exists k'. split; [exact Hk'|]. rewrite Hn', Hn1. reflexivity.
Qed.

(** Silence without ticks changes no timer and nothing of the controller
    but the transcript. *)
Lemma quiet_run_no_ticks (cfg : Config) (inputs : list Input) :
  forall s : Sys,
    config (fst s) = cfg -> forallb (quiet cfg) inputs = true -> ticks inputs = 0 ->
    timers (snd (run JSON_parse JSON_stringify inputs s)) = timers (snd s)
    /\ exists text,
         fst (run JSON_parse JSON_stringify inputs s) = set_transcript text (fst s).
Proof.
  induction inputs as [|i inputs IH]; intros s Hc Hq Ht.
  - split; [reflexivity|]. exists (transcript (fst s)). destruct s as [[] w]. reflexivity.
  - cbn [forallb] in Hq. apply Bool.andb_true_iff in Hq. destruct Hq as [Hqi Hq].
    assert (Hi : i <> Tick) by (intros ->; discriminate Ht).
    assert (Ht' : ticks inputs = 0) by (destruct i; try exact Ht; discriminate Ht).
    destruct (@quiet_step_timers JSON_parse JSON_stringify cfg i s Hc Hqi Hi)
      as (Et & _ & _ & _ & _ & _ & _ & _ & Ec & _).
    cbn zeta in *.
    destruct (@quiet_step_client cfg i s Hc Hqi Hi) as [text Es].
    rewrite run_cons.
    destruct (IH (step JSON_parse JSON_stringify s i) ltac:(congruence) Hq Ht')
      as (IHt & text' & IHc).
    split; [congruence|]. exists text'. rewrite IHc, Es. reflexivity.
Qed.

(** [X20] From the arming of the long timer on, [maxSilenceDuration] ms of
    silence, a duration that setTimeout takes as it is (above 0 and below
    2^31 ms), with no call of stop(), start() or toggle() in them, end the
    session: until the last of them the controller listens
    and, from the first whole second on, getState().silenceCountdown is the
    number of seconds left, rounded up; the tick that completes them runs
    stop(), after which the controller does not listen, holds no resource
    and has no timer pending. *)
Theorem max_silence_stops_the_session
  (cfg : Config) (id : TimerId) (since : Z) (s : Sys) (inputs : list Input) :
  armed cfg id since s -> config (fst s) = cfg -> isListening (fst s) = true ->
  Date_now (snd s) = since ->
  (0 < maxSilenceDuration cfg < 2147483648)%Z ->
  forallb (quiet cfg) inputs = true ->
  ticks inputs = Z.to_nat (maxSilenceDuration cfg) ->
  let s' := run JSON_parse JSON_stringify inputs s in
  (forall early rest, inputs = early ++ rest -> ticks early < ticks inputs ->
     let s1 := run JSON_parse JSON_stringify early s in
     isListening (fst s1) = true
     /\ ((1000 <= Z.of_nat (ticks early))%Z ->
         st_silenceCountdown (getState (fst s1))
         = Some (ceil_div_1000
                   (maxSilenceDuration cfg - 1000 * (Z.of_nat (ticks early) / 1000)))))
  /\ isListening (fst s') = false /\ holds_none (fst s')
  /\ st_silenceCountdown (getState (fst s')) = None
  /\ timers (snd s') = [].
Proof.
  intros (Ht & Hm & Hci & Ha & Hsp) Hcfg Hl Hnow Hmax Hq Hticks. cbn zeta.
  assert (H0 : counting cfg id since 0 s).
  { unfold counting. rewrite Ht, Hnow. repeat split; try assumption; lia. }
  split.
  - intros early rest -> Hlt.
    rewrite forallb_app in Hq. apply Bool.andb_true_iff in Hq. destruct Hq as [Hqe _].
    destruct (@counting_run cfg id since early 0%Z s H0 Hqe ltac:(lia))
      as (k' & Hk' & Hn').
    destruct Hk' as (_ & Hk0 & Hrange & _ & _ & _ & _ & _ & _ & Hl' & _ & Hsc).
    split; [exact Hl'|]. intros Hsec. cbn [getState st_silenceCountdown].
    assert (Hdiv : (Z.of_nat (ticks early) / 1000 = k')%Z).
    { symmetry. apply (Z.div_unique _ 1000 k' (Z.of_nat (ticks early) - 1000 * k')); lia. }
    rewrite Hdiv. apply Hsc. lia.
  - destruct (Z.to_nat (maxSilenceDuration cfg)) as [|n] eqn:Hn; [lia|].
    destruct (ticks_split inputs Hticks) as (a & b & -> & Hta & Htb).
    rewrite forallb_app in Hq. apply Bool.andb_true_iff in Hq. destruct Hq as [Hqa Hqb].
    cbn [forallb] in Hqb. apply Bool.andb_true_iff in Hqb. destruct Hqb as [_ Hqb].
    destruct (@counting_run cfg id since a 0%Z s H0 Hqa ltac:(lia)) as (k' & Hk' & Hn').
    rewrite run_app, run_cons. cbn [step].
    destruct (@counting_tick_stops cfg id since k' _ Hk' ltac:(lia)) as [E T].
    assert (Hc' : config (fst (tick (run JSON_parse JSON_stringify a s))) = cfg).
    { rewrite E. cbn [stop fst config]. apply Hk'. }
    destruct (@quiet_run_no_ticks cfg b _ Hc' Hqb Htb) as (Et & text & Ec).
    rewrite Et, Ec, T, E.
    cbn [getState st_silenceCountdown].
    repeat split.
Qed.

End Countdown.

(** [X20] A listening session with a silence duration of 3 ms, a frame of speech
    and 3 ms of silence: the long timer was armed at t = 1003; 2500 ms of
    silence later, a silent frame among them, the session has stopped. *)
Lemma max_silence_witness :
  let cfg := make_config (short_session_options sample_provider) in
  let s := run sample_JSON_parse sample_JSON_stringify
             [CallStart all_succeed; AudioProcess [0.5%float; 0.5%float];
              Tick; Tick; Tick]
             (initial full_platform (short_session_options sample_provider) 1000
                empty_store) in
  let inputs := repeat Tick 1200 ++ AudioProcess [0%float] :: repeat Tick 1300 in
  let s' := run sample_JSON_parse sample_JSON_stringify inputs s in
  (forall early rest, inputs = early ++ rest -> ticks early < ticks inputs ->
     let s1 := run sample_JSON_parse sample_JSON_stringify early s in
     isListening (fst s1) = true
     /\ ((1000 <= Z.of_nat (ticks early))%Z ->
         st_silenceCountdown (getState (fst s1))
         = Some (ceil_div_1000
                   (maxSilenceDuration cfg - 1000 * (Z.of_nat (ticks early) / 1000)))))
  /\ isListening (fst s') = false /\ holds_none (fst s')
  /\ st_silenceCountdown (getState (fst s')) = None
  /\ timers (snd s') = [].
Proof.
  apply (@max_silence_stops_the_session sample_JSON_parse sample_JSON_stringify
           (make_config (short_session_options sample_provider)) 2%positive 1003%Z
           (run sample_JSON_parse sample_JSON_stringify
              [CallStart all_succeed; AudioProcess [0.5%float; 0.5%float];
               Tick; Tick; Tick]
              (initial full_platform (short_session_options sample_provider) 1000
                 empty_store))
           (repeat Tick 1200 ++ AudioProcess [0%float] :: repeat Tick 1300)).
  - unfold armed. repeat split; vm_compute; reflexivity.
  - reflexivity.
  - vm_compute. reflexivity.
  - vm_compute. reflexivity.
  - vm_compute. split; reflexivity.
  - vm_compute. reflexivity.
  - vm_compute. reflexivity.
Defined.

Section Rearm.

Variable JSON_parse : string -> Thrown + TranscribeCredentials.
Variable JSON_stringify : TranscribeCredentials -> string.

(** [X19] Whatever happened before, calls of start() still waiting at an
    await included, a frame with speech cancels the timers of the
    controller that are pending, the long timer and the countdown
    included, and leaves one: the short one, due after the delay that
    setTimeout makes of [silenceDuration] (the duration itself when it is
    between 0 and 2^31 - 1 ms).  The observer is told of speech, by
    [onSpeechStart] and one state update, only if none was going on. *)
Theorem voiced_frame_rearms_and_cancels
  (p : Platform) (options : TranscribeOptions) (now : Z) (store : option Storage)
  (before : list Event) (frame : list float) :
  let s := fst (arun JSON_parse JSON_stringify before (initial p options now store, [])) in
  _detectVoiceActivity (vadThreshold (config (fst s))) frame = true ->
  let s' := onaudioprocess frame s in
  timers (snd s')
  = [short_timer (next_timer (snd s))
       (Date_now (snd s) + timer_delay (silenceDuration (config (fst s))))]
  /\ silenceTimeout (fst s') = Some (next_timer (snd s))
  /\ maxSilenceTimeout (fst s') = None
  /\ countdownInterval (fst s') = None
  /\ isActivelySpeaking (fst s') = true
  /\ effects (snd s')
     = effects (snd s)
       ++ (if activeStreaming (fst s) then []
           else [CallOnSpeechStart; state_update (isListening (fst s)) true None]).
Proof.
  cbn zeta.
  assert (Hwf : timers_wf (fst (arun JSON_parse JSON_stringify before
                                  (initial p options now store, [])))).
  { apply arun_preserves_wf, initial_wf. }
  revert Hwf. generalize (fst (arun JSON_parse JSON_stringify before
                                 (initial p options now store, []))).
  intros s Hwf Hv. unfold onaudioprocess. rewrite Hv. cbn [andb].
  set (s1 := if negb (activeStreaming (fst s)) then _ else _).
  assert (H1 : timers (snd s1)
               = [short_timer (next_timer (snd s))
                    (Date_now (snd s) + timer_delay (silenceDuration (config (fst s))))]
               /\ silenceTimeout (fst s1) = Some (next_timer (snd s))
               /\ maxSilenceTimeout (fst s1) = None
               /\ countdownInterval (fst s1) = None
               /\ isActivelySpeaking (fst s1) = true
               /\ effects (snd s1)
                  = effects (snd s)
                    ++ (if activeStreaming (fst s) then []
                        else [CallOnSpeechStart;
                              state_update (isListening (fst s)) true None])).
  { subst s1. destruct s as [c w]. cbn [fst snd] in *.
    destruct (activeStreaming c) eqn:Ha; cbn [negb].
    - destruct (resetSilenceTimeout_spec Hwf)
        as (Ht & _ & H1 & H2 & H3 & _ & H5 & _ & _ & _ & He & _).
      destruct Hwf as (_ & _ & _ & _ & Hfl). cbn [fst snd] in Hfl.
      rewrite Ht, H1, H2, H3, H5, He, <- Hfl, Ha, app_nil_r. repeat split.
    - set (c1 := set_isActivelySpeaking true (set_activeStreaming true c)).
      assert (Hwf1 : timers_wf (c1, w)).
      { destruct Hwf as (Hown & Hs & Hm & Hcd & Hfl).
        unfold timers_wf. repeat split; assumption. }
      destruct (resetSilenceTimeout_spec Hwf1)
        as (Ht & _ & H1 & H2 & H3 & _ & H5 & H6 & _ & _ & He & _).
      unfold on_client, on_world. cbn [fst snd].
      fold c1. cbn [fst snd emit timers effects].
      rewrite Ht, H1, H2, H3, H5, H6, He. cbn [c1 config isListening
        isActivelySpeaking set_isActivelySpeaking set_activeStreaming].
      rewrite <- app_assoc. repeat split. }
  destruct (customStream (fst s1)); [|exact H1].
  destruct (processAudioData_timers frame s1) as (Ec & Et & _ & Ee & _).
  rewrite Ec, Et, Ee. exact H1.
Qed.

End Rearm.

(** [X19] During the countdown of the sample session, 1200 ms into it, a frame of
    speech arrives. *)
Lemma voiced_frame_witness :
  let s := fst (arun sample_JSON_parse sample_JSON_stringify
                  (map Plain
                     ([CallStart all_succeed; AudioProcess [0.5%float; 0.5%float];
                       Tick; Tick; Tick] ++ repeat Tick 1200))
                  (initial full_platform (short_session_options sample_provider) 1000
                     empty_store, [])) in
  let s' := onaudioprocess [0.5%float; 0.5%float] s in
  timers (snd s')
  = [short_timer (next_timer (snd s))
       (Date_now (snd s) + timer_delay (silenceDuration (config (fst s))))]
  /\ silenceTimeout (fst s') = Some (next_timer (snd s))
  /\ maxSilenceTimeout (fst s') = None
  /\ countdownInterval (fst s') = None
  /\ isActivelySpeaking (fst s') = true
  /\ effects (snd s')
     = effects (snd s)
       ++ (if activeStreaming (fst s) then []
           else [CallOnSpeechStart; state_update (isListening (fst s)) true None]).
Proof.
  apply (@voiced_frame_rearms_and_cancels sample_JSON_parse sample_JSON_stringify
           full_platform (short_session_options sample_provider) 1000%Z empty_store
           (map Plain
              ([CallStart all_succeed; AudioProcess [0.5%float; 0.5%float];
                Tick; Tick; Tick] ++ repeat Tick 1200))
           [0.5%float; 0.5%float]).
  vm_compute. reflexivity.
Defined.

(** ** No timer outlives stop() *)

Section NoTimerLeft.

Variable JSON_parse : string -> Thrown + TranscribeCredentials.
Variable JSON_stringify : TranscribeCredentials -> string.

(** [X21] Every timer the controller has pending is one of the three it keeps a
    handle of, so that stop(), whenever it is called, leaves none pending:
    nothing of the controller runs after stop() until it is started again
    or called. *)
Theorem stop_leaves_no_timer_pending
  (p : Platform) (options : TranscribeOptions) (now : Z) (store : option Storage)
  (inputs : list Input) :
  let s := run JSON_parse JSON_stringify inputs (initial p options now store) in
  timers (snd (stop s)) = []
  /\ tick (stop s) = on_world (fun w => set_Date_now (Date_now w + 1) w) (stop s).
Proof.
  cbn zeta.
  assert (Hwf : timers_wf (run JSON_parse JSON_stringify inputs
                             (initial p options now store))).
  { apply run_preserves_wf, initial_wf. }
  revert Hwf. generalize (run JSON_parse JSON_stringify inputs
                            (initial p options now store)).
  intros s (Hown & _).
  assert (T : timers (snd (stop s)) = []).
  { destruct (stop_timers s) as [-> _].
    rewrite !timers_clear_handle_kept. cbn [timers set_timers].
    apply owned_timers_cleared, Hown. }
  split; [exact T|].
  unfold tick. cbn [on_world fst snd timers set_Date_now]. rewrite T. reflexivity.
Qed.

End NoTimerLeft.

(** ** The configuration *)


(** ** A failing result stream *)

Lemma process_event_frame (event : TranscriptionResult) (s : Sys) :
  (exists text, fst (process_event event s) = set_transcript text (fst s))
  /\ timers (snd (process_event event s)) = timers (snd s)
  /\ audioStream (snd (process_event event s)) = audioStream (snd s)
  /\ localStorage (snd (process_event event s)) = localStorage (snd s).
Proof.
  destruct s as [c w]. unfold process_event, on_client, on_world, _handleTranscription.
  cbn [fst snd].
  assert (Hsame : c = set_transcript (transcript c) c) by (destruct c; reflexivity).
  destruct (first_result event) as [r|];
    [destruct (is_partial r)|]; cbn [fst snd]; repeat split;
    try (exists (transcript c); exact Hsame); eexists; reflexivity.
Qed.

Lemma process_events_frame (events : list TranscriptionResult) :
  forall s : Sys,
    let s' := fold_left (fun s event => process_event event s) events s in
    (exists text, fst s' = set_transcript text (fst s))
    /\ timers (snd s') = timers (snd s)
    /\ audioStream (snd s') = audioStream (snd s)
    /\ localStorage (snd s') = localStorage (snd s).
Proof.
  induction events as [|event events IH]; intros s; cbn zeta.
  - cbn [fold_left]. repeat split. exists (transcript (fst s)).
    destruct s as [[] w]. reflexivity.
  - cbn [fold_left].
    destruct (IH (process_event event s)) as ((t' & Hc') & Ht' & Ha' & Hl').
    destruct (process_event_frame event s) as ((t & Hc) & Ht & Ha & Hl).
    rewrite Ht', Ha', Hl', Ht, Ha, Hl. repeat split.
    exists t'. rewrite Hc', Hc. reflexivity.
Qed.

(** [X23] When the result stream fails, the failure is reported and
    nothing else happens: the controller is as the events before the
    failure left it (still listening, if it was), no timer, stream or store
    is touched, and the observer gets one [onError] call with the message
    after a fixed prefix, or none at all if the error is an [Error] named
    AbortError.  stop() is not called. *)
Theorem result_stream_failure_is_reported_not_fatal
  (events : list TranscriptionResult) (error : Thrown) (s : Sys) :
  let s' := _processTranscriptionResults events (Some error) s in
  let s0 := _processTranscriptionResults events None s in
  fst s' = fst s0
  /\ effects (snd s')
     = effects (snd s0)
       ++ (if is_AbortError error then []
           else [CallOnError
                   ("Transcription error: "
                    ++ (if truthy_string (errorMessage error)
                        then errorMessage error else "Unknown error"))])
  /\ (exists text, fst s' = set_transcript text (fst s))
  /\ st_isListening (getState (fst s')) = st_isListening (getState (fst s))
  /\ timers (snd s') = timers (snd s)
  /\ audioStream (snd s') = audioStream (snd s)
  /\ localStorage (snd s') = localStorage (snd s).
Proof.
  cbn zeta. unfold _processTranscriptionResults.
  destruct (process_events_frame events s) as ((text & Hc) & Ht & Ha & Hl).
  cbn zeta in *.
  set (s0 := fold_left (fun s event => process_event event s) events s) in *.
  unfold process_error, on_world.
  destruct (is_AbortError error); cbn [fst snd emit effects timers audioStream localStorage].
  - rewrite app_nil_r, Hc. repeat split; try assumption. exists text. reflexivity.
  - rewrite Hc. repeat split; try assumption. exists text. reflexivity.
Qed.
(** *** stop() while start() awaits send() *)

Section OverriddenStop.

Variable JSON_parse : string -> Thrown + TranscribeCredentials.
Variable JSON_stringify : TranscribeCredentials -> string.

(** [X24] The listening flag is not tied to the resources: a stop() that
    comes while a call of start() awaits send() does not cancel the call.
    When send() resolves, start() goes on to set the start time and the
    flag and tells the observer that the controller listens, although
    stop() has released every resource and closed the stream: the
    controller then listens with nothing to listen with, and frames are
    not forwarded. *)
Theorem stop_during_await_send_is_overridden
  (p : Platform) (options : TranscribeOptions) (now : Z) (store : option Storage)
  (events : list Event) (k : nat) (env : StartEnv) :
  let x := arun JSON_parse JSON_stringify events (initial p options now store, []) in
  nth_error (snd x) k = Some AwaitSend ->
  transcribeClient_send env = None ->
  let x' := arun JSON_parse JSON_stringify [Plain CallStop; StartResumed k env] x in
  st_isListening (getState (fst (fst x'))) = true
  /\ holds_none (fst (fst x'))
  /\ stream_absent_or_closed (snd (fst x'))
  /\ startTime (fst (fst x')) = Some (Date_now (snd (fst x)))
  /\ effects (snd (fst x'))
     = (effects (snd (fst x)) ++ release_calls (fst (fst x))
        ++ [state_update false false None; state_update true false None])%list
  /\ (forall frame,
        audioStream (snd (onaudioprocess frame (fst x')))
        = audioStream (snd (fst x')))
  /\ snd x' = remove_nth k (snd x).
Proof.
  cbn zeta.
  pose proof (@reachable_resources JSON_parse JSON_stringify p options now store events)
    as Hres.
  destruct (arun JSON_parse JSON_stringify events (initial p options now store, []))
    as [s pending].
  cbn [fst snd] in *. intros Hk Hsend.
  cbn [arun fold_left astep step fst snd]. rewrite Hk.
  unfold start_resume, resume_try, bind, external, perform, ret. rewrite Hsend.
  cbn [fst snd suspend].
  assert (Hclosed : stream_absent_or_closed (snd (stop s))).
  { apply resources_without_stream_handle; [|reflexivity].
    apply stop_resources, resources_without_stream_handle, Hres. }
  split; [reflexivity|]. split; [repeat split|].
  split; [exact Hclosed|].
  split.
  { handles_norm. destruct (stop_frame s) as (-> & _ & _).
    unfold record_usage, storeMinutesUsed.
    destruct (startTime (fst s)) as [t|]; [destruct (truthy_int t)|];
      try reflexivity.
    destruct (localStorage (snd s)); reflexivity. }
  split.
  { handles_norm. cbn [emit effects]. rewrite effects_stop, <- !app_assoc.
    reflexivity. }
  split; [|reflexivity].
  intros frame.
  destruct (onaudioprocess_forwards frame
              (on_world (emit (state_update true false None))
                 (on_client (set_isListening true)
                    (on_client
                       (set_startTime
                          (Some (Date_now
                                   (snd (on_client (set_transcribeStream (Some handle))
                                           (stop s))))))
                       (on_client (set_transcribeStream (Some handle)) (stop s))))))
    as (-> & _). reflexivity.
Qed.

End OverriddenStop.

(** [X24] A start() on a full platform is resumed up to its await of send();
    then stop() is called, and then send() resolves. *)
Lemma stop_during_await_send_witness :
  let x := arun sample_JSON_parse sample_JSON_stringify
             [StartCalled; StartResumed 0 all_succeed; StartResumed 0 all_succeed;
              StartResumed 0 all_succeed; StartResumed 0 all_succeed]
             (initial full_platform (default_options sample_provider) 1000 empty_store,
              []) in
  let x' := arun sample_JSON_parse sample_JSON_stringify
              [Plain CallStop; StartResumed 0 all_succeed] x in
  snd x = [AwaitSend]
  /\ holds_all (fst (fst x))
  /\ st_isListening (getState (fst (fst x'))) = true
  /\ holds_none (fst (fst x'))
  /\ stream_absent_or_closed (snd (fst x'))
  /\ startTime (fst (fst x')) = Some (Date_now (snd (fst x)))
  /\ effects (snd (fst x'))
     = (effects (snd (fst x)) ++ release_calls (fst (fst x))
        ++ [state_update false false None; state_update true false None])%list
  /\ (forall frame,
        audioStream (snd (onaudioprocess frame (fst x')))
        = audioStream (snd (fst x')))
  /\ snd x' = remove_nth 0 (snd x).
Proof.
  split; [vm_compute; reflexivity|].
  split; [vm_compute; repeat split; discriminate|].
  apply (@stop_during_await_send_is_overridden sample_JSON_parse sample_JSON_stringify
           full_platform (default_options sample_provider) 1000%Z empty_store
           [StartCalled; StartResumed 0 all_succeed; StartResumed 0 all_succeed;
            StartResumed 0 all_succeed; StartResumed 0 all_succeed]
           0%nat all_succeed).
  - vm_compute. reflexivity.
  - reflexivity.
Defined.
(** *** start() on its failure paths *)

Section StartFailure.

Variable JSON_parse : string -> Thrown + TranscribeCredentials.
Variable JSON_stringify : TranscribeCredentials -> string.

(** The [catch] block of start() cleans up. *)
Lemma start_catch_cleans (error : Thrown) (s1 : Sys) :
  cleaned_up error s1 (snd (start_catch error s1)).
Proof.
  rewrite start_catch_spec. cbn [snd]. unfold cleaned_up, rolled_back.
  set (s2 := (set_startTime None (set_isListening false (fst s1)),
              emit (CallOnError _) (snd s1))).
  split.
  { rewrite effects_stop. subst s2. cbn [fst snd emit effects].
    rewrite <- !app_assoc. reflexivity. }
  split; [rewrite audioStream_stop; reflexivity|].
  split.
  { destruct (stop_timers s2) as [-> _].
    rewrite !timers_clear_handle_kept. reflexivity. }
  destruct (stop_frame s2) as (Hn & Hl & Hp). cbn zeta in Hn, Hl, Hp.
  split; [exact Hl|]. split; [exact Hn|]. split; [exact Hp|].
  split; [apply stop_leaves_idle|]. repeat split.
Qed.

Lemma release_calls_none (c : Client) : holds_none c -> release_calls c = [].
Proof.
  intros (H1 & H2 & H3 & H4 & H5 & H6). unfold release_calls.
  rewrite H1, H2, H3, H4, H5, H6. reflexivity.
Qed.

(** What the [try] block of an uninterrupted start() has acquired when it
    fails at the credential lookup, and at send(). *)
Lemma start_try_credentials_failure_at (env : StartEnv) (s : Sys) (e : Thrown) :
  audio_graph_built env ->
  fst (AWSCredentials_getCredentials JSON_parse JSON_stringify
         (credentialsProvider (config (fst s))) (snd s)) = inl e ->
  exists w1,
    start_try JSON_parse JSON_stringify env s
    = (inl e,
       (set_processorNode (Some handle)
          (set_sourceNode (Some handle)
             (set_audioContext (Some handle) (set_stream (Some handle) (fst s)))), w1))
    /\ effects w1 = effects (snd s) /\ audioStream w1 = audioStream (snd s).
Proof.
  intros (H1 & H2 & H3 & H4 & H5 & H6) Hc.
  pose proof (@getCredentials_frame JSON_parse JSON_stringify
                (credentialsProvider (config (fst s))) (snd s)) as Hf.
  cbn zeta in Hf.
  unfold start_try, bind, external, perform, throw, ret, _createTranscribeClient.
  rewrite H1, H2, H3, H4, H5, H6. cbn [fst snd on_client config
    set_stream set_audioContext set_sourceNode set_processorNode].
  destruct (AWSCredentials_getCredentials _ _ _ _) as [[e'|c] w];
    cbn [fst snd] in *; [|discriminate].
  injection Hc as ->. exists w. destruct Hf as (_ & Ha & He & _).
  split; [reflexivity|]. split; assumption.
Qed.

Lemma start_try_send_failure_at (env : StartEnv) (s : Sys) (e : Thrown)
  (c : TranscribeCredentials) :
  audio_graph_built env ->
  fst (AWSCredentials_getCredentials JSON_parse JSON_stringify
         (credentialsProvider (config (fst s))) (snd s)) = inr c ->
  new_TranscribeStreamingClient env = None ->
  call_generateSessionId env = None ->
  transcribeClient_send env = Some e ->
  exists w1,
    start_try JSON_parse JSON_stringify env s
    = (inl e,
       (set_customStream (Some handle)
          (set_transcribeClient (Some handle)
             (set_processorNode (Some handle)
                (set_sourceNode (Some handle)
                   (set_audioContext (Some handle) (set_stream (Some handle) (fst s)))))),
        set_audioStream (Some ReadableStream.new) w1))
    /\ effects w1 = effects (snd s).
Proof.
  intros (H1 & H2 & H3 & H4 & H5 & H6) Hc H7 H8 H9.
  pose proof (@getCredentials_frame JSON_parse JSON_stringify
                (credentialsProvider (config (fst s))) (snd s)) as Hf.
  cbn zeta in Hf.
  unfold start_try, bind, external, perform, throw, ret, _createTranscribeClient.
  rewrite H1, H2, H3, H4, H5, H6, H7, H8, H9. cbn [fst snd on_client config
    set_stream set_audioContext set_sourceNode set_processorNode].
  destruct (AWSCredentials_getCredentials _ _ _ _) as [[e'|c'] w];
    cbn [fst snd] in *; [discriminate|].
  exists w. destruct Hf as (_ & _ & He & _). split; [reflexivity | exact He].
Qed.

(** [C2] start() on its failure paths.  Whatever the [try] block throws,
    at whichever await the call stands and whatever ran while it waited
    (a failed media acquisition, credential fetch or session opening among
    the errors), the [catch] block cleans up and then the same error is
    thrown again: [onError] gets the message; every resource the
    controller holds is released, in the order of stop(); the stream is
    closed; the timers of the controller are cleared; the controller is
    idle with no start time, no usage is recorded, and the observer is
    told last that the controller does not listen.  For a start() that
    nothing interrupts, at a controller that holds nothing, the release
    calls are none after a failed media acquisition, the four of the audio
    graph after a failed credential fetch, and all six, with the new
    stream closed, after a failed send().  After every call that does not
    return [true], the unsupported-browser returns included,
    getState().isListening is false. *)
Theorem start_failure_rolls_back (env : StartEnv) (a : Awaiting) (s : Sys) :
  let whole := start JSON_parse JSON_stringify env s in
  let called := start_call s in
  let out := start_resume JSON_parse JSON_stringify env a s in
  let lookup := AWSCredentials_getCredentials JSON_parse JSON_stringify
                  (credentialsProvider (config (fst s))) (snd s) in
  (fst whole <> inr true -> st_isListening (getState (fst (snd whole))) = false)
  /\ (fst called = Returned false ->
      st_isListening (getState (fst (snd called))) = false
      /\ fst (snd called) = fst s)
  /\ (forall e, fst out = Threw e ->
        st_isListening (getState (fst (snd out))) = false
        /\ exists s1,
             resume_try JSON_parse JSON_stringify env a s = (inl e, s1)
             /\ cleaned_up e s1 (snd out))
  /\ (forall e, fst whole = inl e ->
        exists s1,
          start_try JSON_parse JSON_stringify env s = (inl e, s1)
          /\ cleaned_up e s1 (snd whole))
  /\ (forall e, a = AwaitGetUserMedia -> getUserMedia env = Some e -> fst out = Threw e)
  /\ (forall e, a = AwaitCreateTranscribeClient (inl e) -> fst out = Threw e)
  /\ (forall e, a = AwaitSend -> transcribeClient_send env = Some e -> fst out = Threw e)
  /\ (isListening (fst s) = false -> browserSupported (fst s) = true ->
      AudioContextClass (fst s) <> None ->
      (forall e, getUserMedia env = Some e ->
         fst whole = inl e
         /\ (holds_none (fst s) ->
             effects (snd (snd whole))
             = effects (snd s)
               ++ [CallOnError (failure_message e); state_update false false None]))
      /\ (forall e, audio_graph_built env -> fst lookup = inl e ->
            fst whole = inl e
            /\ (holds_none (fst s) ->
                effects (snd (snd whole))
                = effects (snd s)
                  ++ [CallOnError (failure_message e);
                      ProcessorDisconnect; SourceDisconnect; AudioContextClose;
                      TracksStop; state_update false false None]))
      /\ (forall e c, audio_graph_built env -> fst lookup = inr c ->
            new_TranscribeStreamingClient env = None ->
            call_generateSessionId env = None ->
            transcribeClient_send env = Some e ->
            fst whole = inl e
            /\ effects (snd (snd whole))
               = effects (snd s)
                 ++ [CallOnError (failure_message e);
                     CustomStreamClose; ProcessorDisconnect; SourceDisconnect;
                     AudioContextClose; TracksStop; TranscribeClientDestroy;
                     state_update false false None]
            /\ audioStream (snd (snd whole))
               = Some (ReadableStream.close (@ReadableStream.new AudioEvent))))
  /\ (isListening (fst s) = false ->
      (browserSupported (fst s) = false \/ AudioContextClass (fst s) = None) ->
      fst whole = inr false /\ fst (snd whole) = fst s).
Proof.
  cbn zeta.
  (* the parts on the call cut at its awaits *)
  assert (Hout : forall e,
             fst (start_resume JSON_parse JSON_stringify env a s) = Threw e ->
             exists s1, resume_try JSON_parse JSON_stringify env a s = (inl e, s1)
                        /\ snd (start_resume JSON_parse JSON_stringify env a s)
                           = snd (start_catch e s1)).
  { intros e. unfold start_resume.
    destruct (resume_try JSON_parse JSON_stringify env a s) as [[e'|progress] s1] eqn:Hr; cbn [fst snd].
    - intros [= ->]. exists s1. split; reflexivity.
    - intros ->. exfalso. revert Hr. clear.
      destruct env as [e1 e2 e3 e4 e5 e6 e7 e8 e9].
      unfold resume_try, bind, external, perform, throw, ret.
      cbn [getUserMedia new_AudioContext createMediaStreamSource createScriptProcessor
           sourceNode_connect processorNode_connect new_TranscribeStreamingClient
           call_generateSessionId transcribeClient_send].
      destruct a as [|outcome|settled|settled|].
      + destruct e1; [discriminate|]. destruct e2; [discriminate|].
        destruct e3; [discriminate|]. destruct e4; [discriminate|].
        destruct e5; [discriminate|]. destruct e6; [discriminate|].
        cbn [fst snd on_client].
        destruct (getCredentials_call _ _ _) as [[?|?] ?]; discriminate.
      + destruct (getCredentials_resume _ _ _); discriminate.
      + destruct settled; [discriminate|]. destruct e7; discriminate.
      + destruct settled; [discriminate|]. cbn [fst snd on_client on_world].
        destruct (processorNode _); [|discriminate]. destruct e8; discriminate.
      + destruct e9; discriminate. }
  pose proof (@start_outcomes JSON_parse JSON_stringify env s) as Hwhole.
  cbn zeta in Hwhole. destruct Hwhole as (Hflag & Hthrown & Hnamed & Hguards).
  split; [exact Hflag|].
  split.
  { unfold start_call. destruct (isListening (fst s)) eqn:Hl; [discriminate|].
    destruct (browserSupported (fst s)); cbn [negb];
      [destruct (AudioContextClass (fst s)); [discriminate|]|];
      intros _; split; first [exact Hl | reflexivity]. }
  split.
  { intros e He. destruct (Hout e He) as (s1 & Hr & Hs).
    pose proof (start_catch_cleans e s1) as Hc. rewrite <- Hs in Hc.
    split; [apply Hc|]. exists s1. split; [exact Hr | exact Hc]. }
  split.
  { intros e He. destruct (Hthrown e He) as (s1 & Ht & Hs & _).
    exists s1. split; [exact Ht|]. rewrite Hs.
    pose proof (start_catch_cleans e s1) as Hc. rewrite start_catch_spec in Hc.
    exact Hc. }
  split.
  { intros e -> He. unfold start_resume, resume_try, bind, external. rewrite He.
    reflexivity. }
  split; [intros e ->; reflexivity|].
  split.
  { intros e -> He. unfold start_resume, resume_try, bind, external. rewrite He.
    reflexivity. }
  split; [|exact Hguards].
  intros Hl Hb Ha. destruct (Hnamed Hl Hb Ha) as (Hat & Hmedia & Hcred & Hsend).
  split.
  { intros e He. split; [apply Hmedia, He|]. intros Hnone.
    rewrite (Hat e s (@start_try_media_failure JSON_parse JSON_stringify env s e He)).
    cbn [snd]. pose proof (start_catch_cleans e s) as (Hc & _).
    rewrite start_catch_spec in Hc. cbn [snd] in Hc.
    rewrite Hc, (release_calls_none Hnone). reflexivity. }
  split.
  { intros e Hg Hc. split; [apply Hcred; assumption|]. intros Hnone.
    destruct (@start_try_credentials_failure_at env s e Hg Hc) as (w1 & Ht & He & _).
    rewrite (Hat e _ Ht). cbn [snd].
    pose proof (start_catch_cleans e
                  (set_processorNode (Some handle)
                     (set_sourceNode (Some handle)
                        (set_audioContext (Some handle)
                           (set_stream (Some handle) (fst s)))), w1)) as (Hcl & _).
    rewrite start_catch_spec in Hcl. cbn [snd] in Hcl. rewrite Hcl.
    cbn [fst snd]. rewrite He. destruct Hnone as (_ & _ & _ & _ & H5 & H6).
    unfold release_calls. cbn [customStream processorNode sourceNode audioContext stream
      transcribeClient set_processorNode set_sourceNode set_audioContext set_stream].
    rewrite H5, H6. reflexivity. }
  intros e c Hg Hc H7 H8 H9. split; [apply (Hsend e c); assumption|].
  destruct (@start_try_send_failure_at env s e c Hg Hc H7 H8 H9) as (w1 & Ht & He).
  rewrite (Hat e _ Ht). cbn [snd].
  match goal with
  | |- context [rolled_back e ?s1] =>
      pose proof (start_catch_cleans e s1) as (Hcl & Hau & _)
  end.
  rewrite start_catch_spec in Hcl, Hau. cbn [snd] in Hcl, Hau. rewrite Hcl, Hau.
  cbn [fst snd effects audioStream set_audioStream customStream set_customStream
       option_map]. rewrite He. split; reflexivity.
Qed.

End StartFailure.
(** *** The short silence timer, in any execution *)

Section SilenceTimerFires.

Variable JSON_parse : string -> Thrown + TranscribeCredentials.
Variable JSON_stringify : TranscribeCredentials -> string.

(** [C9] In any execution, calls of start() waiting at an await included,
    let a speech-classified frame be followed by [silenceDuration] ms, a
    duration that setTimeout takes as it is (above 0 and below 2^31 ms),
    in which time passes, frames without speech and results arrive, and
    neither stop(), start() or toggle() is called nor a waiting start()
    goes on.  Before the last of those ms no [onSpeechEnd] is called and
    [isActivelySpeaking] stays true; when they have elapsed exactly one
    [onSpeechEnd] has been called, [isActivelySpeaking] is false, and the
    long timer and its countdown are armed; as long as no speech frame
    follows, no further [onSpeechEnd] is called. *)
Theorem short_silence_timer_fires_once
  (p : Platform) (options : TranscribeOptions) (now : Z) (store : option Storage)
  (before : list Event) (frame : list float) (window after : list Input) :
  let s0 := fst (arun JSON_parse JSON_stringify before (initial p options now store, [])) in
  let cfg := config (fst s0) in
  let s1 := onaudioprocess frame s0 in
  let s2 := run JSON_parse JSON_stringify window s1 in
  let s3 := run JSON_parse JSON_stringify after s2 in
  _detectVoiceActivity (vadThreshold cfg) frame = true ->
  (0 < silenceDuration cfg < 2147483648)%Z ->
  forallb (quiet cfg) window = true ->
  ticks window = Z.to_nat (silenceDuration cfg) ->
  forallb (quiet cfg) after = true ->
  isActivelySpeaking (fst s1) = true
  /\ (forall early rest, window = early ++ rest -> ticks early < ticks window ->
        speech_ends (effects (snd (run JSON_parse JSON_stringify early s1)))
        = speech_ends (effects (snd s1))
        /\ isActivelySpeaking (fst (run JSON_parse JSON_stringify early s1)) = true)
  /\ speech_ends (effects (snd s2)) = S (speech_ends (effects (snd s1)))
  /\ isActivelySpeaking (fst s2) = false
  /\ armed cfg (Pos.succ (next_timer (snd s0)))
        (Date_now (snd s1) + silenceDuration cfg) s2
  /\ speech_ends (effects (snd s3)) = speech_ends (effects (snd s2)).
Proof.
  intros s0 cfg s1 s2 s3 Hv Hd Hqw Hticks Hqa.
  assert (Hwf : timers_wf s0).
  { apply arun_preserves_wf, initial_wf. }
  destruct (@speech_frame_waits cfg frame s0 Hwf eq_refl Hv Hd) as [Hw1 Hd1].
  fold s1 in Hw1, Hd1. rewrite <- Hd1 in Hw1.
  set (deadline := (Date_now (snd s1) + silenceDuration cfg)%Z) in *.
  split; [destruct Hw1 as (_ & _ & _ & _ & H & _); exact H|].
  split.
  { intros early rest -> Hlt.
    rewrite forallb_app in Hqw. apply andb_prop in Hqw. destruct Hqw as [Hqe _].
    destruct (@waiting_run JSON_parse JSON_stringify cfg _ deadline early s1 Hw1 Hqe ltac:(subst deadline; lia))
      as ((_ & _ & _ & _ & H & _) & _ & He).
    split; [exact He | exact H]. }
  destruct (silenceDuration cfg) as [|d|d] eqn:ED; try lia.
  destruct (Pos2Nat.is_succ d) as [n Hn].
  assert (Hticks' : ticks window = S n) by (rewrite Hticks; cbn; exact Hn).
  destruct (ticks_split window Hticks') as (w1 & w2 & Hwin & Ht1 & Ht2).
  assert (Hq12 : forallb (quiet cfg) w1 = true /\ forallb (quiet cfg) w2 = true).
  { rewrite Hwin in Hqw. rewrite forallb_app in Hqw. apply andb_prop in Hqw.
    destruct Hqw as [Hq1 Hq2]. cbn [forallb quiet andb] in Hq2. split; assumption. }
  destruct Hq12 as [Hq1 Hq2].
  assert (Hd_n : Z.pos d = Z.of_nat (S n)) by lia.
  destruct (@waiting_run JSON_parse JSON_stringify cfg _ deadline w1 s1 Hw1 Hq1 ltac:(subst deadline; lia))
    as (Hw2 & Hd2 & He2).
  set (sa := run JSON_parse JSON_stringify w1 s1) in *.
  destruct (@waiting_tick_fires cfg _ deadline sa Hw2 ltac:(subst deadline; lia))
    as (Harm & Hrest & Hcfg & He3).
  assert (Es2 : s2 = run JSON_parse JSON_stringify w2 (tick sa)).
  { subst s2 sa. rewrite Hwin, run_app, run_cons. reflexivity. }
  destruct (@resting_run JSON_parse JSON_stringify cfg w2 (tick sa) Hrest Hq2) as [Hrest2 He4].
  rewrite <- Es2 in Hrest2, He4.
  pose proof (@armed_quiet_run JSON_parse JSON_stringify cfg _ deadline w2 (tick sa) Harm Hcfg Hq2 Ht2) as Harm2.
  rewrite <- Es2 in Harm2.
  destruct (@resting_run JSON_parse JSON_stringify cfg after s2 Hrest2 Hqa) as [_ He5].
  split; [rewrite He4, He3, He2; reflexivity|].
  split; [destruct Hrest2 as (_ & H & _); exact H|].
  split; [|exact He5].
  exact Harm2.
Qed.

End SilenceTimerFires.

(** [C9] on a started session with a silence duration of 3 ms: a frame of
    amplitude 0.5, then 3 ms of silence with a silent frame in between, then
    some more silence. *)
Lemma short_silence_timer_witness :
  let s0 := fst (arun sample_JSON_parse sample_JSON_stringify
                   [Plain (CallStart all_succeed)]
                   (initial full_platform (short_pause_options sample_provider) 1000
                      empty_store, [])) in
  let cfg := config (fst s0) in
  let s1 := onaudioprocess [0.5%float; 0.5%float] s0 in
  let s2 := run sample_JSON_parse sample_JSON_stringify
              [Tick; AudioProcess [0%float; 0%float]; Tick; Tick] s1 in
  let s3 := run sample_JSON_parse sample_JSON_stringify
              [Tick; AudioProcess [0%float; 0%float]; Tick] s2 in
  isActivelySpeaking (fst s1) = true
  /\ (forall early rest,
        [Tick; AudioProcess [0%float; 0%float]; Tick; Tick] = early ++ rest ->
        ticks early < ticks [Tick; AudioProcess [0%float; 0%float]; Tick; Tick] ->
        speech_ends (effects (snd (run sample_JSON_parse sample_JSON_stringify early s1)))
        = speech_ends (effects (snd s1))
        /\ isActivelySpeaking
             (fst (run sample_JSON_parse sample_JSON_stringify early s1)) = true)
  /\ speech_ends (effects (snd s2)) = S (speech_ends (effects (snd s1)))
  /\ isActivelySpeaking (fst s2) = false
  /\ armed cfg (Pos.succ (next_timer (snd s0)))
        (Date_now (snd s1) + silenceDuration cfg) s2
  /\ speech_ends (effects (snd s3)) = speech_ends (effects (snd s2)).
Proof.
  apply (@short_silence_timer_fires_once sample_JSON_parse sample_JSON_stringify
           full_platform (short_pause_options sample_provider) 1000 empty_store
           [Plain (CallStart all_succeed)] [0.5%float; 0.5%float]
           [Tick; AudioProcess [0%float; 0%float]; Tick; Tick]
           [Tick; AudioProcess [0%float; 0%float]; Tick]);
    vm_compute; first [reflexivity | split; reflexivity].
Defined.

(** [C9] without the restriction on the calls: a stop() in the
    [silenceDuration] ms after the speech frame.  The 3 ms pass with no
    speech frame, and no [onSpeechEnd] is called, then or later; no timer
    is pending and neither the long timer nor the countdown is armed. *)
Lemma stop_in_the_silence_no_speech_end :
  let s0 := run sample_JSON_parse sample_JSON_stringify [CallStart all_succeed]
              (initial full_platform (short_pause_options sample_provider) 1000
                 empty_store) in
  let cfg := config (fst s0) in
  let frame := [0.5%float; 0.5%float] in
  let window := [Tick; CallStop; Tick; Tick] in
  let s1 := onaudioprocess frame s0 in
  let s2 := run sample_JSON_parse sample_JSON_stringify window s1 in
  let s3 := run sample_JSON_parse sample_JSON_stringify (repeat Tick 100) s2 in
  _detectVoiceActivity (vadThreshold cfg) frame = true
  /\ isActivelySpeaking (fst s1) = true
  /\ forallb (no_speech_frame cfg) window = true
  /\ ticks window = Z.to_nat (silenceDuration cfg)
  /\ speech_ends (effects (snd s2)) = 0
  /\ speech_ends (effects (snd s3)) = 0
  /\ timers (snd s2) = []
  /\ maxSilenceTimeout (fst s2) = None /\ countdownInterval (fst s2) = None.
Proof.
  vm_compute. repeat split.
Qed.
